(** * A shallow embedding of [robomimic/models/perceiver_nets/perceiver_obs.py]

    The file embeds the Perceiver vision transformer front end: the Python
    call protocol of the model registry, the constructor of
    [PerceiverVisionTransformer], the patch embedding, the attention mask,
    the position-embedding resampler and the adaptive token sampler
    [visual_embed].

    Conventions.
    - Python exceptions are values of [error]; a function that can raise
      returns a [result].
    - Tensors are nested lists in row-major order; the scalars of the
      sampler and of the resampler are rationals ([Q]), the scalars of the
      attention softmax are reals extended with minus infinity and NaN.
    - The random choices of [torch.multinomial] and [torch.bernoulli] are
      read from an explicit source of random numbers that is threaded
      through the computation. *)

From Stdlib Require Import String ZArith QArith Qround Qreals Reals Lra Lia Bool Arith List.
Import ListNotations.

(* ------------------------------------------------------------------ *)
(** ** Exceptions and the error monad *)

Inductive error : Type :=
| NameError (name : string)
| KeyError (key : string)
| TypeError (msg : string)
| AttributeError (attr : string)
| ZeroDivisionError
| NotImplementedError
| ValueError (msg : string)
| IndexError (msg : string)
| RuntimeError (msg : string).

Inductive result (A : Type) : Type :=
| Ok (a : A)
| Err (e : error).

Arguments Ok {A} a.
Arguments Err {A} e.

Definition bind {A B : Type} (r : result A) (f : A -> result B) : result B :=
  match r with
  | Ok a => f a
  | Err e => Err e
  end.

Notation "x <- c ;; k" := (bind c (fun x => k))
  (at level 61, c at next level, right associativity).
Notation "' pat <- c ;; k" := (bind c (fun x => match x with pat => k end))
  (at level 61, pat pattern, c at next level, right associativity).

Definition is_ok {A : Type} (r : result A) : bool :=
  match r with Ok _ => true | Err _ => false end.

Definition guard (b : bool) (e : error) : result unit :=
  if b then Ok tt else Err e.

Fixpoint mapM {A B : Type} (f : A -> result B) (l : list A) : result (list B) :=
  match l with
  | [] => Ok []
  | a :: l' => b <- f a ;; bs <- mapM f l' ;; Ok (b :: bs)
  end.

(* ------------------------------------------------------------------ *)
(** ** Python values and keyword arguments *)

Inductive pyval : Type :=
| VNone
| VBool (b : bool)
| VInt (z : Z)
| VFloat (q : Q)
| VStr (s : string)
| VPair (a b : Z)
| VObj (tag : string).

(** A keyword dictionary keeps insertion order, as Python's [dict] does. *)
Definition kwargs : Type := list (string * pyval).

Fixpoint lookup (k : string) (d : kwargs) : option pyval :=
  match d with
  | [] => None
  | (k', v) :: d' => if String.eqb k k' then Some v else lookup k d'
  end.

Definition has_key (k : string) (d : kwargs) : bool :=
  match lookup k d with Some _ => true | None => false end.

Definition keys (d : kwargs) : list string := map fst d.

Definition remove_key (k : string) (d : kwargs) : kwargs :=
  filter (fun kv => negb (String.eqb k (fst kv))) d.

(** [d.pop(k, default)]: the value and the dictionary without the key. *)
Definition pop (k : string) (default : pyval) (d : kwargs) : pyval * kwargs :=
  match lookup k d with
  | Some v => (v, remove_key k d)
  | None => (default, d)
  end.

(** [d.get(k, default)]. *)
Definition get (k : string) (default : pyval) (d : kwargs) : pyval :=
  match lookup k d with Some v => v | None => default end.

(** [d.setdefault(k, v)]. *)
Definition setdefault (k : string) (v : pyval) (d : kwargs) : kwargs :=
  if has_key k d then d else d ++ [(k, v)].

(** [dict(k1=v1, ..., **kw)] and a call with such keywords: a key of [kw] that
    repeats an explicit keyword raises [TypeError]. *)
Definition merge_keywords (explicit kw : kwargs) : result kwargs :=
  match find (fun kv => has_key (fst kv) explicit) kw with
  | Some (k, _) => Err (TypeError ("got multiple values for keyword argument " ++ k))
  | None => Ok (explicit ++ kw)
  end.

(** Binding a call of [f] with keywords [kw] against the signature of a function that has
    no catch-all keyword parameter: an unknown keyword raises [TypeError], a
    missing one takes its default. *)
Definition bind_signature (sig : kwargs) (kw : kwargs) : result kwargs :=
  match find (fun kv => negb (has_key (fst kv) sig)) kw with
  | Some (k, _) => Err (TypeError ("got an unexpected keyword argument " ++ k))
  | None => Ok (map (fun p => (fst p, get (fst p) (snd p) kw)) sig)
  end.

(** Truthiness, as tested by [if v:] and [v or w]. *)
Definition truthy (v : pyval) : bool :=
  match v with
  | VNone => false
  | VBool b => b
  | VInt z => negb (z =? 0)%Z
  | VFloat q => negb (Qeq_bool q 0)
  | VStr s => negb (String.eqb s EmptyString)
  | VPair _ _ => true
  | VObj _ => true
  end.

Definition as_int (name : string) (v : pyval) : result Z :=
  match v with
  | VInt z => Ok z
  | VBool b => Ok (if b then 1 else 0)%Z
  | _ => Err (TypeError (name ++ " is not an integer"))
  end.

Definition as_num (name : string) (v : pyval) : result Q :=
  match v with
  | VInt z => Ok (inject_Z z)
  | VBool b => Ok (if b then 1 else 0)
  | VFloat q => Ok q
  | _ => Err (TypeError (name ++ " is not a number"))
  end.

Definition as_opt_int (name : string) (v : pyval) : result (option Z) :=
  match v with
  | VNone => Ok None
  | _ => z <- as_int name v ;; Ok (Some z)
  end.

Definition as_opt_num (name : string) (v : pyval) : result (option Q) :=
  match v with
  | VNone => Ok None
  | _ => q <- as_num name v ;; Ok (Some q)
  end.

(** Floor division [a // b] of Python integers. *)
Definition floordiv (a b : Z) : result Z :=
  if (b =? 0)%Z then Err ZeroDivisionError else Ok (a / b)%Z.

(** [int(q)]: truncation towards zero. *)
Definition int_of_Q (q : Q) : Z := Z.quot (Qnum q) (Zpos (Qden q)).

(* ------------------------------------------------------------------ *)
(** ** Tensors as nested lists *)

Definition T1 : Type := list Q.
Definition T2 : Type := list T1.
Definition T3 : Type := list T2.
Definition T4 : Type := list T3.

Definition tabulate {A : Type} (n : nat) (f : nat -> A) : list A :=
  map f (seq 0 n).

(** A tensor of a given shape whose entry at flat (row-major) index [i] is
    [f i]: every tensor of that shape is of this form. *)
Definition mk1 (f : nat -> Q) (a : nat) : T1 := tabulate a f.
Definition mk2 (f : nat -> Q) (a b : nat) : T2 :=
  tabulate a (fun i => mk1 (fun j => f (i * b + j)%nat) b).
Definition mk3 (f : nat -> Q) (a b c : nat) : T3 :=
  tabulate a (fun i => mk2 (fun j => f (i * (b * c) + j)%nat) b c).
Definition mk4 (f : nat -> Q) (a b c d : nat) : T4 :=
  tabulate a (fun i => mk3 (fun j => f (i * (b * c * d) + j)%nat) b c d).

(** The framework refuses to allocate a tensor with a negative dimension. *)
Definition alloc (dims : list Z) : result unit :=
  guard (forallb (fun d => (0 <=? d)%Z) dims)
        (RuntimeError "Trying to create tensor with negative dimension").

(* ------------------------------------------------------------------ *)
(** ** Layers: [nn.Linear], [nn.Dropout], [nn.LayerNorm], [nn.Conv2d] *)

Record Linear : Type := {
  in_features : Z;
  out_features : Z;
  linear_bias : bool
}.

Definition Linear_init (i o : Z) (b : bool) : result Linear :=
  _ <- alloc [o; i] ;;
  Ok {| in_features := i; out_features := o; linear_bias := b |}.

(** [nn.Dropout(p)] checks that [p] is a probability. *)
Definition Dropout_init (p : Q) : result Q :=
  _ <- guard (Qle_bool 0 p && Qle_bool p 1)
             (ValueError "dropout probability has to be between 0 and 1") ;;
  Ok p.

Record LayerNorm : Type := {
  normalized_shape : Z;
  norm_class : pyval
}.

(** [norm_layer(dim)]: the class is [partial(nn.LayerNorm, eps=1e-6)] when
    the constructor argument is falsy, the caller's class otherwise. *)
Definition norm_layer_init (cls : pyval) (dim : Z) : result LayerNorm :=
  _ <- alloc [dim] ;;
  Ok {| normalized_shape := dim; norm_class := cls |}.

Record Conv2d : Type := {
  in_channels : Z;
  out_channels : Z;
  kernel_size : Z * Z;
  stride : Z * Z;
  padding : Z * Z;
  weight : T4;
  bias : option T1
}.

(** The values a freshly allocated or trained parameter holds: one rational
    per parameter name and flat index. *)
Definition initializer : Type := string -> nat -> Q.

(** [nn.Conv2d(in_chans, embed_dim, kernel_size=k, stride=s, bias=b)]; the
    padding keeps its default, zero. *)
Definition Conv2d_init (init : initializer) (name : string)
    (ic oc : Z) (k s : Z * Z) (b : bool) : result Conv2d :=
  _ <- alloc [oc; ic; fst k; snd k] ;;
  Ok {| in_channels := ic;
        out_channels := oc;
        kernel_size := k;
        stride := s;
        padding := (0, 0)%Z;
        weight := mk4 (init (name ++ ".weight")%string)
                      (Z.to_nat oc) (Z.to_nat ic)
                      (Z.to_nat (fst k)) (Z.to_nat (snd k));
        bias := if b then Some (mk1 (init (name ++ ".bias")%string) (Z.to_nat oc))
                else None |}.

(* ------------------------------------------------------------------ *)
(** ** [class PatchEmbed] (constructor) *)

(** [to_2tuple]: a pair is kept, a single integer is doubled. *)
Definition to_2tuple (v : pyval) : result (Z * Z) :=
  match v with
  | VPair a b => Ok (a, b)
  | _ => z <- as_int "size" v ;; Ok (z, z)
  end.

Module PatchEmbed.

Record t : Type := {
  img_size : Z * Z;
  patch_size : Z * Z;
  num_patches : Z;
  proj : Conv2d
}.

Definition init (w : initializer) (img_size patch_size : pyval)
    (in_chans embed_dim : Z) (no_patch_embed_bias : bool) : result t :=
  img_size <- to_2tuple img_size ;;
  patch_size <- to_2tuple patch_size ;;
  nw <- floordiv (snd img_size) (snd patch_size) ;;
  nh <- floordiv (fst img_size) (fst patch_size) ;;
  let num_patches := (nw * nh)%Z in
  proj <- Conv2d_init w "patch_embed.proj" in_chans embed_dim
            patch_size patch_size
            (if no_patch_embed_bias then false else true) ;;
  Ok {| img_size := img_size;
        patch_size := patch_size;
        num_patches := num_patches;
        proj := proj |}.

End PatchEmbed.

(* ------------------------------------------------------------------ *)
(** ** [class Attention], [class Mlp], [class Block] (constructors) *)

(** [self.scale = qk_scale or head_dim ** -0.5]: the second form is kept
    symbolic, it is not a rational. *)
Inductive scale_t : Type :=
| ScaleGiven (q : Q)
| ScaleInvSqrt (head_dim : Z).

Definition inv_sqrt (head_dim : Z) : result scale_t :=
  if (head_dim =? 0)%Z then Err ZeroDivisionError
  else Ok (ScaleInvSqrt head_dim).

Module Attention.

Record t : Type := {
  num_heads : Z;
  scale : scale_t;
  qkv : Linear;
  attn_drop : Q;
  proj : Linear;
  proj_drop : Q
}.

Definition init (dim num_heads : Z) (qkv_bias : bool) (qk_scale : option Q)
    (attn_drop proj_drop : Q) : result t :=
  head_dim <- floordiv dim num_heads ;;
  scale <- match qk_scale with
           | Some q => if Qeq_bool q 0 then inv_sqrt head_dim
                       else Ok (ScaleGiven q)
           | None => inv_sqrt head_dim
           end ;;
  qkv <- Linear_init dim (dim * 3) qkv_bias ;;
  attn_drop <- Dropout_init attn_drop ;;
  proj <- Linear_init dim dim true ;;
  proj_drop <- Dropout_init proj_drop ;;
  Ok {| num_heads := num_heads; scale := scale; qkv := qkv;
        attn_drop := attn_drop; proj := proj; proj_drop := proj_drop |}.

End Attention.

Module Mlp.

Record t : Type := {
  fc1 : Linear;
  fc2 : Linear;
  drop : Q
}.

Definition init (in_features hidden_features : Z) (drop : Q) : result t :=
  let out_features := in_features in
  let hidden_features :=
    if (hidden_features =? 0)%Z then in_features else hidden_features in
  fc1 <- Linear_init in_features hidden_features true ;;
  fc2 <- Linear_init hidden_features out_features true ;;
  drop <- Dropout_init drop ;;
  Ok {| fc1 := fc1; fc2 := fc2; drop := drop |}.

End Mlp.

Module Block.

Record t : Type := {
  norm1 : LayerNorm;
  attn : Attention.t;
  drop_path : Q;
  norm2 : LayerNorm;
  mlp : Mlp.t
}.

Definition init (dim num_heads : Z) (mlp_ratio : Q) (qkv_bias : bool)
    (qk_scale : option Q) (drop attn_drop drop_path : Q)
    (norm_layer : pyval) : result t :=
  norm1 <- norm_layer_init norm_layer dim ;;
  attn <- Attention.init dim num_heads qkv_bias qk_scale attn_drop drop ;;
  norm2 <- norm_layer_init norm_layer dim ;;
  let mlp_hidden_dim := int_of_Q (inject_Z dim * mlp_ratio) in
  mlp <- Mlp.init dim mlp_hidden_dim drop ;;
  Ok {| norm1 := norm1; attn := attn; drop_path := drop_path;
        norm2 := norm2; mlp := mlp |}.

End Block.

(* ------------------------------------------------------------------ *)
(** ** [class PerceiverVisionTransformer] (constructor) *)

(** An entry of the configuration table, as [_cfg] builds it; only the
    fields the factory reads are kept. *)
Record cfg : Type := {
  cfg_url : string;
  cfg_num_classes : Z;
  cfg_input_size : Z * Z * Z
}.

(** [torch.linspace(0, r, n)] as a Python list. *)
Definition linspace0 (r : Q) (n : Z) : result (list Q) :=
  _ <- guard (0 <=? n)%Z (RuntimeError "number of steps must be non-negative") ;;
  Ok (tabulate (Z.to_nat n)
        (fun i => if (n =? 1)%Z then 0
                  else r * inject_Z (Z.of_nat i) / inject_Z (n - 1))).

Module PerceiverVisionTransformer.

Record t : Type := {
  num_classes : pyval;
  num_features : Z;
  embed_dim : Z;
  add_norm_before_transformer : bool;
  patch_embed : PatchEmbed.t;
  patch_size : Z;
  patch_dim : Z;
  total_output_patch : Z;
  pos_drop : Q;
  use_video : bool;
  max_frames : option pyval;
  pre_norm : option LayerNorm;
  blocks : list Block.t;
  norm : LayerNorm;
  (** the [nn.Parameter] attributes of the model itself, by name *)
  parameters : list (string * T3);
  default_cfg : option cfg
}.

(** The parameters of [__init__] with their defaults. *)
Definition signature : kwargs :=
  [ ("img_size", VInt 224); ("patch_size", VInt 16); ("in_chans", VInt 3);
    ("num_classes", VInt 1000); ("embed_dim", VInt 768); ("depth", VInt 12);
    ("num_heads", VInt 12); ("mlp_ratio", VFloat 4); ("qkv_bias", VBool true);
    ("qk_scale", VNone); ("representation_size", VNone);
    ("drop_rate", VFloat 0); ("attn_drop_rate", VFloat 0);
    ("drop_path_rate", VFloat 0); ("norm_layer", VNone);
    ("add_norm_before_transformer", VBool false);
    ("no_patch_embed_bias", VBool false); ("use_video", VBool false);
    ("max_frames", VInt 8); ("pretrained", VBool false) ]%string.

(** The body of [__init__] on the bound parameters [a]. *)
Definition init_body (w : initializer) (a : kwargs) : result t :=
  let arg k := get k VNone a in
  let num_classes := arg "num_classes"%string in
  embed_dim <- as_int "embed_dim" (arg "embed_dim"%string) ;;
  let norm_layer :=
    if truthy (arg "norm_layer"%string) then arg "norm_layer"%string
    else VObj "partial(nn.LayerNorm, eps=1e-6)" in
  let add_norm_before_transformer :=
    truthy (arg "add_norm_before_transformer"%string) in
  in_chans <- as_int "in_chans" (arg "in_chans"%string) ;;
  patch_embed <- PatchEmbed.init w (arg "img_size"%string)
                   (arg "patch_size"%string) in_chans embed_dim false ;;
  let num_patches := PatchEmbed.num_patches patch_embed in
  img_size <- as_int "img_size" (arg "img_size"%string) ;;
  patch_size <- as_int "patch_size" (arg "patch_size"%string) ;;
  patch_dim <- floordiv img_size patch_size ;;
  _ <- alloc [1; 1; embed_dim]%Z ;;
  _ <- alloc [1; num_patches + 1; embed_dim]%Z ;;
  drop_rate <- as_num "drop_rate" (arg "drop_rate"%string) ;;
  pos_drop <- Dropout_init drop_rate ;;
  let use_video := truthy (arg "use_video"%string) in
  _ <- (if use_video then alloc [1; 64; embed_dim]%Z else Ok tt) ;;
  pre_norm <- (if add_norm_before_transformer
               then n <- norm_layer_init norm_layer embed_dim ;; Ok (Some n)
               else Ok None) ;;
  depth <- as_int "depth" (arg "depth"%string) ;;
  drop_path_rate <- as_num "drop_path_rate" (arg "drop_path_rate"%string) ;;
  dpr <- linspace0 drop_path_rate depth ;;
  num_heads <- as_int "num_heads" (arg "num_heads"%string) ;;
  mlp_ratio <- as_num "mlp_ratio" (arg "mlp_ratio"%string) ;;
  qk_scale <- as_opt_num "qk_scale" (arg "qk_scale"%string) ;;
  attn_drop_rate <- as_num "attn_drop_rate" (arg "attn_drop_rate"%string) ;;
  blocks <- mapM (fun dp =>
              Block.init embed_dim num_heads mlp_ratio
                (truthy (arg "qkv_bias"%string)) qk_scale
                drop_rate attn_drop_rate dp norm_layer) dpr ;;
  norm <- norm_layer_init norm_layer embed_dim ;;
  _ <- (if truthy (arg "pretrained"%string)
        then Err NotImplementedError else Ok tt) ;;
  let D := Z.to_nat embed_dim in
  Ok {| num_classes := num_classes;
        num_features := embed_dim;
        embed_dim := embed_dim;
        add_norm_before_transformer := add_norm_before_transformer;
        patch_embed := patch_embed;
        patch_size := patch_size;
        patch_dim := patch_dim;
        total_output_patch := (num_patches + 1)%Z;
        pos_drop := pos_drop;
        use_video := use_video;
        max_frames := if use_video then Some (arg "max_frames"%string)
                      else None;
        pre_norm := pre_norm;
        blocks := blocks;
        norm := norm;
        parameters :=
          [ ("cls_token"%string, mk3 (w "cls_token"%string) 1 1 D);
            ("pos_embed"%string,
             mk3 (w "pos_embed"%string) 1 (Z.to_nat (num_patches + 1)) D) ]
          ++ (if use_video
              then [ ("temporal_embed"%string,
                      mk3 (w "temporal_embed"%string) 1 64 D) ]
              else []);
        default_cfg := None |}.

(** [PerceiverVisionTransformer(k1=v1, ...)]. *)
Definition init (w : initializer) (kw : kwargs) : result t :=
  a <- bind_signature signature kw ;;
  init_body w a.

(** Attribute access [self.name] for a parameter: [nn.Module.__getattr__]
    raises [AttributeError] when no such attribute was registered. *)
Fixpoint assoc (name : string) (l : list (string * T3)) : option T3 :=
  match l with
  | [] => None
  | (k, v) :: l' => if String.eqb name k then Some v else assoc name l'
  end.

Definition getattr (self : t) (name : string) : result T3 :=
  match assoc name (parameters self) with
  | Some v => Ok v
  | None => Err (AttributeError name)
  end.

End PerceiverVisionTransformer.

(* ------------------------------------------------------------------ *)
(** ** Tensor operations *)

Definition Qsum (l : list Q) : Q := fold_right Qplus 0 l.
Definition Zsum (l : list Z) : Z := fold_right Z.add 0%Z l.

Definition at2 (m : T2) (i j : nat) : Q := nth j (nth i m []) 0.
Definition at3 (t : T3) (c i j : nat) : Q := at2 (nth c t []) i j.

(** Shapes are read off the leading elements; the operations below are
    meant for rectangular tensors. *)
Definition shape2 {A : Type} (m : list (list A)) : nat * nat :=
  (length m, length (hd [] m)).
Definition shape3 {A : Type} (t : list (list (list A))) : nat * nat * nat :=
  (length t, length (hd [] t), length (hd [] (hd [] t))).
Definition shape4 {A : Type} (t : list (list (list (list A))))
  : nat * nat * nat * nat :=
  (length t, length (hd [] t), length (hd [] (hd [] t)),
   length (hd [] (hd [] (hd [] t)))).

Definition rect2 {A : Type} (a b : nat) (m : list (list A)) : Prop :=
  length m = a /\ Forall (fun r => length r = b) m.
Definition rect3 {A : Type} (a b c : nat) (t : list (list (list A))) : Prop :=
  length t = a /\ Forall (rect2 b c) t.
Definition rect4 {A : Type} (a b c d : nat)
    (t : list (list (list (list A)))) : Prop :=
  length t = a /\ Forall (rect3 b c d) t.

(** [t.view(n, -1)] along the leading dimension of a list of rows: the rows
    are split into [n] groups of equal size. *)
Fixpoint chunks {A : Type} (size count : nat) (l : list A) : list (list A) :=
  match count with
  | O => []
  | S count' => firstn size l :: chunks size count' (skipn size l)
  end.

Definition view_rows {A : Type} (n : nat) (l : list A) : result (list (list A)) :=
  if (n =? 0)%nat then
    Err (RuntimeError "cannot reshape: the inferred dimension is ambiguous or the shape is invalid")
  else if (length l mod n =? 0)%nat then Ok (chunks (length l / n) n l)
  else Err (RuntimeError "shape is invalid for input size").

(** [F.conv2d(x, weight, bias, stride)] on one image [x : [C][H][W]], with
    no padding and a single group; [weight : [O][C][kh][kw]]. *)
Definition conv_out (inp k s : nat) : nat := ((inp - k) / s + 1)%nat.

Definition window (k x : T2) (i0 j0 kh kw : nat) : Q :=
  Qsum (map (fun u =>
          Qsum (map (fun v => at2 k u v * at2 x (i0 + u) (j0 + v))
                    (seq 0 kw)))
        (seq 0 kh)).

Definition conv2d_shape_check (C Hi Wi Cw kh kw sh sw : nat) : result unit :=
  _ <- guard (C =? Cw)%nat (RuntimeError "input channels do not match the weight") ;;
  _ <- guard ((0 <? sh) && (0 <? sw))%nat (RuntimeError "non-positive stride is not supported") ;;
  _ <- guard ((0 <? kh) && (0 <? kw))%nat (RuntimeError "kernel size should be greater than zero") ;;
  guard ((kh <=? Hi) && (kw <=? Wi))%nat
        (RuntimeError "Kernel size can't be greater than actual input size").

Definition conv2d_image (x : T3) (weight : T4) (bias : option T1)
    (Hi Wi kh kw sh sw : nat) : T3 :=
  map (fun o =>
         let wo := nth o weight [] in
         let b := match bias with Some bv => nth o bv 0 | None => 0 end in
         tabulate (conv_out Hi kh sh) (fun i =>
           tabulate (conv_out Wi kw sw) (fun j =>
             b + Qsum (map (fun c =>
                         window (nth c wo []) (nth c x [])
                                (i * sh) (j * sw) kh kw)
                       (seq 0 (length x))))))
      (seq 0 (length weight)).

Definition conv2d (x : T4) (weight : T4) (bias : option T1)
    (stride : nat * nat) : result T4 :=
  let '(B, C, Hi, Wi) := shape4 x in
  let '(_, Cw, kh, kw) := shape4 weight in
  _ <- conv2d_shape_check C Hi Wi Cw kh kw (fst stride) (snd stride) ;;
  Ok (map (fun img => conv2d_image img weight bias Hi Wi kh kw
                        (fst stride) (snd stride)) x).

(** [F.interpolate(m, size=(oh, ow))], nearest neighbour (the default
    mode), on one channel of integers. *)
Definition nearest_idx (inp out i : nat) : nat :=
  Nat.min (i * inp / out) (inp - 1).

Definition nearest2d (m : list (list Z)) (ih iw oh ow : nat) : list (list Z) :=
  tabulate oh (fun i =>
    tabulate ow (fun j =>
      nth (nearest_idx iw ow j) (nth (nearest_idx ih oh i) m []) 0%Z)).

Definition interpolate_size_check (ih iw oh ow : nat) : result unit :=
  guard ((0 <? ih) && (0 <? iw) && (0 <? oh) && (0 <? ow))%nat
        (RuntimeError "Input and output sizes should be greater than 0").

(** [F.interpolate(g, size=(oh, ow), mode="bilinear", align_corners=a)] on
    one channel: the source coordinate of an output index, its two
    neighbours and the weight of the second one. *)
Definition Qnat (n : nat) : Q := inject_Z (Z.of_nat n).

Definition src_coord (align : bool) (inp out i : nat) : Q :=
  if align then
    (if (out <=? 1)%nat then 0
     else Qnat i * (Qnat (inp - 1) / Qnat (out - 1)))
  else
    let s := (Qnat i + (1 # 2)) * (Qnat inp / Qnat out) - (1 # 2) in
    if Qle_bool 0 s then s else 0.

Definition src_index (align : bool) (inp out i : nat) : nat * nat * Q :=
  let s := src_coord align inp out i in
  let i0 := Z.to_nat (Qfloor s) in
  let i1 := if (i0 <? inp - 1)%nat then S i0 else i0 in
  let l1 := s - Qnat i0 in
  (i0, i1, if Qle_bool l1 0 then 0 else if Qle_bool 1 l1 then 1 else l1).

Definition bilinear2d (align : bool) (g : T2) (ih iw oh ow : nat) : T2 :=
  tabulate oh (fun i =>
    let '(i0, i1, li) := src_index align ih oh i in
    tabulate ow (fun j =>
      let '(j0, j1, lj) := src_index align iw ow j in
      (1 - li) * ((1 - lj) * at2 g i0 j0 + lj * at2 g i0 j1)
      + li * ((1 - lj) * at2 g i1 j0 + lj * at2 g i1 j1))).

(** [F.pad(g, (0, r, 0, b))]: zeros on the right and at the bottom. *)
Definition pad2d (g : T2) (w r b : nat) : T2 :=
  map (fun row => row ++ repeat 0 r) g ++ repeat (repeat 0 (w + r)%nat) b.

(** [t.flatten(2).transpose(1, 2)] on one example [t : [C][H][W]]: the
    list of the [H*W] tokens, each with [C] channels. *)
Definition flatten2 {A : Type} (t : list (list (list A))) : list (list A) :=
  map (@concat A) t.

Definition transpose (n : nat) (m : T2) : T2 :=
  tabulate n (fun p => map (fun row => nth p row 0) m).

Definition tokens_of (t : T3) (H W : nat) : T2 :=
  transpose (H * W) (flatten2 t).

Definition vadd (a b : T1) : T1 := map (fun p => fst p + snd p) (combine a b).

(* ------------------------------------------------------------------ *)
(** ** [PatchEmbed.forward] *)

Definition PatchEmbed_forward (self : PatchEmbed.t) (x : T4) : result T4 :=
  let proj := PatchEmbed.proj self in
  conv2d x (weight proj) (bias proj)
         (Z.to_nat (fst (stride proj)), Z.to_nat (snd (stride proj))).

(* ------------------------------------------------------------------ *)
(** ** Random choices *)

(** The outcomes of the random draws of one run, in the order in which the
    run makes them: [choice] feeds [torch.multinomial], [coin] feeds
    [torch.bernoulli] and the dropout masks. A position counter is
    threaded through the code. *)
Record randomness : Type := {
  choice : nat -> nat;
  coin : nat -> bool
}.

Definition remove_nth {A : Type} (i : nat) (l : list A) : list A :=
  firstn i l ++ skipn (S i) l.

Fixpoint draw_distinct (rnd : nat -> nat) (pos : nat) (pool : list nat)
    (k : nat) : list nat :=
  match k with
  | O => []
  | S k' =>
      let i := (rnd pos mod length pool)%nat in
      nth i pool 0%nat :: draw_distinct rnd (S pos) (remove_nth i pool) k'
  end.

Definition draw_repeat (rnd : nat -> nat) (pos n k : nat) : list nat :=
  map (fun t => (rnd (pos + t) mod n)%nat) (seq 0 k).

(** [torch.multinomial(torch.ones(n).float(), num_samples, replacement)]:
    uniform draws of category indices below [n]. The framework rejects a
    non-positive number of samples, and more samples than categories when
    drawing without replacement. *)
Definition multinomial (rnd : randomness) (pos n : nat) (num_samples : Z)
    (replacement : bool) : result (list nat * nat) :=
  _ <- guard (0 <? num_samples)%Z
             (RuntimeError "cannot sample n_sample <= 0 samples") ;;
  let k := Z.to_nat num_samples in
  if replacement then
    _ <- guard (0 <? n)%nat
               (RuntimeError "invalid multinomial distribution (no category)") ;;
    Ok (draw_repeat (choice rnd) pos n k, (pos + k)%nat)
  else
    _ <- guard (k <=? n)%nat
               (RuntimeError "cannot sample n_sample > prob_dist.size(-1) samples without replacement") ;;
    Ok (draw_distinct (choice rnd) pos (seq 0 n) k, (pos + k)%nat).

(* ------------------------------------------------------------------ *)
(** ** The token sampler of [visual_embed] (source lines 431 to 476) *)

Definition index : Type := (nat * nat)%type.

(** [m.nonzero(as_tuple=False)] on a matrix: the (row, column) pairs of the
    non-zero entries, in row-major order. *)
Definition nonzero (m : list (list Z)) : list index :=
  concat (map (fun br =>
                 map (fun p => (fst br, p))
                     (filter (fun p => negb (nth p (snd br) 0 =? 0)%Z)
                             (seq 0 (length (snd br)))))
              (combine (seq 0 (length m)) m)).

(** [t.unique()]: the distinct values, sorted. *)
Definition unique (l : list nat) : list nat :=
  filter (fun b => existsb (Nat.eqb b) l) (seq 0 (S (list_max l))).

Definition rows_of (u : nat) (idx : list index) : list index :=
  filter (fun bp => (fst bp =? u)%nat) idx.

(** [eff.max()] raises on an empty tensor. *)
Definition tensor_max (l : list Z) : result Z :=
  match l with
  | [] => Err (RuntimeError "max(): expected a non-empty tensor")
  | z :: l' => Ok (fold_left Z.max l' z)
  end.

Definition effective_len (x_h x_w : list Z) (max_image_len : pyval)
  : result Z :=
  let eff := map (fun hw => (fst hw * snd hw)%Z) (combine x_h x_w) in
  match max_image_len with
  | VInt z =>
      m <- tensor_max eff ;;
      if (z <? 0)%Z then Ok m else Ok (Z.min m z)
  | VBool b =>
      m <- tensor_max eff ;;
      Ok (Z.min m (if b then 1 else 0))
  | VFloat q => tensor_max eff
  | _ => Err (TypeError "'<' not supported between these instances")
  end.

Fixpoint select_loop (rnd : randomness) (pos : nat) (max_image_len : Z)
    (rows : list (list index * list index))
  : result (list (list index) * nat) :=
  match rows with
  | [] => Ok ([], pos)
  | (valid, non_valid) :: rest =>
      let v := length valid in
      let nv := length non_valid in
      let p := (max_image_len - Z.of_nat v)%Z in
      ' (sel, pos1) <-
        (if (p <=? 0)%Z then
           ' (valid_choice, pos1) <- multinomial rnd pos v max_image_len false ;;
           Ok (map (fun c => nth c valid (0, 0)%nat) valid_choice, pos1)
         else
           ' (pad_choice, pos1) <- multinomial rnd pos nv p true ;;
           Ok (valid ++ map (fun c => nth c non_valid (0, 0)%nat) pad_choice,
               pos1)) ;;
      ' (sels, pos2) <- select_loop rnd pos1 max_image_len rest ;;
      Ok (sel :: sels, pos2)
  end.

Definition sample_select (rnd : randomness) (pos : nat) (x_mask : list (list Z))
    (max_image_len : Z) : result (list (list index) * nat) :=
  let valid_idx := nonzero x_mask in
  let non_valid_idx := nonzero (map (map (fun v => (1 - v)%Z)) x_mask) in
  let unique_rows := unique (map fst valid_idx) in
  let valid_row_idx := map (fun u => rows_of u valid_idx) unique_rows in
  let non_valid_row_idx := map (fun u => rows_of u non_valid_idx) unique_rows in
  select_loop rnd pos max_image_len (combine valid_row_idx non_valid_row_idx).

(** [t[select[:, 0], select[:, 1]]]: one entry per selected index. *)
Definition gather {A : Type} (d : A) (t : list (list A)) (select : list index)
  : list A :=
  map (fun bp => nth (snd bp) (nth (fst bp) t []) d) select.

(* ------------------------------------------------------------------ *)
(** ** [PerceiverVisionTransformer.mask_tokens] *)

Definition labels_t : Type := list (list (list Z)).

Definition imap {A B : Type} (f : nat -> A -> B) (l : list A) : list B :=
  map (fun p => f (fst p) (snd p)) (combine (seq 0 (length l)) l).

(** [F.conv2d(img, ones(3, 1, ph, pw) / (ph * pw), stride=(ph, pw),
    groups=3)] on one image: the mean of every patch, channel by channel. *)
Definition patch_mean (img : T3) (Hi Wi ph pw : nat) : T3 :=
  map (fun ch =>
         tabulate (conv_out Hi ph ph) (fun i =>
           tabulate (conv_out Wi pw pw) (fun j =>
             window (repeat (repeat (1 / Qnat (ph * pw)) pw) ph) ch
                    (i * ph) (j * pw) ph pw)))
      img.

Definition transpose_Z (n : nat) (m : list (list Z)) : list (list Z) :=
  tabulate n (fun p => map (fun row => nth p row 0%Z) m).

Definition mask_tokens (self : PerceiverVisionTransformer.t) (rnd : randomness)
    (pos : nat) (orig_image : T4) (feats : T3)
  : result (T3 * labels_t * nat) :=
  let img_unnorm :=
    map (map (map (map (fun v => v * (1 # 2) + (1 # 2))))) orig_image in
  let '(_, _, ph, pw) :=
    shape4 (weight (PatchEmbed.proj (PerceiverVisionTransformer.patch_embed self))) in
  let '(B, C, Hi, Wi) := shape4 img_unnorm in
  _ <- conv2d_shape_check C Hi Wi 3 ph pw ph pw ;;
  let img_unnorm_patch := map (fun img => patch_mean img Hi Wi ph pw) img_unnorm in
  let n := (conv_out Hi ph ph * conv_out Wi pw pw)%nat in
  let labels : labels_t :=
    map (fun t =>
           transpose_Z n
             (map (fun ch => map (fun v => int_of_Q (v * 255)) (concat ch)) t))
        img_unnorm_patch in
  let masked_indices (b p : nat) : bool := coin rnd (pos + b * n + p) in
  let labels :=
    imap (fun b rows =>
            imap (fun p lab =>
                    if masked_indices b p then lab
                    else map (fun _ => (-100)%Z) lab) rows)
         labels in
  let indices_replaced (b p : nat) : bool :=
    coin rnd (pos + B * n + b * n + p) && masked_indices b p in
  mask_token <- PerceiverVisionTransformer.getattr self "mask_token" ;;
  let feats :=
    imap (fun b rows =>
            imap (fun p tok =>
                    if indices_replaced b p
                    then hd [] (hd [] mask_token) else tok) rows)
         feats in
  Ok (feats, labels, (pos + 2 * (B * n))%nat).

(* ------------------------------------------------------------------ *)
(** ** [PerceiverVisionTransformer.visual_embed] *)

Inductive input : Type :=
| Image (x : T4)                 (* [B][C][H][W] *)
| Video (x : list T4).           (* [B][T][C][H][W] *)

(** The returned tuple [(x, x_mask, (patch_index, (H, W)), label, None)]. *)
Record embed_out : Type := {
  out_x : T3;
  out_mask : list (list Z);
  out_patch_index : list (list index);
  out_grid : nat * nat;
  out_label : option labels_t
}.

Definition channel_sum (img : T3) (Hi Wi : nat) : T2 :=
  tabulate Hi (fun i =>
    tabulate Wi (fun j => Qsum (map (fun ch => at2 ch i j) img))).

Definition ne0 (m : T2) : list (list bool) :=
  map (map (fun v => negb (Qeq_bool v 0))) m.

Definition ones_like {A : Type} (m : list (list A)) : list (list Z) :=
  map (map (fun _ => 1%Z)) m.

(** [self.pos_embed[:, 1:, :].transpose(1, 2).view(1, C, patch_dim,
    patch_dim)], without the leading singleton dimension. *)
Definition spatial_pos_of (pos_embed : T3) (C : nat) (patch_dim : Z)
  : result T3 :=
  let table := nth 0 pos_embed [] in
  let rows := tl table in
  let D := length (hd [] table) in
  let pd := Z.to_nat patch_dim in
  _ <- guard ((0 <=? patch_dim)%Z && (C =? D)%nat
              && (length rows =? pd * pd)%nat)
             (RuntimeError "view: shape is invalid for input size") ;;
  Ok (map (chunks pd pd) (transpose D rows)).

(** The positional grid of one example whose valid extent is [(h, w)]:
    interpolation of every channel, then zero padding to [(H, W)]. *)
Definition pos_embed_of (spatial_pos : T3) (pd H W : nat) (h w : Z)
  : result T3 :=
  let h := Z.to_nat h in
  let w := Z.to_nat w in
  _ <- interpolate_size_check pd pd h w ;;
  Ok (map (fun g => pad2d (bilinear2d true g pd pd h w) w (W - w) (H - h))
          spatial_pos).

Definition patch_index_of (H W : nat) : list index :=
  concat (tabulate H (fun i => tabulate W (fun j => (i, j)))).

(** [nn.Dropout]: the identity in evaluation mode and at rate zero. *)
Definition dropout (training : bool) (p : Q) (rnd : randomness) (pos : nat)
    (x : T3) : T3 :=
  if training && negb (Qeq_bool p 0) then
    let n := length (hd [] x) in
    let D := length (hd [] (hd [] x)) in
    imap (fun b ex =>
      imap (fun t tok =>
        imap (fun c v =>
                if coin rnd (pos + (b * n + t) * D + c)
                then v / (1 - p) else 0) tok) ex) x
  else x.

Definition add3 (x y : T3) : T3 :=
  map (fun ex => map (fun tk => vadd (fst tk) (snd tk))
                     (combine (fst ex) (snd ex)))
      (combine x y).

(** The validity mask of the patches (source lines 381 and 383, without
    the singleton channel dimension): [torch.ones_like] of the test
    [_x.sum(dim=1) != 0], resized to the patch grid. *)
Definition valid_mask (_x : T4) (H W : nat) : list (list (list Z)) :=
  let '(_, _, Hi, Wi) := shape4 _x in
  map (fun img => nearest2d (ones_like (ne0 (channel_sum img Hi Wi))) Hi Wi H W)
      _x.

(** [x_mask[:, 0].sum(dim=1)[:, 0]] and [x_mask[:, 0].sum(dim=2)[:, 0]]. *)
Definition extent_h (x_mask : list (list (list Z))) : list Z :=
  map (fun m => Zsum (map (fun row => nth 0 row 0%Z) m)) x_mask.

Definition extent_w (x_mask : list (list (list Z))) : list Z :=
  map (fun m => Zsum (nth 0 m [])) x_mask.

(** The values [visual_embed] holds after source line 506, where the
    positional embedding has been added. *)
Record stage : Type := {
  st_x : T3;                          (* [B][L+1][D] *)
  st_mask : list (list Z);            (* [B][L] *)
  st_index : list (list index);       (* [B][L] *)
  st_grid : nat * nat;
  st_label : option labels_t;
  st_len : Z;
  st_pos : nat
}.

(** Source lines 376 to 506, on the batch of frames [_x]. *)
Definition embed_frames (self : PerceiverVisionTransformer.t)
    (rnd : randomness) (_x : T4) (max_image_len : pyval) (mask_it : bool)
  : result stage :=
  let pe := PerceiverVisionTransformer.patch_embed self in
  x <- PatchEmbed_forward pe _x ;;
  let '(_, _, Hi, Wi) := shape4 _x in
  let '(B, C, H, W) := shape4 x in
  _ <- interpolate_size_check Hi Wi H W ;;
  let x_mask := valid_mask _x H W in
  let x_h := extent_h x_mask in
  let x_w := extent_w x_mask in
  pos_param <- PerceiverVisionTransformer.getattr self "pos_embed" ;;
  spatial_pos <- spatial_pos_of pos_param C
                   (PerceiverVisionTransformer.patch_dim self) ;;
  let pd := Z.to_nat (PerceiverVisionTransformer.patch_dim self) in
  pos_embed <- mapM (fun hw => pos_embed_of spatial_pos pd H W (fst hw) (snd hw))
                    (combine x_h x_w) ;;
  let pos_embed := map (fun t => tokens_of t H W) pos_embed in
  let x := map (fun t => tokens_of t H W) x in
  let patch_index := map (fun _ => patch_index_of H W) x_mask in
  let x_mask := map (@concat Z) x_mask in
  ' (x, label, pos) <-
    (if mask_it then
       ' (x', l, p) <- mask_tokens self rnd 0 _x x ;; Ok (x', Some l, p)
     else Ok (x, None, 0%nat)) ;;
  max_image_len <- effective_len x_h x_w max_image_len ;;
  ' (select, pos) <- sample_select rnd pos x_mask max_image_len ;;
  let select := concat select in
  _ <- guard (0 <? C)%nat (RuntimeError "view: shape is invalid for input size") ;;
  x <- view_rows B (gather [] x select) ;;
  x_mask <- view_rows B (gather 0%Z x_mask select) ;;
  patch_index <- view_rows B (gather (0, 0)%nat patch_index select) ;;
  pos_embed <- view_rows B (gather [] pos_embed select) ;;
  label <-
    match label with
    | None => Ok None
    | Some l =>
        l <- view_rows B (gather [] l select) ;;
        let l :=
          map (fun ex =>
                 map (fun lm => if (snd lm =? 0)%Z
                                then map (fun _ => (-100)%Z) (fst lm)
                                else fst lm)
                     (combine (fst ex) (snd ex)))
              (combine l x_mask) in
        Ok (Some (map (fun ex => [(-100); (-100); (-100)]%Z :: ex) l))
    end ;;
  cls_param <- PerceiverVisionTransformer.getattr self "cls_token" ;;
  let cls_tokens := hd [] cls_param in
  let x := map (fun ex => cls_tokens ++ ex) x in
  let pos_embed :=
    map (fun ex => [hd [] (hd [] pos_param)] ++ ex) pos_embed in
  let x := add3 x pos_embed in
  Ok {| st_x := x; st_mask := x_mask; st_index := patch_index;
        st_grid := (H, W); st_label := label;
        st_len := max_image_len; st_pos := pos |}.

(** [t[:, :m]] on the rows of a table. *)
Definition slice_to (m : pyval) (rows : T2) : result T2 :=
  match m with
  | VNone => Ok rows
  | VInt z =>
      if (z <? 0)%Z then Ok (firstn (length rows - Z.to_nat (- z)) rows)
      else Ok (firstn (Z.to_nat z) rows)
  | _ => Err (TypeError "slice indices must be integers or None")
  end.

(** [torch.repeat_interleave(rows, r, dim=1)]. *)
Definition repeat_interleave (r : nat) (rows : T2) : T2 :=
  concat (map (fun row => repeat row r) rows).

(** [x += te] where [te] has a leading singleton dimension: the in-place
    sum needs [te] to have as many rows as [x] has tokens, or one row. *)
Definition add_broadcast (x : T3) (te : T2) : result T3 :=
  let n := length (hd [] x) in
  if (length te =? n)%nat then
    Ok (map (fun ex => map (fun tk => vadd (fst tk) (snd tk)) (combine ex te)) x)
  else if (length te =? 1)%nat then
    Ok (map (map (fun tok => vadd tok (hd [] te))) x)
  else Err (RuntimeError "The size of tensor a must match the size of tensor b at non-singleton dimension 1").

Definition frame_is_zero (f : T3) : bool :=
  let n := length (concat (concat f)) in
  (0 <? n)%nat && Qeq_bool (Qsum (concat (concat f)) / Qnat n) 0.

Section VisualEmbed.

(** [nn.LayerNorm] (or the caller's [norm_layer]) on one token. *)
Variable layer_norm : T1 -> T1.

(** Source lines 522 to 525: dropout, then the optional normalisation. *)
Definition finish (self : PerceiverVisionTransformer.t) (training : bool)
    (rnd : randomness) (pos : nat) (x : T3) : T3 :=
  let x := dropout training (PerceiverVisionTransformer.pos_drop self)
                   rnd pos x in
  if PerceiverVisionTransformer.add_norm_before_transformer self
  then map (map layer_norm) x else x.

Definition visual_embed (self : PerceiverVisionTransformer.t)
    (training : bool) (rnd : randomness) (_x : input)
    (max_image_len : pyval) (mask_it : bool) : result embed_out :=
  let frames := match _x with Image x => x | Video v => concat v end in
  st <- embed_frames self rnd frames max_image_len mask_it ;;
  ' (x, x_mask) <-
    match _x with
    | Video v =>
        let b := length v in
        let T := length (hd [] v) in
        let video_mask := map (map frame_is_zero) v in
        let x_mask := chunks T b (st_mask st) in
        let x_mask := map (map (fun r => 1%Z :: r)) x_mask in
        let x_mask :=
          map (fun cm =>
                 map (fun rm => if (snd rm : bool)
                                then map (fun _ => 0%Z) (fst rm) else fst rm)
                     (combine (fst cm) (snd cm)))
              (combine x_mask video_mask) in
        let x_mask := map (@concat Z) x_mask in
        let x := map (@concat T1) (chunks T b (st_x st)) in
        te <- PerceiverVisionTransformer.getattr self "temporal_embed" ;;
        mf <- match PerceiverVisionTransformer.max_frames self with
              | Some m => Ok m
              | None => Err (AttributeError "max_frames")
              end ;;
        te <- slice_to mf (hd [] te) ;;
        r <- floordiv (Z.of_nat (length (hd [] x))) (Z.of_nat T) ;;
        x <- add_broadcast x (repeat_interleave (Z.to_nat r) te) ;;
        Ok (x, x_mask)
    | Image _ =>
        Ok (st_x st, map (fun r => 1%Z :: r) (st_mask st))
    end ;;
  let x := finish self training rnd (st_pos st) x in
  Ok {| out_x := x; out_mask := x_mask; out_patch_index := st_index st;
        out_grid := st_grid st; out_label := st_label st |}.

End VisualEmbed.

(* ------------------------------------------------------------------ *)
(** ** [Attention.forward]: the attention weights

    The scalars are real numbers; [NegInf] is the value [masked_fill]
    writes and [NaN] is what the softmax of a row without any finite
    entry produces. *)

Inductive fval : Type :=
| Fin (r : R)
| NegInf
| NaN.

Definition is_nan (v : fval) : bool :=
  match v with NaN => true | _ => false end.

Definition is_neginf (v : fval) : bool :=
  match v with NegInf => true | _ => false end.

Definition Rsum (l : list R) : R := fold_right Rplus 0%R l.

Definition dot (a b : list R) : R :=
  Rsum (map (fun p => (fst p * snd p)%R) (combine a b)).

(** The weights of an [nn.Linear]: [weight : [out][in]] and the bias. *)
Record LinearW : Type := {
  lw_weight : list (list R);
  lw_bias : option (list R)
}.

Definition linear (l : LinearW) (x : list R) : list R :=
  imap (fun o wrow =>
          (dot x wrow
           + match lw_bias l with Some b => nth o b 0%R | None => 0%R end)%R)
       (lw_weight l).

(** [e^v] on the extended values of a row that has no [NaN]. *)
Definition fexp (m : R) (v : fval) : R :=
  match v with
  | Fin r => exp (r - m)
  | _ => 0%R
  end.

Definition fmax (row : list fval) : R :=
  fold_right (fun v acc => match v with Fin r => Rmax r acc | _ => acc end)
             (match find (fun v => negb (is_nan v || is_neginf v)) row with
              | Some (Fin r) => r
              | _ => 0%R
              end)
             row.

(** [row.softmax(dim=-1)]: exponentials of the entries minus their maximum,
    divided by their sum. *)
Definition softmax_row (row : list fval) : list fval :=
  if existsb is_nan row || forallb is_neginf row then map (fun _ => NaN) row
  else
    let m := fmax row in
    let s := Rsum (map (fexp m) row) in
    map (fun v => Fin (fexp m v / s)) row.

Definition scale_value (s : scale_t) : R :=
  match s with
  | ScaleGiven q => Q2R q
  | ScaleInvSqrt head_dim => (/ sqrt (IZR head_dim))%R
  end.

(** Element [s] (0 for the queries, 1 for the keys) and head [h] of a row
    of [self.qkv(x).reshape(B, N, 3, num_heads, C // num_heads)]. *)
Definition head_slice (s h heads hd : nat) (row : list R) : list R :=
  firstn hd (skipn ((s * heads + h) * hd) row).

Definition mask_fill (mask : option (list (list Z))) (b j : nat) (v : fval)
  : fval :=
  match mask with
  | None => v
  | Some m => if (nth j (nth b m []) 0 =? 0)%Z then NegInf else v
  end.

Definition drop_fval (keep : bool) (p : R) (v : fval) : fval :=
  match v with
  | Fin r => Fin (if keep then r / (1 - p) else 0)
  | NegInf => if keep then NegInf else NaN
  | NaN => NaN
  end.

(** The second component of the pair [Attention.forward] returns, as a
    tensor [[B][num_heads][N][N]]. *)
Definition Attention_forward (self : Attention.t) (qkv_w : LinearW)
    (training : bool) (rnd : randomness) (pos : nat)
    (x : list (list (list R))) (mask : option (list (list Z)))
  : result (list (list (list (list fval)))) :=
  let N := length (hd [] x) in
  let C := length (hd [] (hd [] x)) in
  hd <- floordiv (Z.of_nat C) (Attention.num_heads self) ;;
  let heads := Z.to_nat (Attention.num_heads self) in
  let hd := Z.to_nat hd in
  _ <- guard ((0 <=? Attention.num_heads self)%Z
              && (length (lw_weight qkv_w) =? 3 * heads * hd)%nat)
             (RuntimeError "reshape: shape is invalid for input size") ;;
  let scale := scale_value (Attention.scale self) in
  let p := Attention.attn_drop self in
  let dropping := training && negb (Qeq_bool p 0) in
  Ok (imap (fun b xb =>
        let qkv := map (linear qkv_w) xb in
        tabulate heads (fun h =>
          let q := map (head_slice 0 h heads hd) qkv in
          let k := map (head_slice 1 h heads hd) qkv in
          imap (fun i qi =>
                  let attn :=
                    imap (fun j kj => mask_fill mask b j
                                        (Fin (dot qi kj * scale)%R)) k in
                  let attn := softmax_row attn in
                  if dropping then
                    imap (fun j v =>
                            drop_fval
                              (coin rnd (pos + ((b * heads + h) * N + i) * N + j))
                              (Q2R p) v) attn
                  else attn)
               q))
      x).

(* ------------------------------------------------------------------ *)
(** ** [resize_pos_embed] and [checkpoint_filter_fn] *)

(** A checkpoint tensor of rank one to four. *)
Inductive tensor : Type :=
| Tn1 (t : T1)
| Tn2 (t : T2)
| Tn3 (t : T3)
| Tn4 (t : T4).

Definition shape_of (t : tensor) : list nat :=
  match t with
  | Tn1 t => [length t]
  | Tn2 t => let '(a, b) := shape2 t in [a; b]
  | Tn3 t => let '(a, b, c) := shape3 t in [a; b; c]
  | Tn4 t => let '(a, b, c, d) := shape4 t in [a; b; c; d]
  end.

Definition flat (t : tensor) : list Q :=
  match t with
  | Tn1 t => t
  | Tn2 t => concat t
  | Tn3 t => concat (concat t)
  | Tn4 t => concat (concat (concat t))
  end.

(** [v.reshape(a, b, -1)]: the last dimension is inferred. *)
Definition reshape_infer_last (a b : nat) (data : list Q) : result T3 :=
  let k := (a * b)%nat in
  if (k =? 0)%nat then
    Err (RuntimeError "cannot reshape: the inferred dimension is ambiguous or the shape is invalid")
  else if (length data mod k =? 0)%nat then
    Ok (chunks b a (chunks (length data / k) k data))
  else Err (RuntimeError "shape is invalid for input size").

(** [t.permute(0, 3, 1, 2)] and [t.permute(0, 2, 3, 1)] under the leading
    singleton dimension. *)
Definition channels_first (g : T3) : T3 :=
  tabulate (length (hd [] (hd [] g)))
           (fun c => map (map (fun v => nth c v 0)) g).

Definition channels_last (n m : nat) (chans : T3) : T3 :=
  tabulate n (fun i => tabulate m (fun j => map (fun ch => at2 ch i j) chans)).

(** [int(math.sqrt(n))]. *)
Definition isqrt (n : nat) : nat := Nat.sqrt n.

Definition resize_pos_embed (posemb posemb_new : T3) : result T3 :=
  let ntok_new := length (hd [] posemb_new) in
  _ <- guard (0 <? length posemb)%nat
             (IndexError "index 0 is out of bounds for dimension 0 with size 0") ;;
  let posemb_tok := map (firstn 1) posemb in
  let posemb_grid := tl (nth 0 posemb []) in
  let gs_old := isqrt (length posemb_grid) in
  _ <- guard (0 <? ntok_new)%nat (ValueError "math domain error") ;;
  let ntok_new := (ntok_new - 1)%nat in
  let gs_new := isqrt ntok_new in
  posemb_grid <- reshape_infer_last gs_old gs_old (concat posemb_grid) ;;
  let posemb_grid := channels_first posemb_grid in
  _ <- interpolate_size_check gs_old gs_old gs_new gs_new ;;
  _ <- guard (0 <? length posemb_grid)%nat
             (RuntimeError "Non-empty 4D data tensor expected") ;;
  let posemb_grid :=
    map (fun g => bilinear2d false g gs_old gs_old gs_new gs_new) posemb_grid in
  let posemb_grid := concat (channels_last gs_new gs_new posemb_grid) in
  _ <- guard ((length posemb =? 1)%nat
              && (length (hd [] (hd [] posemb)) =? length (hd [] posemb_grid))%nat)
             (RuntimeError "Sizes of tensors must match except in dimension 1") ;;
  Ok [hd [] posemb_tok ++ posemb_grid].

(** The same call on a tensor of rank 2 or 4 with [len0] leading entries:
    the indexing and the square roots go as for rank 3, and whatever the
    reshapes in between do, the final [torch.cat] of a class-token part
    and a grid part of different ranks raises. On rank 1 the first
    indexing, [posemb[:, :1]], raises. *)
Definition resize_other_rank (len0 : nat) (posemb_new : T3) : result T3 :=
  _ <- guard (0 <? len0)%nat
             (IndexError "index 0 is out of bounds for dimension 0 with size 0") ;;
  _ <- guard (0 <? length (hd [] posemb_new))%nat
             (ValueError "math domain error") ;;
  Err (RuntimeError "Tensors must have same number of dimensions").

(** A checkpoint: tensors by name, possibly wrapped under the key
    ["model"]. *)
Inductive sdval : Type :=
| SDTensor (t : tensor)
| SDDict (d : list (string * tensor)).

Definition contains (needle hay : string) : bool :=
  match String.index 0 needle hay with Some _ => true | None => false end.

(** [v.reshape(O, -1, H, W)]. *)
Definition reshape_conv (Oc H W : nat) (data : list Q) : result T4 :=
  let k := (Oc * H * W)%nat in
  if (k =? 0)%nat then
    Err (RuntimeError "cannot reshape: the inferred dimension is ambiguous or the shape is invalid")
  else if (length data mod k =? 0)%nat then
    let X := (length data / k)%nat in
    Ok (chunks X Oc (chunks H (Oc * X) (chunks W (Oc * X * H) data)))
  else Err (RuntimeError "shape is invalid for input size").

Definition shape_eqb (a b : list nat) : bool :=
  if list_eq_dec Nat.eq_dec a b then true else false.

Definition filter_entry (model : PerceiverVisionTransformer.t) (k : string)
    (v : tensor) : result tensor :=
  if contains "patch_embed.proj.weight" k && (length (shape_of v) <? 4)%nat then
    let '(Oc, _, H, W) :=
      shape4 (weight (PatchEmbed.proj
                        (PerceiverVisionTransformer.patch_embed model))) in
    v' <- reshape_conv Oc H W (flat v) ;;
    Ok (Tn4 v')
  else if String.eqb k "pos_embed" then
    pos_embed <- PerceiverVisionTransformer.getattr model "pos_embed" ;;
    if negb (shape_eqb (shape_of v) (shape_of (Tn3 pos_embed))) then
      match v with
      | Tn3 posemb => v' <- resize_pos_embed posemb pos_embed ;; Ok (Tn3 v')
      | Tn1 _ => Err (IndexError "too many indices for tensor of dimension 1")
      | Tn2 t => v' <- resize_other_rank (length t) pos_embed ;; Ok (Tn3 v')
      | Tn4 t => v' <- resize_other_rank (length t) pos_embed ;; Ok (Tn3 v')
      end
    else Ok v
  else Ok v.

Definition checkpoint_filter_fn (state_dict : list (string * sdval))
    (model : PerceiverVisionTransformer.t) : result (list (string * sdval)) :=
  let has_model := existsb (fun kv => String.eqb (fst kv) "model") state_dict in
  state_dict <-
    (if has_model then
       match find (fun kv => String.eqb (fst kv) "model") state_dict with
       | Some (_, SDDict d) => Ok (map (fun kv => (fst kv, SDTensor (snd kv))) d)
       | _ => Err (AttributeError "items")
       end
     else Ok state_dict) ;;
  mapM (fun kv =>
          match snd kv with
          | SDTensor v => v' <- filter_entry model (fst kv) v ;;
                          Ok (fst kv, SDTensor v')
          | SDDict d =>
              if contains "patch_embed.proj.weight" (fst kv)
                 || String.eqb (fst kv) "pos_embed"
              then Err (AttributeError "shape")
              else Ok (fst kv, SDDict d)
          end)
       state_dict.

(* ------------------------------------------------------------------ *)
(** ** The model registry *)

(** [v != z] for an integer [z]. *)
Definition py_ne (v : pyval) (z : Z) : bool :=
  match v with
  | VInt z' => negb (z' =? z)%Z
  | VBool b => negb ((if b then 1 else 0) =? z)%Z
  | VFloat q => negb (Qeq_bool q (inject_Z z))
  | _ => true
  end.

Definition is_none (v : pyval) : bool :=
  match v with VNone => true | _ => false end.

Definition set_default_cfg (m : PerceiverVisionTransformer.t) (c : cfg)
  : PerceiverVisionTransformer.t :=
  {| PerceiverVisionTransformer.num_classes := PerceiverVisionTransformer.num_classes m;
     PerceiverVisionTransformer.num_features := PerceiverVisionTransformer.num_features m;
     PerceiverVisionTransformer.embed_dim := PerceiverVisionTransformer.embed_dim m;
     PerceiverVisionTransformer.add_norm_before_transformer :=
       PerceiverVisionTransformer.add_norm_before_transformer m;
     PerceiverVisionTransformer.patch_embed := PerceiverVisionTransformer.patch_embed m;
     PerceiverVisionTransformer.patch_size := PerceiverVisionTransformer.patch_size m;
     PerceiverVisionTransformer.patch_dim := PerceiverVisionTransformer.patch_dim m;
     PerceiverVisionTransformer.total_output_patch :=
       PerceiverVisionTransformer.total_output_patch m;
     PerceiverVisionTransformer.pos_drop := PerceiverVisionTransformer.pos_drop m;
     PerceiverVisionTransformer.use_video := PerceiverVisionTransformer.use_video m;
     PerceiverVisionTransformer.max_frames := PerceiverVisionTransformer.max_frames m;
     PerceiverVisionTransformer.pre_norm := PerceiverVisionTransformer.pre_norm m;
     PerceiverVisionTransformer.blocks := PerceiverVisionTransformer.blocks m;
     PerceiverVisionTransformer.norm := PerceiverVisionTransformer.norm m;
     PerceiverVisionTransformer.parameters := PerceiverVisionTransformer.parameters m;
     PerceiverVisionTransformer.default_cfg := Some c |}.

Definition model_class : Type :=
  initializer -> kwargs -> result PerceiverVisionTransformer.t.

Definition state_dict_filter : Type :=
  list (string * sdval) -> result (list (string * sdval)).

Section Registry.

(** What the module refers to without defining or importing it: the
    table [default_cfgs] and the class
    [DistilledPerceiverVisionTransformer] ([None] when the name is
    unbound), and the helper [load_pretrained] of the model zoo. *)
Variable default_cfgs : string -> option cfg.
Variable DistilledPerceiverVisionTransformer : option model_class.
Variable load_pretrained :
  PerceiverVisionTransformer.t -> pyval -> pyval -> state_dict_filter ->
  result PerceiverVisionTransformer.t.

(** The values of the freshly initialised parameters. *)
Variable w : initializer.

(** The keyword dictionary the factory hands to the model class, and
    the number of classes it later hands to [load_pretrained]. *)
Definition constructor_keywords (c : cfg) (kw : kwargs)
  : result (kwargs * pyval * kwargs) :=
  let default_num_classes := cfg_num_classes c in
  let default_img_size := snd (cfg_input_size c) in
  let '(num_classes, kw) := pop "num_classes" (VInt default_num_classes) kw in
  let '(img_size, kw) := pop "img_size" (VInt default_img_size) kw in
  let '(repr_size, kw) := pop "representation_size" VNone kw in
  let repr_size :=
    if negb (is_none repr_size) && py_ne num_classes default_num_classes
    then VNone else repr_size in
  ckw <- merge_keywords [ ("img_size", img_size); ("num_classes", num_classes);
                          ("representation_size", repr_size) ]%string kw ;;
  Ok (ckw, num_classes, kw).

Definition _create_vision_transformer (variant : string)
    (pretrained distilled : pyval) (kw : kwargs)
  : result PerceiverVisionTransformer.t :=
  default_cfg <- match default_cfgs variant with
                 | Some c => Ok c
                 | None => Err (KeyError variant)
                 end ;;
  ' (ckw, num_classes, kw) <- constructor_keywords default_cfg kw ;;
  model_cls <- (if truthy distilled then
                  match DistilledPerceiverVisionTransformer with
                  | Some cls => Ok cls
                  | None => Err (NameError "DistilledPerceiverVisionTransformer")
                  end
                else Ok PerceiverVisionTransformer.init) ;;
  model <- model_cls w ckw ;;
  let model := set_default_cfg model default_cfg in
  if truthy pretrained then
    load_pretrained model num_classes (get "in_chans" (VInt 3) kw)
      (fun sd => checkpoint_filter_fn sd model)
  else Ok model.

(** The call of [_create_vision_transformer] with a variant and keywords:
    the keywords are bound to the parameters [pretrained] and
    [distilled], the others are collected. *)
Definition call_create (variant : string) (explicit model_kwargs : kwargs)
  : result PerceiverVisionTransformer.t :=
  kw <- merge_keywords explicit model_kwargs ;;
  _ <- guard (negb (has_key "variant" kw))
             (TypeError "got multiple values for argument variant") ;;
  let '(pretrained, kw) := pop "pretrained" (VBool false) kw in
  let '(distilled, kw) := pop "distilled" (VBool false) kw in
  _create_vision_transformer variant pretrained distilled kw.

(** The common shape of the registered functions: [base] holds the
    keywords written in [dict(...)], [distilled] tells whether the call
    passes [distilled=True]. *)
Definition factory (variant : string) (base : kwargs) (distilled : bool)
    (pretrained : pyval) (kw : kwargs)
  : result PerceiverVisionTransformer.t :=
  model_kwargs <- merge_keywords base kw ;;
  call_create variant
    (("pretrained"%string, pretrained)
       :: (if distilled then [("distilled"%string, VBool true)] else []))
    model_kwargs.

(** The first registered function also sets a default [qk_scale] when
    pretrained weights are asked for; [768 ** -0.5] is given by a
    rational approximation. *)
Definition vit_small_patch16_224 (pretrained : pyval) (kw : kwargs)
  : result PerceiverVisionTransformer.t :=
  model_kwargs <- merge_keywords
    [ ("patch_size", VInt 16); ("embed_dim", VInt 768); ("depth", VInt 8);
      ("num_heads", VInt 8); ("mlp_ratio", VFloat 3);
      ("qkv_bias", VBool false); ("norm_layer", VObj "nn.LayerNorm") ]%string
    kw ;;
  let model_kwargs :=
    if truthy pretrained
    then setdefault "qk_scale" (VFloat (36084392 # 1000000000)) model_kwargs
    else model_kwargs in
  call_create "vit_small_patch16_224" [("pretrained"%string, pretrained)]
              model_kwargs.

Definition vit_base_patch16_224 : pyval -> kwargs -> result PerceiverVisionTransformer.t :=
  factory "vit_base_patch16_224"
    [ ("patch_size", VInt 16);
      ("embed_dim", VInt 768);
      ("depth", VInt 12);
      ("num_heads", VInt 12) ]%string
    false.

Definition vit_base_patch32_224 : pyval -> kwargs -> result PerceiverVisionTransformer.t :=
  factory "vit_base_patch32_224"
    [ ("patch_size", VInt 32);
      ("embed_dim", VInt 768);
      ("depth", VInt 12);
      ("num_heads", VInt 12) ]%string
    false.

Definition vit_base_patch16_384 : pyval -> kwargs -> result PerceiverVisionTransformer.t :=
  factory "vit_base_patch16_384"
    [ ("patch_size", VInt 16);
      ("embed_dim", VInt 768);
      ("depth", VInt 12);
      ("num_heads", VInt 12) ]%string
    false.

Definition vit_base_patch32_384 : pyval -> kwargs -> result PerceiverVisionTransformer.t :=
  factory "vit_base_patch32_384"
    [ ("patch_size", VInt 32);
      ("embed_dim", VInt 768);
      ("depth", VInt 12);
      ("num_heads", VInt 12) ]%string
    false.

Definition vit_large_patch16_224 : pyval -> kwargs -> result PerceiverVisionTransformer.t :=
  factory "vit_large_patch16_224"
    [ ("patch_size", VInt 16);
      ("embed_dim", VInt 1024);
      ("depth", VInt 24);
      ("num_heads", VInt 16) ]%string
    false.

Definition vit_large_patch32_224 : pyval -> kwargs -> result PerceiverVisionTransformer.t :=
  factory "vit_large_patch32_224"
    [ ("patch_size", VInt 32);
      ("embed_dim", VInt 1024);
      ("depth", VInt 24);
      ("num_heads", VInt 16) ]%string
    false.

Definition vit_large_patch16_384 : pyval -> kwargs -> result PerceiverVisionTransformer.t :=
  factory "vit_large_patch16_384"
    [ ("patch_size", VInt 16);
      ("embed_dim", VInt 1024);
      ("depth", VInt 24);
      ("num_heads", VInt 16) ]%string
    false.

Definition vit_large_patch32_384 : pyval -> kwargs -> result PerceiverVisionTransformer.t :=
  factory "vit_large_patch32_384"
    [ ("patch_size", VInt 32);
      ("embed_dim", VInt 1024);
      ("depth", VInt 24);
      ("num_heads", VInt 16) ]%string
    false.

Definition vit_base_patch16_224_in21k : pyval -> kwargs -> result PerceiverVisionTransformer.t :=
  factory "vit_base_patch16_224_in21k"
    [ ("patch_size", VInt 16);
      ("embed_dim", VInt 768);
      ("depth", VInt 12);
      ("num_heads", VInt 12);
      ("representation_size", VInt 768) ]%string
    false.

Definition vit_base_patch32_224_in21k : pyval -> kwargs -> result PerceiverVisionTransformer.t :=
  factory "vit_base_patch32_224_in21k"
    [ ("patch_size", VInt 32);
      ("embed_dim", VInt 768);
      ("depth", VInt 12);
      ("num_heads", VInt 12);
      ("representation_size", VInt 768) ]%string
    false.

Definition vit_large_patch16_224_in21k : pyval -> kwargs -> result PerceiverVisionTransformer.t :=
  factory "vit_large_patch16_224_in21k"
    [ ("patch_size", VInt 16);
      ("embed_dim", VInt 1024);
      ("depth", VInt 24);
      ("num_heads", VInt 16);
      ("representation_size", VInt 1024) ]%string
    false.

Definition vit_large_patch32_224_in21k : pyval -> kwargs -> result PerceiverVisionTransformer.t :=
  factory "vit_large_patch32_224_in21k"
    [ ("patch_size", VInt 32);
      ("embed_dim", VInt 1024);
      ("depth", VInt 24);
      ("num_heads", VInt 16);
      ("representation_size", VInt 1024) ]%string
    false.

Definition vit_huge_patch14_224_in21k : pyval -> kwargs -> result PerceiverVisionTransformer.t :=
  factory "vit_huge_patch14_224_in21k"
    [ ("patch_size", VInt 14);
      ("embed_dim", VInt 1280);
      ("depth", VInt 32);
      ("num_heads", VInt 16);
      ("representation_size", VInt 1280) ]%string
    false.

Definition vit_base_resnet50_224_in21k : pyval -> kwargs -> result PerceiverVisionTransformer.t :=
  factory "vit_base_resnet50_224_in21k"
    [ ("embed_dim", VInt 768);
      ("depth", VInt 12);
      ("num_heads", VInt 12);
      ("hybrid_backbone", VObj "ResNetV2");
      ("representation_size", VInt 768) ]%string
    false.

Definition vit_base_resnet50_384 : pyval -> kwargs -> result PerceiverVisionTransformer.t :=
  factory "vit_base_resnet50_384"
    [ ("embed_dim", VInt 768);
      ("depth", VInt 12);
      ("num_heads", VInt 12);
      ("hybrid_backbone", VObj "ResNetV2") ]%string
    false.

Definition vit_small_resnet26d_224 : pyval -> kwargs -> result PerceiverVisionTransformer.t :=
  factory "vit_small_resnet26d_224"
    [ ("embed_dim", VInt 768);
      ("depth", VInt 8);
      ("num_heads", VInt 8);
      ("mlp_ratio", VInt 3);
      ("hybrid_backbone", VObj "resnet26d") ]%string
    false.

Definition vit_small_resnet50d_s3_224 : pyval -> kwargs -> result PerceiverVisionTransformer.t :=
  factory "vit_small_resnet50d_s3_224"
    [ ("embed_dim", VInt 768);
      ("depth", VInt 8);
      ("num_heads", VInt 8);
      ("mlp_ratio", VInt 3);
      ("hybrid_backbone", VObj "resnet50d") ]%string
    false.

Definition vit_base_resnet26d_224 : pyval -> kwargs -> result PerceiverVisionTransformer.t :=
  factory "vit_base_resnet26d_224"
    [ ("embed_dim", VInt 768);
      ("depth", VInt 12);
      ("num_heads", VInt 12);
      ("hybrid_backbone", VObj "resnet26d") ]%string
    false.

Definition vit_base_resnet50d_224 : pyval -> kwargs -> result PerceiverVisionTransformer.t :=
  factory "vit_base_resnet50d_224"
    [ ("embed_dim", VInt 768);
      ("depth", VInt 12);
      ("num_heads", VInt 12);
      ("hybrid_backbone", VObj "resnet50d") ]%string
    false.

Definition vit_deit_tiny_patch16_224 : pyval -> kwargs -> result PerceiverVisionTransformer.t :=
  factory "vit_deit_tiny_patch16_224"
    [ ("patch_size", VInt 16);
      ("embed_dim", VInt 192);
      ("depth", VInt 12);
      ("num_heads", VInt 3) ]%string
    false.

Definition vit_deit_small_patch16_224 : pyval -> kwargs -> result PerceiverVisionTransformer.t :=
  factory "vit_deit_small_patch16_224"
    [ ("patch_size", VInt 16);
      ("embed_dim", VInt 384);
      ("depth", VInt 12);
      ("num_heads", VInt 6) ]%string
    false.

Definition vit_deit_base_patch16_224 : pyval -> kwargs -> result PerceiverVisionTransformer.t :=
  factory "vit_deit_base_patch16_224"
    [ ("patch_size", VInt 16);
      ("embed_dim", VInt 768);
      ("depth", VInt 12);
      ("num_heads", VInt 12) ]%string
    false.

Definition vit_deit_base_patch16_384 : pyval -> kwargs -> result PerceiverVisionTransformer.t :=
  factory "vit_deit_base_patch16_384"
    [ ("patch_size", VInt 16);
      ("embed_dim", VInt 768);
      ("depth", VInt 12);
      ("num_heads", VInt 12) ]%string
    false.

Definition vit_deit_tiny_distilled_patch16_224 : pyval -> kwargs -> result PerceiverVisionTransformer.t :=
  factory "vit_deit_tiny_distilled_patch16_224"
    [ ("patch_size", VInt 16);
      ("embed_dim", VInt 192);
      ("depth", VInt 12);
      ("num_heads", VInt 3) ]%string
    true.

Definition vit_deit_small_distilled_patch16_224 : pyval -> kwargs -> result PerceiverVisionTransformer.t :=
  factory "vit_deit_small_distilled_patch16_224"
    [ ("patch_size", VInt 16);
      ("embed_dim", VInt 384);
      ("depth", VInt 12);
      ("num_heads", VInt 6) ]%string
    true.

Definition vit_deit_base_distilled_patch16_224 : pyval -> kwargs -> result PerceiverVisionTransformer.t :=
  factory "vit_deit_base_distilled_patch16_224"
    [ ("patch_size", VInt 16);
      ("embed_dim", VInt 768);
      ("depth", VInt 12);
      ("num_heads", VInt 12) ]%string
    true.

Definition vit_deit_base_distilled_patch16_384 : pyval -> kwargs -> result PerceiverVisionTransformer.t :=
  factory "vit_deit_base_distilled_patch16_384"
    [ ("patch_size", VInt 16);
      ("embed_dim", VInt 768);
      ("depth", VInt 12);
      ("num_heads", VInt 12) ]%string
    true.

(** The functions decorated with [@register_model], by name. *)
Definition registry
  : list (string * (pyval -> kwargs -> result PerceiverVisionTransformer.t)) :=
  [ ("vit_small_patch16_224", vit_small_patch16_224);
    ("vit_base_patch16_224", vit_base_patch16_224);
    ("vit_base_patch32_224", vit_base_patch32_224);
    ("vit_base_patch16_384", vit_base_patch16_384);
    ("vit_base_patch32_384", vit_base_patch32_384);
    ("vit_large_patch16_224", vit_large_patch16_224);
    ("vit_large_patch32_224", vit_large_patch32_224);
    ("vit_large_patch16_384", vit_large_patch16_384);
    ("vit_large_patch32_384", vit_large_patch32_384);
    ("vit_base_patch16_224_in21k", vit_base_patch16_224_in21k);
    ("vit_base_patch32_224_in21k", vit_base_patch32_224_in21k);
    ("vit_large_patch16_224_in21k", vit_large_patch16_224_in21k);
    ("vit_large_patch32_224_in21k", vit_large_patch32_224_in21k);
    ("vit_huge_patch14_224_in21k", vit_huge_patch14_224_in21k);
    ("vit_base_resnet50_224_in21k", vit_base_resnet50_224_in21k);
    ("vit_base_resnet50_384", vit_base_resnet50_384);
    ("vit_small_resnet26d_224", vit_small_resnet26d_224);
    ("vit_small_resnet50d_s3_224", vit_small_resnet50d_s3_224);
    ("vit_base_resnet26d_224", vit_base_resnet26d_224);
    ("vit_base_resnet50d_224", vit_base_resnet50d_224);
    ("vit_deit_tiny_patch16_224", vit_deit_tiny_patch16_224);
    ("vit_deit_small_patch16_224", vit_deit_small_patch16_224);
    ("vit_deit_base_patch16_224", vit_deit_base_patch16_224);
    ("vit_deit_base_patch16_384", vit_deit_base_patch16_384);
    ("vit_deit_tiny_distilled_patch16_224", vit_deit_tiny_distilled_patch16_224);
    ("vit_deit_small_distilled_patch16_224", vit_deit_small_distilled_patch16_224);
    ("vit_deit_base_distilled_patch16_224", vit_deit_base_distilled_patch16_224);
    ("vit_deit_base_distilled_patch16_384", vit_deit_base_distilled_patch16_384) ]%string.

(** A call [f(pretrained=..., k1=v1, ...)] of a registered function: the
    keyword [pretrained] is bound to the parameter of that name, the
    other keywords are collected. *)
Definition call_registered
    (f : pyval -> kwargs -> result PerceiverVisionTransformer.t)
    (keywords : kwargs) : result PerceiverVisionTransformer.t :=
  let '(pretrained, kw) := pop "pretrained" (VBool false) keywords in
  f pretrained kw.

End Registry.

(* ------------------------------------------------------------------ *)
(** ** Specification-side definitions

    The definitions of this section follow the wording of the
    specification; the theorems compare them with the embedding of the
    source above. *)

(** An integer keyword of the constructor call, with its default. *)
Definition kw_int (name : string) (dflt : Z) (kw : kwargs) : result Z :=
  as_int name (get name (VInt dflt) kw).

(** What a successful construction fixes: the integer arguments it was
    called with and the attributes it has set. *)
Record constructed (w : initializer) (kw : kwargs)
    (m : PerceiverVisionTransformer.t) (D ic img ps depth nh : Z) : Prop := {
  c_embed_dim : kw_int "embed_dim" 768 kw = Ok D;
  c_in_chans : kw_int "in_chans" 3 kw = Ok ic;
  c_img_size : kw_int "img_size" 224 kw = Ok img;
  c_patch_size : kw_int "patch_size" 16 kw = Ok ps;
  c_depth : kw_int "depth" 12 kw = Ok depth;
  c_num_heads : kw_int "num_heads" 12 kw = Ok nh;
  c_ps_nonzero : ps <> 0%Z;
  c_nonneg : (0 <= D /\ 0 <= ic /\ 0 <= ps /\ 0 <= depth)%Z;
  c_patches_nonneg : (0 <= img / ps * (img / ps) + 1)%Z;
  c_patch_embed :
    PerceiverVisionTransformer.patch_embed m =
    {| PatchEmbed.img_size := (img, img);
       PatchEmbed.patch_size := (ps, ps);
       PatchEmbed.num_patches := (img / ps * (img / ps))%Z;
       PatchEmbed.proj :=
         {| in_channels := ic; out_channels := D;
            kernel_size := (ps, ps); stride := (ps, ps);
            padding := (0, 0)%Z;
            weight := mk4 (w "patch_embed.proj.weight"%string)
                          (Z.to_nat D) (Z.to_nat ic) (Z.to_nat ps) (Z.to_nat ps);
            bias := Some (mk1 (w "patch_embed.proj.bias"%string) (Z.to_nat D)) |} |};
  c_embed_dim_attr : PerceiverVisionTransformer.embed_dim m = D;
  c_patch_size_attr : PerceiverVisionTransformer.patch_size m = ps;
  c_patch_dim : PerceiverVisionTransformer.patch_dim m = (img / ps)%Z;
  c_use_video :
    PerceiverVisionTransformer.use_video m
    = truthy (get "use_video" (VBool false) kw);
  c_max_frames :
    PerceiverVisionTransformer.max_frames m
    = if truthy (get "use_video" (VBool false) kw)
      then Some (get "max_frames" (VInt 8) kw) else None;
  c_parameters :
    PerceiverVisionTransformer.parameters m =
    [ ("cls_token"%string, mk3 (w "cls_token"%string) 1 1 (Z.to_nat D));
      ("pos_embed"%string,
       mk3 (w "pos_embed"%string) 1
           (Z.to_nat (img / ps * (img / ps) + 1)) (Z.to_nat D)) ]
    ++ (if truthy (get "use_video" (VBool false) kw)
        then [ ("temporal_embed"%string,
                mk3 (w "temporal_embed"%string) 1 64 (Z.to_nat D)) ]
        else []);
  c_blocks : length (PerceiverVisionTransformer.blocks m) = Z.to_nat depth;
  c_heads :
    Forall (fun b => Attention.num_heads (Block.attn b) = nh)
           (PerceiverVisionTransformer.blocks m);
  c_not_pretrained : truthy (get "pretrained" (VBool false) kw) = false
}.

Arguments c_patch_embed {w kw m D ic img ps depth nh} _.
Arguments c_embed_dim_attr {w kw m D ic img ps depth nh} _.
Arguments c_patch_size_attr {w kw m D ic img ps depth nh} _.
Arguments c_patch_dim {w kw m D ic img ps depth nh} _.
Arguments c_use_video {w kw m D ic img ps depth nh} _.
Arguments c_max_frames {w kw m D ic img ps depth nh} _.
Arguments c_parameters {w kw m D ic img ps depth nh} _.
Arguments c_nonneg {w kw m D ic img ps depth nh} _.
Arguments c_ps_nonzero {w kw m D ic img ps depth nh} _.
Arguments c_blocks {w kw m D ic img ps depth nh} _.
Arguments c_heads {w kw m D ic img ps depth nh} _.




(** The learned spatial position grid of channel [c]: rows 1, 2, ... of
    the position table, laid out row by row on a [pd] by [pd] grid. *)
Definition position_grid (table : T2) (pd c : nat) : T2 :=
  tabulate pd (fun i =>
    tabulate pd (fun j => nth c (nth (1 + i * pd + j) table []) 0)).



(** A batch [x] of [B] images with [C] channels and [Hi] by [Wi] pixels
    fits the model: the channels are those of the patch projection, one
    patch at least fits in the image, and the model has a position grid
    and a positive embedding dimension. *)
Record fits (self : PerceiverVisionTransformer.t) (x : T4)
    (B C Hi Wi : nat) : Prop := {
  fits_rect : rect4 B C Hi Wi x;
  fits_batch : (0 < B)%nat;
  fits_channels :
    (0 < C)%nat
    /\ Z.of_nat C
       = in_channels (PatchEmbed.proj
                        (PerceiverVisionTransformer.patch_embed self));
  fits_patch :
    (0 < PerceiverVisionTransformer.patch_size self
     /\ PerceiverVisionTransformer.patch_size self <= Z.of_nat Hi
     /\ PerceiverVisionTransformer.patch_size self <= Z.of_nat Wi)%Z;
  fits_grid : (0 < PerceiverVisionTransformer.patch_dim self)%Z;
  fits_embed : (0 < PerceiverVisionTransformer.embed_dim self)%Z
}.




(** A small model and a small batch, used to run the embedding. *)
Definition tiny_init : initializer := fun _ i => inject_Z (Z.of_nat i) + 1.

Definition tiny_kwargs : kwargs :=
  [ ("img_size", VInt 4); ("patch_size", VInt 2); ("embed_dim", VInt 2);
    ("depth", VInt 1); ("num_heads", VInt 1) ]%string.

Definition tiny_image : T4 := mk4 (fun i => inject_Z (Z.of_nat i)) 2 3 4 4.

Definition tiny_rnd : randomness :=
  {| choice := fun n => (n * 7 + 3)%nat; coin := Nat.even |}.






(** A single-head attention layer on two tokens of dimension two, the
    second key masked out. *)
Definition tiny_attention : Attention.t :=
  {| Attention.num_heads := 1;
     Attention.scale := ScaleGiven 1;
     Attention.qkv := {| in_features := 2; out_features := 6;
                         linear_bias := false |};
     Attention.attn_drop := 0;
     Attention.proj := {| in_features := 2; out_features := 2;
                          linear_bias := true |};
     Attention.proj_drop := 0 |}.

Definition tiny_qkv : LinearW :=
  {| lw_weight := [ [1; 0]; [0; 1]; [1; 1]; [0; 1]; [1; 0]; [1; 1] ]%R;
     lw_bias := None |}.

Definition tiny_tokens : list (list (list R)) := [ [ [1; 0]; [0; 1] ] ]%R.

Definition tiny_mask : list (list Z) := [ [1; 0] ]%Z.

(** The resized position table: the class row, then the rows of the
    [gs_new] by [gs_new] grid that bilinear interpolation (corners not
    aligned) gives of the old [gs_old] by [gs_old] grid, channel by
    channel. *)
Definition resized_table (table : T2) (D gs_old gs_new : nat) : T2 :=
  firstn 1 table
  ++ tabulate (gs_new * gs_new) (fun q =>
       tabulate D (fun c =>
         at2 (bilinear2d false (position_grid table gs_old c)
                         gs_old gs_old gs_new gs_new)
             (q / gs_new) (q mod gs_new))).

(** The two rewrites of the checkpoint filter. *)
Definition is_patch_weight (k : string) (v : tensor) : bool :=
  contains "patch_embed.proj.weight" k && (length (shape_of v) <? 4)%nat.

Definition is_resized (pos_embed : T3) (k : string) (v : tensor) : bool :=
  String.eqb k "pos_embed"
  && negb (shape_eqb (shape_of v) (shape_of (Tn3 pos_embed))).

(** What the rewrites need in order to succeed: an old projection weight
    has [Oc * X * H * W] entries for some [X]; a position table of another
    shape is one table whose grid part is a square of side [g]. *)
Definition entry_ready (pos_embed : T3) (Oc H W : nat) (k : string)
    (v : tensor) : Prop :=
  (is_patch_weight k v = true ->
   exists X, (0 < Oc /\ 0 < X /\ 0 < H /\ 0 < W)%nat
             /\ length (flat v) = (Oc * X * H * W)%nat)
  /\ (is_resized pos_embed k v = true ->
      exists table g D,
        v = Tn3 [table] /\ rect2 (g * g + 1) D table
        /\ (0 < g /\ 0 < D)%nat
        /\ (0 < isqrt (length (hd [] pos_embed) - 1))%nat).

(** What the filter returns for one entry: an old projection weight keeps
    its values in order and takes the shape [[Oc; X; H; W]], which is the
    shape of the model's weight when the entry has as many values; a
    position table of another shape is resized; any other entry is
    returned as it is. *)
Definition entry_spec (pos_embed : T3) (Oc H W : nat) (k : string)
    (v v' : tensor) : Prop :=
  (is_patch_weight k v = true ->
   flat v' = flat v
   /\ exists X, shape_of v' = [Oc; X; H; W]
                /\ length (flat v) = (Oc * X * H * W)%nat)
  /\ (is_resized pos_embed k v = true ->
      exists table D,
        let gs_old := isqrt (length table - 1) in
        let gs_new := isqrt (length (hd [] pos_embed) - 1) in
        v = Tn3 [table]
        /\ v' = Tn3 [resized_table table D gs_old gs_new]
        /\ shape_of v' = [1; gs_new * gs_new + 1; D]%nat
        /\ hd [] (resized_table table D gs_old gs_new) = hd [] table)
  /\ (is_patch_weight k v = false -> is_resized pos_embed k v = false ->
      v' = v).

(** A small checkpoint for the small model: a position table for a one by
    one grid, a projection weight stored as a matrix, and one more
    entry. *)
Definition tiny_checkpoint : list (string * sdval) :=
  [ ("pos_embed"%string, SDTensor (Tn3 [ [ [1; 2]; [3; 4] ] ]));
    ("patch_embed.proj.weight"%string,
     SDTensor (Tn2 (mk2 (fun i => inject_Z (Z.of_nat i)) 2 12)));
    ("head.bias"%string, SDTensor (Tn1 [1; 2])) ].

(** Auxiliary notions used in the proofs. *)

Definition ones_grid (H W : nat) : list (list Z) :=
  tabulate H (fun _ => tabulate W (fun _ => 1%Z)).



(** The six ResNet-hybrid functions and the four distilled functions of
    the registry. *)
Definition hybrid_factories cfgs D lp (w : initializer)
  : list (pyval -> kwargs -> result PerceiverVisionTransformer.t) :=
  [ vit_base_resnet50_224_in21k cfgs D lp w;
    vit_base_resnet50_384 cfgs D lp w;
    vit_small_resnet26d_224 cfgs D lp w;
    vit_small_resnet50d_s3_224 cfgs D lp w;
    vit_base_resnet26d_224 cfgs D lp w;
    vit_base_resnet50d_224 cfgs D lp w ].

Definition distilled_factories cfgs D lp (w : initializer)
  : list (pyval -> kwargs -> result PerceiverVisionTransformer.t) :=
  [ vit_deit_tiny_distilled_patch16_224 cfgs D lp w;
    vit_deit_small_distilled_patch16_224 cfgs D lp w;
    vit_deit_base_distilled_patch16_224 cfgs D lp w;
    vit_deit_base_distilled_patch16_384 cfgs D lp w ].

(* ------------------------------------------------------------------ *)
(** ** Further notions used to state properties of the code *)

(** The stochastic depth rate of block [i] of [depth] blocks:
    [torch.linspace(0, drop_path_rate, depth)[i]]. *)
Definition dpr_rule (drop_path_rate : Q) (depth : Z) (i : nat) : Q :=
  if (depth =? 1)%Z then 0
  else drop_path_rate * inject_Z (Z.of_nat i) / inject_Z (depth - 1).

(** A numeric keyword of the constructor call, with its default. *)
Definition kw_num (name : string) (dflt : pyval) (kw : kwargs) : result Q :=
  as_num name (get name dflt kw).

(** The registered function of a given name. *)
Definition registered {F : Type} (name : string) (reg : list (string * F))
  : option F :=
  match find (fun e => String.eqb name (fst e)) reg with
  | Some e => Some (snd e)
  | None => None
  end.

(** The registered functions that neither pass a hybrid backbone nor ask
    for the distilled class, with the patch size, embedding dimension,
    depth and number of heads written in their bodies. *)
Definition plain_models : list (string * (Z * Z * Z * Z)) :=
  [ ("vit_small_patch16_224", (16, 768, 8, 8));
    ("vit_base_patch16_224", (16, 768, 12, 12));
    ("vit_base_patch32_224", (32, 768, 12, 12));
    ("vit_base_patch16_384", (16, 768, 12, 12));
    ("vit_base_patch32_384", (32, 768, 12, 12));
    ("vit_large_patch16_224", (16, 1024, 24, 16));
    ("vit_large_patch32_224", (32, 1024, 24, 16));
    ("vit_large_patch16_384", (16, 1024, 24, 16));
    ("vit_large_patch32_384", (32, 1024, 24, 16));
    ("vit_base_patch16_224_in21k", (16, 768, 12, 12));
    ("vit_base_patch32_224_in21k", (32, 768, 12, 12));
    ("vit_large_patch16_224_in21k", (16, 1024, 24, 16));
    ("vit_large_patch32_224_in21k", (32, 1024, 24, 16));
    ("vit_huge_patch14_224_in21k", (14, 1280, 32, 16));
    ("vit_deit_tiny_patch16_224", (16, 192, 12, 3));
    ("vit_deit_small_patch16_224", (16, 384, 12, 6));
    ("vit_deit_base_patch16_224", (16, 768, 12, 12));
    ("vit_deit_base_patch16_384", (16, 768, 12, 12)) ]%string%Z.

(** What a registered function is expected to return for the entry [c]
    of the configuration table. *)
Definition built_as (c : cfg) (ps D depth nh : Z)
    (m : PerceiverVisionTransformer.t) : Prop :=
  PerceiverVisionTransformer.patch_size m = ps
  /\ PerceiverVisionTransformer.embed_dim m = D
  /\ Z.of_nat (length (PerceiverVisionTransformer.blocks m)) = depth
  /\ Forall (fun b => Attention.num_heads (Block.attn b) = nh)
            (PerceiverVisionTransformer.blocks m)
  /\ PerceiverVisionTransformer.patch_dim m = (snd (cfg_input_size c) / ps)%Z
  /\ PerceiverVisionTransformer.num_classes m = VInt (cfg_num_classes c)
  /\ PerceiverVisionTransformer.default_cfg m = Some c.

(** An entry of the configuration table, for running the registry. *)
Definition tiny_cfg : cfg :=
  {| cfg_url := EmptyString; cfg_num_classes := 10;
     cfg_input_size := (3, 32, 32)%Z |}.


(** The real number an attention weight stands for (0 when it is not a
    number), for summing a row of weights. *)
Definition fval_real (v : fval) : R :=
  match v with Fin r => r | _ => 0%R end.

(** The tokens [x] are a rectangular tensor [[B][N][C]] and [qkv_w] holds
    the weights of the layer [self.qkv] for tokens of [C] entries: what
    [self.qkv(x)] needs to multiply them. *)
Definition qkv_fits (self : Attention.t) (qkv_w : LinearW)
    (x : list (list (list R))) : Prop :=
  let C := length (hd [] (hd [] x)) in
  Forall (fun xb => length xb = length (hd [] x)
                    /\ Forall (fun tok => length tok = C) xb) x
  /\ Z.of_nat C = in_features (Attention.qkv self)
  /\ Z.of_nat (length (lw_weight qkv_w)) = out_features (Attention.qkv self)
  /\ Forall (fun wrow => length wrow = C) (lw_weight qkv_w)
  /\ match lw_bias qkv_w with
     | Some b => length b = length (lw_weight qkv_w)
     | None => True
     end.

(* ------------------------------------------------------------------ *)
(** ** [class UnNormalize] and [inception_unnormalize]

    [__call__] walks [zip(tensor, self.mean, self.std)], that is the
    leading dimension of the tensor together with the two lists, and
    stops with the shortest of the three; every sub-tensor it reaches is
    multiplied by its [s] and shifted by its [m] in place, and the tensor
    is returned. *)

Record UnNormalize : Type := {
  un_mean : list Q;
  un_std : list Q
}.

Fixpoint UnNormalize_zip (tensor : T3) (mean std : list Q) : T3 :=
  match tensor, mean, std with
  | t :: ts, m :: ms, s :: ss =>
      map (map (fun v => v * s + m)) t :: UnNormalize_zip ts ms ss
  | _, _, _ => tensor
  end.

Definition UnNormalize_call (self : UnNormalize) (tensor : T3) : T3 :=
  UnNormalize_zip tensor (un_mean self) (un_std self).

(** [transforms.Compose([UnNormalize(mean=[0.5, 0.5, 0.5],
    std=[0.5, 0.5, 0.5])])]: the transforms of the list, applied in
    order. *)
Definition Compose (transforms : list (T3 -> T3)) (tensor : T3) : T3 :=
  fold_left (fun t f => f t) transforms tensor.

Definition inception_unnormalize : T3 -> T3 :=
  Compose [ UnNormalize_call
              {| un_mean := [1 # 2; 1 # 2; 1 # 2];
                 un_std := [1 # 2; 1 # 2; 1 # 2] |} ].

(* ------------------------------------------------------------------ *)
(** ** The forward pass: [Mlp.forward], [Attention.forward],
    [Block.forward] and [PerceiverVisionTransformer.forward]

    A scalar of the token tensors is a real number or NaN ([None]); the
    arithmetic propagates NaN. A batch of tokens is a tensor
    [[B][N][C]]. The learned weights of the layers are passed beside the
    modules that own them. *)

Abbreviation num := (option R).
Abbreviation tokens := (list (list (list (option R)))).

Definition nadd (a b : num) : num :=
  match a, b with
  | Some x, Some y => Some (x + y)%R
  | _, _ => None
  end.

Definition nmul (a b : num) : num :=
  match a, b with
  | Some x, Some y => Some (x * y)%R
  | _, _ => None
  end.

Definition nsum (l : list num) : num := fold_right nadd (Some 0%R) l.

Definition ndot (a b : list num) : num :=
  nsum (map (fun p => nmul (fst p) (snd p)) (combine a b)).

(** The size of the last dimension of a batch of tokens. *)
Definition width {A : Type} (x : list (list (list A))) : nat :=
  length (hd [] (hd [] x)).

(** [F.linear] refuses tokens whose width is not [in_features]. *)
Definition linear_check (l : Linear) (C : nat) : result unit :=
  guard (Z.of_nat C =? in_features l)%Z
        (RuntimeError "mat1 and mat2 shapes cannot be multiplied").

(** [nn.Linear] on one token: [x @ weight.T + bias]. *)
Definition nlinear (l : LinearW) (x : list num) : list num :=
  imap (fun o wrow =>
          nadd (ndot x (map Some wrow))
               (Some (match lw_bias l with
                      | Some b => nth o b 0%R
                      | None => 0%R
                      end)))
       (lw_weight l).

(** [nn.Dropout] on a batch of tokens: the identity in evaluation mode
    and at rate zero; otherwise every entry is kept and divided by
    [1 - p], or multiplied by zero. *)
Definition ndrop (keep : bool) (p : R) (v : num) : num :=
  match v with
  | Some r => Some (if keep then r / (1 - p) else 0)%R
  | None => None
  end.

Definition ndropout (training : bool) (p : Q) (rnd : randomness) (pos : nat)
    (x : tokens) : tokens :=
  if training && negb (Qeq_bool p 0) then
    let n := length (hd [] x) in
    let D := width x in
    imap (fun b ex =>
      imap (fun t tok =>
        imap (fun c v => ndrop (coin rnd (pos + (b * n + t) * D + c)) (Q2R p) v)
             tok) ex) x
  else x.

(** [x + y] on two batches of the same [B] and [N]: the last dimension is
    broadcast when it is 1 on one side, and the sizes must match
    otherwise. *)
Definition add_row (a b : list num) : list num :=
  if (length a =? length b)%nat
  then map (fun p => nadd (fst p) (snd p)) (combine a b)
  else if (length a =? 1)%nat then map (nadd (hd None a)) b
  else map (fun v => nadd v (hd None b)) a.

Definition add_tokens (x y : tokens) : result tokens :=
  let C := width x in
  let C' := width y in
  _ <- guard ((C =? C') || (C =? 1) || (C' =? 1))%nat
             (RuntimeError
                "The size of tensor a must match the size of tensor b") ;;
  Ok (map (fun ex => map (fun tk => add_row (fst tk) (snd tk))
                         (combine (fst ex) (snd ex)))
          (combine x y)).

(** *** [nn.LayerNorm]

    Over the last dimension: the entries minus their mean, divided by
    the square root of their (biased) variance plus [eps], times the
    learned [weight] plus the learned [bias]. A NaN among the entries
    makes the mean, and with it every entry of the result, NaN. *)

Record LayerNormW : Type := {
  ln_weight : list R;
  ln_bias : list R
}.

Definition mean (x : list R) : R := (Rsum x / INR (length x))%R.

Definition layer_norm_row (eps : R) (W : LayerNormW) (x : list R) : list R :=
  let mu := mean x in
  let var := mean (map (fun v => ((v - mu) * (v - mu))%R) x) in
  imap (fun i v => ((v - mu) / sqrt (var + eps) * nth i (ln_weight W) 0
                    + nth i (ln_bias W) 0)%R)
       x.

Fixpoint reals (x : list num) : option (list R) :=
  match x with
  | [] => Some []
  | Some r :: t => match reals t with
                   | Some rs => Some (r :: rs)
                   | None => None
                   end
  | None :: _ => None
  end.

Definition layer_norm (eps : R) (W : LayerNormW) (x : list num) : list num :=
  match reals x with
  | Some r => map Some (layer_norm_row eps W r)
  | None => map (fun _ => None) x
  end.

(** *** timm's [DropPath]

    [drop_path(x, drop_prob, training)]: the identity when [drop_prob]
    is zero or in evaluation mode; otherwise, with
    [keep_prob = 1 - drop_prob], every example is divided by [keep_prob]
    and multiplied by [floor(keep_prob + torch.rand(1))]. The draw of
    [torch.rand], a number of [[0, 1)], is the fractional part of the
    oracle's value. When [keep_prob] is zero the quotient is infinite or
    NaN and its product with the zero of the floor is NaN. *)

Definition frac (q : Q) : Q := q - inject_Z (Qfloor q).

Definition drop_path (drop_prob : Q) (training : bool) (u : nat -> Q)
    (pos : nat) (x : tokens) : tokens :=
  if Qeq_bool drop_prob 0 || negb training then x
  else
    let keep_prob := 1 - drop_prob in
    imap (fun b ex =>
            let random_tensor := Qfloor (keep_prob + frac (u (pos + b)%nat)) in
            map (map (fun v : num =>
                        if Qeq_bool keep_prob 0 then None
                        else match v with
                             | Some r => Some (r / Q2R keep_prob
                                               * IZR random_tensor)%R
                             | None => None
                             end))
                ex)
         x.

(** *** The weights of the modules *)

Record AttentionW : Type := {
  w_qkv : LinearW;
  w_proj : LinearW
}.

Record MlpW : Type := {
  w_fc1 : LinearW;
  w_fc2 : LinearW
}.

Record BlockW : Type := {
  w_norm1 : LayerNormW;
  w_attn : AttentionW;
  w_norm2 : LayerNormW;
  w_mlp : MlpW
}.

Record ModelW : Type := {
  w_blocks : list BlockW;
  w_norm : LayerNormW
}.

(** Element [s] (0 for the queries, 1 for the keys, 2 for the values) and
    head [h] of a row of
    [self.qkv(x).reshape(B, N, 3, num_heads, C // num_heads)]. *)
Definition slice_head {A : Type} (s h heads hd : nat) (row : list A)
  : list A :=
  firstn hd (skipn ((s * heads + h) * hd) row).

(** A logit [(q @ k.T) * scale] as an extended value. *)
Definition logit_of (scale : R) (v : num) : fval :=
  match v with
  | Some r => Fin (r * scale)
  | None => NaN
  end.

(** An attention weight as a scalar of the tokens: the softmax and the
    dropout after it return a real number or NaN, never an infinity. *)
Definition weight_num (v : fval) : num :=
  match v with
  | Fin r => Some r
  | _ => None
  end.

Section Forward.

(** [nn.GELU], a function of the reals applied entry by entry, and the
  forward pass of a [norm_layer] class other than [nn.LayerNorm], given
  by the caller of the constructor. *)
Variable gelu : R -> R.
Variable custom_norm :
string -> LayerNorm -> LayerNormW -> tokens -> result tokens.

(** [self.norm(x)] for a layer built by [norm_layer(dim)]:
  [partial(nn.LayerNorm, eps=1e-6)] unless the constructor got a class,
  and [eps=1e-5] for [nn.LayerNorm] itself. *)
Definition LayerNorm_forward (self : LayerNorm) (W : LayerNormW) (x : tokens)
: result tokens :=
let standard (eps : R) :=
  _ <- guard (Z.of_nat (width x) =? normalized_shape self)%Z
             (RuntimeError
                "Given normalized_shape, expected input with that shape") ;;
  Ok (map (map (layer_norm eps W)) x) in
match norm_class self with
| VObj cls =>
    if String.eqb cls "partial(nn.LayerNorm, eps=1e-6)"
    then standard (1 / 1000000)%R
    else if String.eqb cls "nn.LayerNorm" then standard (1 / 100000)%R
    else custom_norm cls self W x
| _ => Err (TypeError "object is not callable")
end.

(** [Mlp.forward]: [fc1], the activation, dropout, [fc2], dropout. *)
Definition Mlp_forward (self : Mlp.t) (W : MlpW) (training : bool)
  (rnd : randomness) (pos : nat) (x : tokens) : result tokens :=
let B := length x in
let N := length (hd [] x) in
_ <- linear_check (Mlp.fc1 self) (width x) ;;
let x := map (map (nlinear (w_fc1 W))) x in
let x := map (map (map (option_map gelu))) x in
let x := ndropout training (Mlp.drop self) rnd pos x in
let pos := (pos + B * N * width x)%nat in
_ <- linear_check (Mlp.fc2 self) (width x) ;;
let x := map (map (nlinear (w_fc2 W))) x in
Ok (ndropout training (Mlp.drop self) rnd pos x).

(** The number of dropout draws of [Mlp.forward] on [B * N] tokens. *)
Definition Mlp_draws (W : MlpW) (B N : nat) : nat :=
(B * N * length (lw_weight (w_fc1 W))
 + B * N * length (lw_weight (w_fc2 W)))%nat.

(** [attn = (q @ k.transpose(-2, -1)) * self.scale], [masked_fill],
  [softmax] and [self.attn_drop] for query [i] of head [h] of example
  [b]: a row of weights, one per key. *)
Definition attention_row (scale : R) (dropping : bool) (rnd : randomness)
  (p : Q) (pos heads N : nat) (mask : option (list (list Z)))
  (b h i : nat) (qi : list num) (k : list (list num)) : list fval :=
let attn :=
  imap (fun j kj => mask_fill mask b j (logit_of scale (ndot qi kj))) k in
let attn := softmax_row attn in
if dropping then
  imap (fun j v =>
          drop_fval (coin rnd (pos + ((b * heads + h) * N + i) * N + j))
                    (Q2R p) v) attn
else attn.

Definition attention_weights (scale : R) (dropping : bool) (rnd : randomness)
  (p : Q) (pos heads hd N : nat) (mask : option (list (list Z)))
  (qkv : tokens) : list (list (list (list fval))) :=
imap (fun b qb =>
    tabulate heads (fun h =>
      let q := map (slice_head 0 h heads hd) qb in
      let k := map (slice_head 1 h heads hd) qb in
      imap (fun i qi =>
              attention_row scale dropping rnd p pos heads N mask b h i qi k)
           q))
  qkv.

(** [(attn @ v).transpose(1, 2).reshape(B, N, C)]: token [i] is made of
  the [num_heads] weighted sums of the values, head after head. *)
Definition attention_context (heads hd N : nat)
  (attn : list (list (list (list fval)))) (qkv : tokens) : tokens :=
imap (fun b qb =>
    tabulate N (fun i =>
      concat (tabulate heads (fun h =>
        let v := map (slice_head 2 h heads hd) qb in
        let row := nth i (nth h (nth b attn []) []) [] in
        tabulate hd (fun d =>
          nsum (imap (fun j a => nmul (weight_num a)
                                      (nth d (nth j v []) None))
                     row))))))
  qkv.

(** [Attention.forward], with both components of the pair it returns:
  the new tokens and the attention weights [[B][num_heads][N][N]]. *)
Definition Attention_forward_full (self : Attention.t) (W : AttentionW)
  (training : bool) (rnd : randomness) (pos : nat)
  (x : tokens) (mask : option (list (list Z)))
: result (tokens * list (list (list (list fval)))) :=
let B := length x in
let N := length (hd [] x) in
let C := width x in
_ <- linear_check (Attention.qkv self) C ;;
let qkv := map (map (nlinear (w_qkv W))) x in
hd <- floordiv (Z.of_nat C) (Attention.num_heads self) ;;
let heads := Z.to_nat (Attention.num_heads self) in
let hd := Z.to_nat hd in
_ <- guard ((0 <=? Attention.num_heads self)%Z
            && (length (lw_weight (w_qkv W)) =? 3 * heads * hd)%nat)
           (RuntimeError "reshape: shape is invalid for input size") ;;
let scale := scale_value (Attention.scale self) in
let p := Attention.attn_drop self in
let dropping := training && negb (Qeq_bool p 0) in
let attn :=
  attention_weights scale dropping rnd p pos heads hd N mask qkv in
let pos := (pos + B * heads * N * N)%nat in
_ <- guard (heads * hd =? C)%nat
           (RuntimeError "reshape: shape is invalid for input size") ;;
let x := attention_context heads hd N attn qkv in
_ <- linear_check (Attention.proj self) C ;;
let x := map (map (nlinear (w_proj W))) x in
Ok (ndropout training (Attention.proj_drop self) rnd pos x, attn).

(** The number of dropout draws of [Attention.forward]. *)
Definition Attention_draws (self : Attention.t) (W : AttentionW) (B N : nat)
: nat :=
(B * Z.to_nat (Attention.num_heads self) * N * N
 + B * N * length (lw_weight (w_proj W)))%nat.

(** [self.drop_path] of a block: [DropPath(drop_path)] when the rate is
  positive, [nn.Identity()] otherwise. *)
Definition Block_drop_path (self : Block.t) (training : bool) (u : nat -> Q)
  (pos : nat) (x : tokens) : tokens :=
if Qle_bool (Block.drop_path self) 0 then x
else drop_path (Block.drop_path self) training u pos x.

(** [Block.forward]; the position counter of the random draws is
  returned with the pair. *)
Definition Block_forward (self : Block.t) (W : BlockW) (training : bool)
  (rnd : randomness) (u : nat -> Q) (pos : nat)
  (x : tokens) (mask : option (list (list Z)))
: result (tokens * list (list (list (list fval))) * nat) :=
let B := length x in
let N := length (hd [] x) in
xn <- LayerNorm_forward (Block.norm1 self) (w_norm1 W) x ;;
' (_x, attn) <- Attention_forward_full (Block.attn self) (w_attn W)
                  training rnd pos xn mask ;;
let pos := (pos + Attention_draws (Block.attn self) (w_attn W) B N)%nat in
x <- add_tokens x (Block_drop_path self training u pos _x) ;;
let pos := (pos + B)%nat in
xn <- LayerNorm_forward (Block.norm2 self) (w_norm2 W) x ;;
m <- Mlp_forward (Block.mlp self) (w_mlp W) training rnd pos xn ;;
let pos := (pos + Mlp_draws (w_mlp W) B N)%nat in
x <- add_tokens x (Block_drop_path self training u pos m) ;;
Ok (x, attn, (pos + B)%nat).

(** [for blk in self.blocks: x, _ = blk(x, mask=x_mask)]. *)
Fixpoint run_blocks (blocks : list (Block.t * BlockW)) (training : bool)
  (rnd : randomness) (u : nat -> Q) (pos : nat)
  (x : tokens) (x_mask : option (list (list Z))) : result (tokens * nat) :=
match blocks with
| [] => Ok (x, pos)
| (blk, W) :: rest =>
    ' (x, _, pos) <- Block_forward blk W training rnd u pos x x_mask ;;
    run_blocks rest training rnd u pos x x_mask
end.

(** [PerceiverVisionTransformer.forward]. *)
Definition forward (self : PerceiverVisionTransformer.t) (W : ModelW)
  (training : bool) (rnd : randomness) (u : nat -> Q) (pos : nat)
  (x : tokens) (x_mask : option (list (list Z))) : result tokens :=
' (x, _) <- run_blocks (combine (PerceiverVisionTransformer.blocks self)
                                (w_blocks W))
              training rnd u pos x x_mask ;;
LayerNorm_forward (PerceiverVisionTransformer.norm self) (w_norm W) x.

End Forward.

(* ------------------------------------------------------------------ *)
(** ** Notions used to state properties of the forward pass *)

(** The weights [W] have the shape of the layer [l]. *)
Definition linear_fits (l : Linear) (W : LinearW) : Prop :=
  Z.of_nat (length (lw_weight W)) = out_features l
  /\ Forall (fun wrow => Z.of_nat (length wrow) = in_features l) (lw_weight W)
  /\ match lw_bias W with
     | Some b => length b = length (lw_weight W)
     | None => True
     end.

(** A normalisation layer over [D] entries built from [nn.LayerNorm],
    with its weights. *)
Definition norm_fits (D : Z) (n : LayerNorm) (W : LayerNormW) : Prop :=
  normalized_shape n = D
  /\ (norm_class n = VObj "partial(nn.LayerNorm, eps=1e-6)"
      \/ norm_class n = VObj "nn.LayerNorm")
  /\ Z.of_nat (length (ln_weight W)) = D
  /\ Z.of_nat (length (ln_bias W)) = D.

(** A block of dimension [D] as [Block(dim=D, ...)] builds it, with
    weights of the shapes of its layers, a number of heads that divides
    [D] and a drop-path rate other than 1. *)
Definition block_fits (D : Z) (blk : Block.t) (W : BlockW) : Prop :=
  let a := Block.attn blk in
  let m := Block.mlp blk in
  norm_fits D (Block.norm1 blk) (w_norm1 W)
  /\ norm_fits D (Block.norm2 blk) (w_norm2 W)
  /\ in_features (Attention.qkv a) = D
  /\ out_features (Attention.qkv a) = (D * 3)%Z
  /\ linear_fits (Attention.qkv a) (w_qkv (w_attn W))
  /\ in_features (Attention.proj a) = D
  /\ out_features (Attention.proj a) = D
  /\ linear_fits (Attention.proj a) (w_proj (w_attn W))
  /\ (0 < Attention.num_heads a)%Z
  /\ (D mod Attention.num_heads a = 0)%Z
  /\ in_features (Mlp.fc1 m) = D
  /\ linear_fits (Mlp.fc1 m) (w_fc1 (w_mlp W))
  /\ in_features (Mlp.fc2 m) = out_features (Mlp.fc1 m)
  /\ out_features (Mlp.fc2 m) = D
  /\ linear_fits (Mlp.fc2 m) (w_fc2 (w_mlp W))
  /\ ~ Block.drop_path blk == 1.

Definition model_fits (self : PerceiverVisionTransformer.t) (W : ModelW)
  : Prop :=
  let D := PerceiverVisionTransformer.embed_dim self in
  (0 < D)%Z
  /\ Forall2 (block_fits D) (PerceiverVisionTransformer.blocks self)
             (w_blocks W)
  /\ norm_fits D (PerceiverVisionTransformer.norm self) (w_norm W).

(** Every scalar of the batch is a number. *)
Definition finite (x : tokens) : Prop :=
  Forall (Forall (Forall (fun v : num => v <> None))) x.

(** Key [j] of example [b] is not masked. *)
Definition unmasked (m : list (list Z)) (b j : nat) : Prop :=
  nth j (nth b m []) 0%Z <> 0%Z.

(* ------------------------------------------------------------------ *)
(** ** Auxiliary notions used in the proofs about the forward pass *)

(** A token of [C] numbers. *)
Definition tok_ok (C : nat) (t : list num) : Prop :=
  length t = C /\ Forall (fun v : num => v <> None) t.

(** A batch [[B][N][C]] of numbers. *)
Definition batch_ok (B N C : nat) (x : tokens) : Prop :=
  length x = B
  /\ Forall (fun ex => length ex = N /\ Forall (tok_ok C) ex) x.

(** Two batches have the same tokens at the unmasked positions. *)
Definition agree (B N : nat) (m : list (list Z)) (x x' : tokens) : Prop :=
  forall b j, (b < B)%nat -> (j < N)%nat -> unmasked m b j ->
              nth j (nth b x []) [] = nth j (nth b x' []) [].

Definition paired (B N C : nat) (m : list (list Z)) (x x' : tokens) : Prop :=
  batch_ok B N C x /\ batch_ok B N C x' /\ agree B N m x x'.

(** A function of the tokens, applied token by token with the position
    of the token. *)
Definition tw {A B : Type} (F : nat -> nat -> A -> B) (x : list (list A))
  : list (list B) :=
  imap (fun b ex => imap (fun t tok => F b t tok) ex) x.

(** Weights for the small model, and two batches of one example that
    differ in their second token only. *)
Definition tiny_linear (o i : nat) (bias : bool) : LinearW :=
  {| lw_weight := tabulate o (fun r => tabulate i (fun c => INR (r + c)));
     lw_bias := if bias then Some (tabulate o INR) else None |}.

Definition tiny_norm : LayerNormW :=
  {| ln_weight := [1; 1]%R; ln_bias := [0; 0]%R |}.

Definition tiny_weights : ModelW :=
  {| w_blocks :=
       [ {| w_norm1 := tiny_norm;
            w_attn := {| w_qkv := tiny_linear 6 2 true;
                         w_proj := tiny_linear 2 2 true |};
            w_norm2 := tiny_norm;
            w_mlp := {| w_fc1 := tiny_linear 8 2 true;
                        w_fc2 := tiny_linear 2 8 true |} |} ];
     w_norm := tiny_norm |}.

Definition tiny_batch (a b : R) : tokens :=
  [ [ [Some 1; Some 0]; [Some a; Some b] ] ]%R.

(* ================================================================== *)
(** * Proofs *)

(** ** The error monad *)

Lemma bind_ok {A B : Type} (r : result A) (f : A -> result B) (b : B) :
  bind r f = Ok b -> exists a, r = Ok a /\ f a = Ok b.
Proof. destruct r as [a|e]; simpl; intros H; [eauto | discriminate]. Qed.

Lemma guard_ok (b : bool) (e : error) (u : unit) : guard b e = Ok u -> b = true.
Proof. destruct b; simpl; [reflexivity | discriminate]. Qed.

Lemma guard_true (e : error) : guard true e = Ok tt.
Proof. reflexivity. Qed.

Lemma mapM_length {A B : Type} (f : A -> result B) (l : list A) (bs : list B) :
  mapM f l = Ok bs -> length bs = length l.
Proof.
  revert bs; induction l as [|a l IH]; simpl; intros bs H.
  - inversion H; reflexivity.
  - apply bind_ok in H as (b & _ & H).
    apply bind_ok in H as (bs' & Hbs & H).
    inversion H; subst; simpl; f_equal; auto.
Qed.

Lemma mapM_Forall2 {A B : Type} (f : A -> result B) (l : list A) (bs : list B) :
  mapM f l = Ok bs -> Forall2 (fun a b => f a = Ok b) l bs.
Proof.
  revert bs; induction l as [|a l IH]; simpl; intros bs H.
  - inversion H; constructor.
  - apply bind_ok in H as (b & Hb & H).
    apply bind_ok in H as (bs' & Hbs & H).
    inversion H; subst; constructor; auto.
Qed.

Lemma mapM_ok {A B : Type} (f : A -> result B) (g : A -> B) (l : list A) :
  (forall a, In a l -> f a = Ok (g a)) -> mapM f l = Ok (map g l).
Proof.
  induction l as [|a l IH]; simpl; intros H; [reflexivity|].
  rewrite (H a) by auto; simpl.
  rewrite IH by auto; reflexivity.
Qed.

(** Peels the successful binds off a hypothesis [bind ... = Ok _]. *)
Ltac inv_bind H :=
  repeat match type of H with
  | bind _ _ = Ok _ =>
      let a := fresh "a" in
      let Ha := fresh "Ha" in
      apply bind_ok in H as (a & Ha & H)
  end.

(** ** Keyword dictionaries *)

Lemma lookup_app_other (k k' : string) (v : pyval) (d : kwargs) :
  String.eqb k k' = false -> lookup k (d ++ [(k', v)]) = lookup k d.
Proof.
  intros Hk; induction d as [|[k0 v0] d IH]; simpl.
  - rewrite Hk; reflexivity.
  - destruct (String.eqb k k0); auto.
Qed.

Lemma get_app_other (k k' : string) (dflt v : pyval) (d : kwargs) :
  String.eqb k k' = false -> get k dflt (d ++ [(k', v)]) = get k dflt d.
Proof. intros Hk; unfold get; rewrite lookup_app_other; auto. Qed.

Lemma lookup_app_new (k : string) (v : pyval) (d : kwargs) :
  has_key k d = false -> lookup k (d ++ [(k, v)]) = Some v.
Proof.
  unfold has_key; induction d as [|[k0 v0] d IH]; simpl; intros H.
  - rewrite String.eqb_refl; reflexivity.
  - destruct (String.eqb k k0); [discriminate | auto].
Qed.

Lemma find_app_none {A : Type} (f : A -> bool) (l : list A) (x : A) :
  find f l = None -> f x = false -> find f (l ++ [x]) = None.
Proof.
  induction l as [|a l IH]; simpl; intros H Hx.
  - rewrite Hx; reflexivity.
  - destruct (f a); [discriminate | auto].
Qed.

Lemma lookup_remove_key_same (k : string) (d : kwargs) :
  lookup k (remove_key k d) = None.
Proof.
  induction d as [|[k0 v0] d IH]; simpl; [reflexivity|].
  destruct (String.eqb k k0) eqn:E; simpl; [assumption|].
  rewrite E; assumption.
Qed.

Lemma lookup_remove_key_other (k k' : string) (d : kwargs) :
  String.eqb k k' = false -> lookup k (remove_key k' d) = lookup k d.
Proof.
  intros Hk; induction d as [|[k0 v0] d IH]; simpl; [reflexivity|].
  destruct (String.eqb k' k0) eqn:E; simpl.
  - apply String.eqb_eq in E; subst k0. rewrite Hk; assumption.
  - destruct (String.eqb k k0); auto.
Qed.

Lemma has_key_pop_same (k : string) (dflt : pyval) (d : kwargs) :
  has_key k (snd (pop k dflt d)) = false.
Proof.
  unfold pop, has_key.
  destruct (lookup k d) eqn:E; simpl.
  - rewrite lookup_remove_key_same; reflexivity.
  - rewrite E; reflexivity.
Qed.

Lemma has_key_pop_other (k k' : string) (dflt : pyval) (d : kwargs) :
  has_key k d = false -> has_key k (snd (pop k' dflt d)) = false.
Proof.
  unfold pop, has_key; intros H.
  destruct (lookup k' d) eqn:E; simpl; [|assumption].
  destruct (String.eqb k k') eqn:Ek.
  - apply String.eqb_eq in Ek; subst. rewrite lookup_remove_key_same; reflexivity.
  - rewrite lookup_remove_key_other by assumption. assumption.
Qed.

Lemma lookup_app (k : string) (d1 d2 : kwargs) :
  lookup k (d1 ++ d2) = match lookup k d1 with Some v => Some v | None => lookup k d2 end.
Proof.
  induction d1 as [|[k0 v0] d1 IH]; simpl; [reflexivity|].
  destruct (String.eqb k k0); auto.
Qed.

Lemma merge_keywords_ok (explicit kw d : kwargs) :
  merge_keywords explicit kw = Ok d -> d = explicit ++ kw.
Proof.
  unfold merge_keywords.
  destruct (find _ kw) as [[k v]|]; intros H; inversion H; reflexivity.
Qed.

(** ** The constructor *)

Lemma to_2tuple_as_int (name : string) (v : pyval) (z : Z) :
  as_int name v = Ok z -> to_2tuple v = Ok (z, z).
Proof.
  destruct v; simpl; intros H; inversion H; subst; try reflexivity.
Qed.

Lemma alloc_ok (dims : list Z) (u : unit) :
  alloc dims = Ok u -> Forall (fun d => (0 <= d)%Z) dims.
Proof.
  unfold alloc; intros H; apply guard_ok in H.
  rewrite forallb_forall in H. apply Forall_forall; intros d Hd.
  apply Z.leb_le; auto.
Qed.

Lemma floordiv_ok (a b q : Z) :
  floordiv a b = Ok q -> b <> 0%Z /\ q = (a / b)%Z.
Proof.
  unfold floordiv; destruct (b =? 0)%Z eqn:E; intros H; inversion H.
  split; [apply Z.eqb_neq; assumption | reflexivity].
Qed.

Lemma Block_init_heads dim nh mr qb qs d ad dp nl b :
  Block.init dim nh mr qb qs d ad dp nl = Ok b ->
  Attention.num_heads (Block.attn b) = nh.
Proof.
  unfold Block.init; intros H; inv_bind H.
  inversion H; subst; simpl.
  unfold Attention.init in Ha0; inv_bind Ha0.
  inversion Ha0; reflexivity.
Qed.

(** The constructor on the keywords of the call, once they are known to
    be parameters of [__init__]. *)
Lemma init_unfold (w : initializer) (kw : kwargs) :
  find (fun kv => negb (has_key (fst kv) PerceiverVisionTransformer.signature)) kw
  = None ->
  PerceiverVisionTransformer.init w kw =
  PerceiverVisionTransformer.init_body w
    (map (fun p => (fst p, get (fst p) (snd p) kw))
         PerceiverVisionTransformer.signature).
Proof.
  intros Hf. unfold PerceiverVisionTransformer.init, bind_signature.
  rewrite Hf; reflexivity.
Qed.

Lemma init_inv (w : initializer) (kw : kwargs) (m : PerceiverVisionTransformer.t) :
  PerceiverVisionTransformer.init w kw = Ok m ->
  exists D ic img ps depth nh, constructed w kw m D ic img ps depth nh.
Proof.
  intros H.
  unfold PerceiverVisionTransformer.init, bind_signature in H.
  destruct (find _ kw) as [[k0 v0]|] eqn:Hf; [discriminate|].
  cbn [bind] in H.
  unfold PerceiverVisionTransformer.init_body in H.
  cbn [map PerceiverVisionTransformer.signature fst snd] in H.
  cbn [get lookup String.eqb Ascii.eqb Bool.eqb] in H.
  fold (get "pretrained"%string (VBool false) kw) in H.
  apply bind_ok in H as (D & HD & H).
  apply bind_ok in H as (ic & Hic & H).
  apply bind_ok in H as (pe & Hpe & H).
  apply bind_ok in H as (img & Himg & H).
  apply bind_ok in H as (ps & Hps & H).
  apply bind_ok in H as (pd & Hpd & H).
  apply bind_ok in H as (u1 & Hu1 & H).
  apply bind_ok in H as (u2 & Hu2 & H).
  apply bind_ok in H as (dr & Hdr & H).
  apply bind_ok in H as (pdr & Hpdr & H).
  apply bind_ok in H as (u3 & Hu3 & H).
  apply bind_ok in H as (pn & Hpn & H).
  apply bind_ok in H as (depth & Hdepth & H).
  apply bind_ok in H as (dprate & Hdprate & H).
  apply bind_ok in H as (dpr & Hdpr & H).
  apply bind_ok in H as (nh & Hnh & H).
  apply bind_ok in H as (mr & Hmr & H).
  apply bind_ok in H as (qs & Hqs & H).
  apply bind_ok in H as (adr & Hadr & H).
  apply bind_ok in H as (blocks & Hblocks & H).
  apply bind_ok in H as (nrm & Hnrm & H).
  apply bind_ok in H as (u4 & Hu4 & H).
  exists D, ic, img, ps, depth, nh.
  apply floordiv_ok in Hpd as [Hps0 Hpd].
  unfold PatchEmbed.init in Hpe.
  rewrite (to_2tuple_as_int _ _ _ Himg), (to_2tuple_as_int _ _ _ Hps) in Hpe.
  cbn [bind fst snd] in Hpe.
  unfold floordiv in Hpe.
  rewrite (proj2 (Z.eqb_neq ps 0) Hps0) in Hpe. cbn [bind] in Hpe.
  apply bind_ok in Hpe as (cv & Hcv & Hpe).
  unfold Conv2d_init in Hcv.
  apply bind_ok in Hcv as (u5 & Hu5 & Hcv).
  apply alloc_ok in Hu5. inversion Hcv; subst cv; clear Hcv.
  inversion Hpe; subst pe; clear Hpe. cbn [PatchEmbed.num_patches] in *.
  apply alloc_ok in Hu2.
  unfold linspace0 in Hdpr.
  apply bind_ok in Hdpr as (u6 & Hu6 & Hdpr). apply guard_ok in Hu6.
  inversion Hdpr; subst dpr; clear Hdpr.
  destruct (truthy (get "pretrained"%string (VBool false) kw)) eqn:Hpre;
    [discriminate|].
  inversion H; subst m; clear H.
  pose proof (mapM_length _ _ _ Hblocks) as Hlen.
  pose proof (mapM_Forall2 _ _ _ Hblocks) as Hall.
  repeat match goal with
         | H : Forall _ (_ :: _) |- _ => inversion H; clear H; subst
         end.
  constructor; cbn; auto.
  - repeat split; try assumption. apply Z.leb_le; assumption.
  - rewrite Hlen. unfold tabulate. rewrite length_map, length_seq. reflexivity.
  - clear - Hall. induction Hall; constructor; auto.
    eapply Block_init_heads; eassumption.
Qed.

Lemma init_pretrained (w : initializer) (kw : kwargs) (v : pyval)
    (m : PerceiverVisionTransformer.t) :
  has_key "pretrained" kw = false ->
  truthy v = true ->
  PerceiverVisionTransformer.init w kw = Ok m ->
  PerceiverVisionTransformer.init w (kw ++ [("pretrained"%string, v)])
  = Err NotImplementedError.
Proof.
  intros Hk Hv H.
  unfold PerceiverVisionTransformer.init, bind_signature in *.
  destruct (find _ kw) as [[k0 v0]|] eqn:Hf; [discriminate|].
  rewrite (find_app_none _ _ _ Hf) by reflexivity.
  cbn [bind] in *.
  unfold PerceiverVisionTransformer.init_body in *.
  cbn [map PerceiverVisionTransformer.signature fst snd] in *.
  cbn [get lookup String.eqb Ascii.eqb Bool.eqb] in *.
  fold (get "pretrained"%string (VBool false)
            (kw ++ [("pretrained"%string, v)])).
  repeat rewrite get_app_other by reflexivity.
  replace (get "pretrained"%string (VBool false)
               (kw ++ [("pretrained"%string, v)])) with v
    by (unfold get; rewrite lookup_app_new; auto).
  rewrite Hv.
  repeat match type of H with
  | bind ?r _ = Ok _ => destruct r; cbn [bind] in H |- *; [|discriminate]
  end.
  reflexivity.
Qed.

Lemma constructor_keywords_ok (c : cfg) (kw : kwargs) :
  exists ckw nc rest,
    constructor_keywords c kw = Ok (ckw, nc, rest)
    /\ (has_key "pretrained" kw = false -> has_key "pretrained" ckw = false).
Proof.
  unfold constructor_keywords.
  destruct (pop "num_classes" (VInt (cfg_num_classes c)) kw) as [nc kw1] eqn:E1.
  destruct (pop "img_size" (VInt (snd (cfg_input_size c))) kw1) as [im kw2] eqn:E2.
  destruct (pop "representation_size" VNone kw2) as [rs kw3] eqn:E3.
  assert (H1 : forall k v, lookup k kw3 = Some v ->
            String.eqb k "num_classes" = false
            /\ String.eqb k "img_size" = false
            /\ String.eqb k "representation_size" = false
            /\ lookup k kw = Some v).
  { intros k v Hl.
    replace kw3 with (snd (pop "representation_size" VNone kw2)) in Hl
      by (rewrite E3; reflexivity).
    replace kw2 with (snd (pop "img_size" (VInt (snd (cfg_input_size c))) kw1)) in Hl
      by (rewrite E2; reflexivity).
    replace kw1 with (snd (pop "num_classes" (VInt (cfg_num_classes c)) kw)) in Hl
      by (rewrite E1; reflexivity).
    assert (Hgen : forall k' dflt d, lookup k (snd (pop k' dflt d)) = Some v ->
              String.eqb k k' = false /\ lookup k d = Some v).
    { intros k' dflt d Hd. destruct (String.eqb k k') eqn:Ek.
      - apply String.eqb_eq in Ek; subst k'.
        pose proof (has_key_pop_same k dflt d) as Hp.
        unfold has_key in Hp. rewrite Hd in Hp. discriminate.
      - split; [reflexivity|].
        unfold pop in Hd. destruct (lookup k' d); simpl in Hd; [|assumption].
        rewrite lookup_remove_key_other in Hd by assumption. assumption. }
    apply Hgen in Hl as [Ha Hl]. apply Hgen in Hl as [Hb Hl].
    apply Hgen in Hl as [Hc Hl]. auto. }
  unfold merge_keywords.
  destruct (find _ kw3) as [[k v]|] eqn:Hf.
  - exfalso. apply find_some in Hf as [Hin Hk]. cbn [fst] in Hk.
    assert (Hl : exists v', lookup k kw3 = Some v').
    { clear - Hin. induction kw3 as [|[k1 v1] l IH]; [contradiction|].
      simpl. destruct (String.eqb k k1) eqn:E; [eauto|].
      destruct Hin as [Heq|Hin]; [|auto].
      inversion Heq; subst. rewrite String.eqb_refl in E; discriminate. }
    destruct Hl as [v' Hl]. apply H1 in Hl as (Ha & Hb & Hc & _).
    unfold has_key in Hk. cbn [lookup] in Hk.
    rewrite Hb, Ha, Hc in Hk. discriminate.
  - eexists _, _, _; split; [reflexivity|].
    intros Hp. unfold has_key. rewrite lookup_app. cbn [lookup String.eqb Ascii.eqb Bool.eqb].
    destruct (lookup "pretrained" kw3) eqn:El; [|reflexivity].
    apply H1 in El as (_ & _ & _ & El). unfold has_key in Hp.
    rewrite El in Hp; discriminate.
Qed.

Lemma create_pretrained_after
    (cfgs : string -> option cfg) (D : option model_class)
    (lp : PerceiverVisionTransformer.t -> pyval -> pyval -> state_dict_filter ->
          result PerceiverVisionTransformer.t)
    (w : initializer) (variant : string) (p d : pyval) (kw : kwargs) :
  match _create_vision_transformer cfgs D lp w variant (VBool false) d kw with
  | Ok m =>
      exists nc ic,
        _create_vision_transformer cfgs D lp w variant p d kw =
        if truthy p then lp m nc ic (fun sd => checkpoint_filter_fn sd m)
        else Ok m
  | Err e => _create_vision_transformer cfgs D lp w variant p d kw = Err e
  end.
Proof.
  unfold _create_vision_transformer.
  destruct (cfgs variant) as [c|]; cbn [bind]; [|reflexivity].
  destruct (constructor_keywords c kw) as [[[ckw nc] rest]|e]; cbn [bind];
    [|reflexivity].
  destruct (if truthy d then _ else _) as [cls|e]; cbn [bind]; [|reflexivity].
  destruct (cls w ckw) as [m|e]; cbn [bind truthy]; [|reflexivity].
  eexists _, _; reflexivity.
Qed.

(** C10 (amended). For every argument combination with which the
    constructor succeeds when [pretrained] is left out, the same call with
    a true [pretrained] raises [NotImplementedError]: the check sits after
    the construction of the sub-modules, so arguments that make these
    raise are excluded. The factory never hands [pretrained] to the model
    class: the dictionary it builds has no such key, the model is built
    as if [pretrained] were false, and [load_pretrained] is applied to the
    built model afterwards. *)
Theorem C10_pretrained_raises_once_constructed :
  forall (w : initializer) (kw : kwargs) (v : pyval)
         (m : PerceiverVisionTransformer.t),
    has_key "pretrained" kw = false ->
    truthy v = true ->
    PerceiverVisionTransformer.init w kw = Ok m ->
    PerceiverVisionTransformer.init w (kw ++ [("pretrained"%string, v)])
    = Err NotImplementedError
    /\ (forall (c : cfg) (keywords : kwargs),
          exists ckw nc rest,
            constructor_keywords c
              (snd (pop "distilled" (VBool false)
                 (snd (pop "pretrained" (VBool false) keywords))))
            = Ok (ckw, nc, rest)
            /\ has_key "pretrained" ckw = false)
    /\ (forall cfgs D lp variant p d kws,
          match _create_vision_transformer cfgs D lp w variant (VBool false) d kws with
          | Ok m' =>
              exists nc ic,
                _create_vision_transformer cfgs D lp w variant p d kws =
                if truthy p
                then lp m' nc ic (fun sd => checkpoint_filter_fn sd m')
                else Ok m'
          | Err e =>
              _create_vision_transformer cfgs D lp w variant p d kws = Err e
          end).
Proof.
  intros w kw v m Hk Hv Hm. split; [|split].
  - eapply init_pretrained; eassumption.
  - intros c keywords.
    destruct (constructor_keywords_ok c
                (snd (pop "distilled" (VBool false)
                   (snd (pop "pretrained" (VBool false) keywords)))))
      as (ckw & nc & rest & Hc & Hp).
    exists ckw, nc, rest. split; [assumption|].
    apply Hp. apply has_key_pop_other. apply has_key_pop_same.
  - intros. apply create_pretrained_after.
Qed.

Lemma C10_witness :
  PerceiverVisionTransformer.init tiny_init
    (tiny_kwargs ++ [("pretrained"%string, VBool true)])
  = Err NotImplementedError.
Proof.
  destruct (PerceiverVisionTransformer.init tiny_init tiny_kwargs) as [m|e] eqn:E.
  - exact (proj1 (C10_pretrained_raises_once_constructed
                    tiny_init tiny_kwargs (VBool true) m eq_refl eq_refl E)).
  - vm_compute in E. discriminate E.
Defined.

(** C10, as stated, fails: with a zero patch size the constructor raises
    [ZeroDivisionError] while it builds the patch embedding, before it
    looks at [pretrained]. *)
Lemma C10_counterexample :
  lookup "pretrained" [ ("patch_size"%string, VInt 0);
                        ("pretrained"%string, VBool true) ]
  = Some (VBool true)
  /\ PerceiverVisionTransformer.init (fun _ _ => 0)
       [ ("patch_size"%string, VInt 0); ("pretrained"%string, VBool true) ]
     = Err ZeroDivisionError.
Proof. split; vm_compute; reflexivity. Qed.

(** C3 at its failing inputs. Whatever the configuration table holds,
    every ResNet-hybrid function of the registry raises when called with
    [pretrained=False]: the constructor has no parameter
    [hybrid_backbone]. When the name [DistilledPerceiverVisionTransformer]
    is unbound, as in this module, every distilled function raises
    too. *)
Theorem C3_hybrid_and_distilled_factories_raise :
  forall cfgs lp (w : initializer),
    (forall D,
       Forall (fun f => is_ok (call_registered f
                                 [("pretrained"%string, VBool false)]) = false)
              (hybrid_factories cfgs D lp w))
    /\ Forall (fun f => is_ok (call_registered f
                                 [("pretrained"%string, VBool false)]) = false)
              (distilled_factories cfgs None lp w).
Proof.
  intros cfgs lp w. split; [intros D|].
  - repeat constructor.
    all: cbv [call_registered pop lookup String.eqb Ascii.eqb Bool.eqb remove_key
              filter fst snd negb].
    all: cbv [vit_base_resnet50_224_in21k vit_base_resnet50_384
              vit_small_resnet26d_224 vit_small_resnet50d_s3_224
              vit_base_resnet26d_224 vit_base_resnet50d_224 factory].
    all: cbn [merge_keywords find bind].
    all: unfold call_create; cbn.
    all: unfold _create_vision_transformer.
    all: match goal with
         | |- context [match ?x with Some _ => _ | None => _ end] =>
             destruct x as [c|]
         end; [|reflexivity].
    all: vm_compute; reflexivity.
  - repeat constructor.
    all: cbv [call_registered pop lookup String.eqb Ascii.eqb Bool.eqb remove_key
              filter fst snd negb].
    all: cbv [vit_deit_tiny_distilled_patch16_224
              vit_deit_small_distilled_patch16_224
              vit_deit_base_distilled_patch16_224
              vit_deit_base_distilled_patch16_384 factory].
    all: cbn [merge_keywords find bind].
    all: unfold call_create; cbn.
    all: unfold _create_vision_transformer.
    all: match goal with
         | |- context [match ?x with Some _ => _ | None => _ end] =>
             destruct x as [c|]
         end; [|reflexivity].
    all: vm_compute; reflexivity.
Qed.

(** ** Lists: [tabulate], [concat], [chunks] *)

Lemma length_tabulate {A : Type} (n : nat) (f : nat -> A) :
  length (tabulate n f) = n.
Proof. unfold tabulate. rewrite length_map, length_seq. reflexivity. Qed.

Lemma nth_tabulate {A : Type} (n : nat) (f : nat -> A) (i : nat) (d : A) :
  (i < n)%nat -> nth i (tabulate n f) d = f i.
Proof.
  intros Hi. unfold tabulate.
  rewrite (nth_indep _ d (f 0%nat)) by (rewrite length_map, length_seq; lia).
  rewrite (map_nth f (seq 0 n) 0%nat i), seq_nth by lia. reflexivity.
Qed.

Lemma tabulate_ext {A : Type} (n : nat) (f g : nat -> A) :
  (forall i, (i < n)%nat -> f i = g i) -> tabulate n f = tabulate n g.
Proof.
  intros H. unfold tabulate. apply map_ext_in. intros i Hi.
  apply in_seq in Hi. apply H. lia.
Qed.

Lemma In_tabulate {A : Type} (n : nat) (f : nat -> A) (x : A) :
  In x (tabulate n f) <-> exists i, (i < n)%nat /\ x = f i.
Proof.
  unfold tabulate. rewrite in_map_iff. split.
  - intros (i & Hx & Hi). apply in_seq in Hi. exists i. split; [lia | auto].
  - intros (i & Hi & Hx). exists i. split; [auto | apply in_seq; lia].
Qed.

Lemma Forall_tabulate {A : Type} (P : A -> Prop) (n : nat) (f : nat -> A) :
  (forall i, (i < n)%nat -> P (f i)) -> Forall P (tabulate n f).
Proof.
  intros H. apply Forall_forall. intros x Hx.
  apply In_tabulate in Hx as (i & Hi & ->). auto.
Qed.

Lemma map_tabulate {A B : Type} (g : A -> B) (n : nat) (f : nat -> A) :
  map g (tabulate n f) = tabulate n (fun i => g (f i)).
Proof. unfold tabulate. rewrite map_map. reflexivity. Qed.

Lemma list_ext {A : Type} (d : A) (l1 l2 : list A) :
  length l1 = length l2 ->
  (forall i, (i < length l1)%nat -> nth i l1 d = nth i l2 d) ->
  l1 = l2.
Proof. intros Hl H. apply (nth_ext l1 l2 d d); auto. Qed.

Lemma tabulate_nth {A : Type} (d : A) (l : list A) :
  tabulate (length l) (fun i => nth i l d) = l.
Proof.
  apply (list_ext d).
  - apply length_tabulate.
  - intros i Hi. rewrite length_tabulate in Hi.
    rewrite nth_tabulate by assumption. reflexivity.
Qed.

Lemma nth_map_default {A B : Type} (f : A -> B) (l : list A) (i : nat)
    (da : A) (db : B) :
  (i < length l)%nat -> nth i (map f l) db = f (nth i l da).
Proof.
  intros Hi. rewrite (nth_indep _ db (f da)) by (rewrite length_map; lia).
  apply map_nth.
Qed.

Lemma length_concat_rect {A : Type} (k : nat) (rows : list (list A)) :
  Forall (fun r => length r = k) rows ->
  length (concat rows) = (length rows * k)%nat.
Proof.
  induction 1 as [|r rows Hr _ IH]; simpl; [reflexivity|].
  rewrite length_app, IH, Hr. reflexivity.
Qed.

Lemma nth_concat_rect {A : Type} (d : A) (k : nat) (rows : list (list A))
    (i j : nat) :
  Forall (fun r => length r = k) rows ->
  (j < k)%nat ->
  nth (i * k + j) (concat rows) d = nth j (nth i rows []) d.
Proof.
  intros H Hj. revert i. induction H as [|r rows Hr _ IH]; intros i.
  - cbn [concat]. rewrite (nth_overflow (@nil (list A))) by (simpl; lia).
    rewrite !nth_overflow by (simpl; lia). reflexivity.
  - destruct i as [|i]; simpl.
    + rewrite app_nth1 by lia. reflexivity.
    + rewrite app_nth2 by lia.
      replace (k + i * k + j - length r)%nat with (i * k + j)%nat by lia.
      apply IH.
Qed.

Lemma chunks_concat {A : Type} (k : nat) (rows : list (list A)) :
  Forall (fun r => length r = k) rows ->
  chunks k (length rows) (concat rows) = rows.
Proof.
  induction 1 as [|r rows Hr _ IH]; simpl; [reflexivity|].
  rewrite firstn_app, skipn_app, Hr, Nat.sub_diag.
  rewrite <- Hr at 1 3. rewrite firstn_all, skipn_all. simpl.
  rewrite app_nil_r. f_equal. assumption.
Qed.

Lemma length_chunks {A : Type} (size count : nat) (l : list A) :
  length (chunks size count l) = count.
Proof.
  revert l; induction count as [|c IH]; intros l; simpl; [reflexivity|].
  rewrite IH. reflexivity.
Qed.

Lemma nth_chunks {A : Type} (size count : nat) (l : list A) (i : nat) :
  (i < count)%nat ->
  nth i (chunks size count l) [] = firstn size (skipn (i * size) l).
Proof.
  revert l i; induction count as [|c IH]; intros l i Hi; [lia|].
  destruct i as [|i]; simpl; [reflexivity|].
  rewrite IH by lia. rewrite skipn_skipn.
  replace (i * size + size)%nat with (size + i * size)%nat by lia. reflexivity.
Qed.

Lemma nth_firstn_skipn {A : Type} (d : A) (l : list A) (a k j : nat) :
  (j < k)%nat -> nth j (firstn k (skipn a l)) d = nth (a + j) l d.
Proof.
  intros Hj. rewrite nth_firstn.
  destruct (j <? k)%nat eqn:E; [|apply Nat.ltb_ge in E; lia].
  apply nth_skipn.
Qed.

Lemma Forall_chunks_length {A : Type} (size count : nat) (l : list A) :
  (count * size <= length l)%nat ->
  Forall (fun r => length r = size) (chunks size count l).
Proof.
  revert l; induction count as [|c IH]; intros l Hl; simpl; constructor.
  - rewrite length_firstn. lia.
  - apply IH. rewrite length_skipn. lia.
Qed.

Lemma concat_chunks {A : Type} (size count : nat) (l : list A) :
  length l = (count * size)%nat -> concat (chunks size count l) = l.
Proof.
  revert l; induction count as [|c IH]; intros l Hl; simpl.
  - destruct l; [reflexivity | discriminate].
  - rewrite IH by (rewrite length_skipn; lia). apply firstn_skipn.
Qed.



Lemma combine_map_same {A B C : Type} (f : A -> B) (g : A -> C) (l : list A) :
  combine (map f l) (map g l) = map (fun a => (f a, g a)) l.
Proof. induction l as [|a l IH]; simpl; [reflexivity | f_equal; assumption]. Qed.

Lemma length_imap {A B : Type} (f : nat -> A -> B) (l : list A) :
  length (imap f l) = length l.
Proof.
  unfold imap. rewrite length_map, length_combine, length_seq. lia.
Qed.

Lemma nth_imap {A B : Type} (f : nat -> A -> B) (l : list A) (i : nat)
    (da : A) (db : B) :
  (i < length l)%nat -> nth i (imap f l) db = f i (nth i l da).
Proof.
  intros Hi. unfold imap.
  rewrite (nth_map_default _ _ _ (0%nat, da))
    by (rewrite length_combine, length_seq; lia).
  rewrite combine_nth by (rewrite length_seq; reflexivity).
  rewrite seq_nth by lia. reflexivity.
Qed.

(** ** Random draws *)







Lemma multinomial_rejects_zero (rnd : randomness) (pos n : nat) (r : bool) :
  multinomial rnd pos n 0 r
  = Err (RuntimeError "cannot sample n_sample <= 0 samples").
Proof. reflexivity. Qed.

(** ** The selection loop *)


(** ** [nonzero], [unique] and the rows of the selection *)



















(** ** Shapes *)

Lemma rect2_tabulate {A : Type} (a b : nat) (f : nat -> nat -> A) :
  rect2 a b (tabulate a (fun i => tabulate b (f i))).
Proof.
  split; [apply length_tabulate|].
  apply Forall_tabulate. intros i _. apply length_tabulate.
Qed.

Lemma rect2_mk2 (f : nat -> Q) (a b : nat) : rect2 a b (mk2 f a b).
Proof.
  split; [apply length_tabulate|].
  apply Forall_tabulate. intros i _. apply length_tabulate.
Qed.

Lemma rect3_mk3 (f : nat -> Q) (a b c : nat) : rect3 a b c (mk3 f a b c).
Proof.
  split; [apply length_tabulate|].
  apply Forall_tabulate. intros i _. apply rect2_mk2.
Qed.

Lemma rect4_mk4 (f : nat -> Q) (a b c d : nat) : rect4 a b c d (mk4 f a b c d).
Proof.
  split; [apply length_tabulate|].
  apply Forall_tabulate. intros i _. apply rect3_mk3.
Qed.

Lemma hd_nth {A : Type} (d : A) (l : list A) : hd d l = nth 0 l d.
Proof. destruct l; reflexivity. Qed.

Lemma shape2_rect {A : Type} (a b : nat) (m : list (list A)) :
  rect2 a b m -> (0 < a)%nat -> shape2 m = (a, b).
Proof.
  intros [Hl Hall] Ha. unfold shape2. rewrite Hl. f_equal.
  rewrite hd_nth. apply (Forall_forall (fun r => length r = b) m); [assumption|].
  apply nth_In. lia.
Qed.

Lemma rect3_hd {A : Type} (a b c : nat) (t : list (list (list A))) :
  rect3 a b c t -> (0 < a)%nat -> rect2 b c (hd [] t).
Proof.
  intros [Hl Hall] Ha. rewrite hd_nth.
  apply (Forall_forall (rect2 b c) t); [assumption | apply nth_In; lia].
Qed.

Lemma rect4_hd {A : Type} (a b c d : nat) (t : list (list (list (list A)))) :
  rect4 a b c d t -> (0 < a)%nat -> rect3 b c d (hd [] t).
Proof.
  intros [Hl Hall] Ha. rewrite hd_nth.
  apply (Forall_forall (rect3 b c d) t); [assumption | apply nth_In; lia].
Qed.

Lemma shape3_rect {A : Type} (a b c : nat) (t : list (list (list A))) :
  rect3 a b c t -> (0 < a)%nat -> (0 < b)%nat -> shape3 t = (a, b, c).
Proof.
  intros H Ha Hb. unfold shape3.
  pose proof (rect3_hd _ _ _ _ H Ha) as H2.
  pose proof (shape2_rect _ _ _ H2 Hb) as Hs. unfold shape2 in Hs.
  inversion Hs as [[H1 H3]]. rewrite (proj1 H). rewrite !H1. reflexivity.
Qed.

Lemma shape4_rect {A : Type} (a b c d : nat) (t : list (list (list (list A)))) :
  rect4 a b c d t -> (0 < a)%nat -> (0 < b)%nat -> (0 < c)%nat ->
  shape4 t = (a, b, c, d).
Proof.
  intros H Ha Hb Hc. unfold shape4.
  pose proof (rect4_hd _ _ _ _ _ H Ha) as H3.
  pose proof (shape3_rect _ _ _ _ H3 Hb Hc) as Hs. unfold shape3 in Hs.
  inversion Hs as [[H1 H2 H4]]. rewrite (proj1 H). rewrite !H1, !H2.
  reflexivity.
Qed.

Lemma rect2_nth {A : Type} (a b : nat) (m : list (list A)) (i : nat) :
  rect2 a b m -> (i < a)%nat -> length (nth i m []) = b.
Proof.
  intros [Hl Hall] Hi.
  apply (Forall_forall (fun r => length r = b) m); [assumption|].
  apply nth_In. lia.
Qed.

Lemma rect3_nth {A : Type} (a b c : nat) (t : list (list (list A))) (i : nat) :
  rect3 a b c t -> (i < a)%nat -> rect2 b c (nth i t []).
Proof.
  intros [Hl Hall] Hi.
  apply (Forall_forall (rect2 b c) t); [assumption | apply nth_In; lia].
Qed.


(** ** The patch embedding *)

Lemma conv_out_div (inp p : nat) :
  (0 < p)%nat -> (p <= inp)%nat -> conv_out inp p p = (inp / p)%nat.
Proof.
  intros Hp Hle. unfold conv_out.
  replace inp with ((inp - p) + 1 * p)%nat at 2 by lia.
  rewrite Nat.div_add by lia. reflexivity.
Qed.

Lemma conv_out_pos (inp p : nat) : (0 < conv_out inp p p)%nat.
Proof. unfold conv_out. lia. Qed.

Lemma conv2d_image_rect (img : T3) (weight : T4) (bias : option T1)
    (Hi Wi kh kw sh sw : nat) :
  rect3 (length weight) (conv_out Hi kh sh) (conv_out Wi kw sw)
        (conv2d_image img weight bias Hi Wi kh kw sh sw).
Proof.
  unfold conv2d_image. split.
  - rewrite length_map, length_seq. reflexivity.
  - apply Forall_forall. intros g Hg. apply in_map_iff in Hg as (o & <- & _).
    apply rect2_tabulate.
Qed.

Lemma conv2d_rect (x weight : T4) (bias : option T1) (B C Hi Wi D p : nat) :
  rect4 B C Hi Wi x -> rect4 D C p p weight ->
  (0 < B)%nat -> (0 < C)%nat -> (0 < D)%nat -> (0 < p)%nat ->
  (p <= Hi)%nat -> (p <= Wi)%nat ->
  conv2d x weight bias (p, p)
  = Ok (map (fun img => conv2d_image img weight bias Hi Wi p p p p) x)
  /\ rect4 B D (Hi / p) (Wi / p)
           (map (fun img => conv2d_image img weight bias Hi Wi p p p p) x).
Proof.
  intros Hx Hw HB HC HD Hp HHi HWi.
  unfold conv2d.
  rewrite (shape4_rect _ _ _ _ _ Hx) by lia. rewrite (shape4_rect _ _ _ _ _ Hw) by lia.
  unfold conv2d_shape_check. cbn [fst snd].
  rewrite Nat.eqb_refl.
  rewrite (proj2 (Nat.ltb_lt 0 p) Hp).
  rewrite (proj2 (Nat.leb_le p Hi) HHi), (proj2 (Nat.leb_le p Wi) HWi).
  cbn [andb guard bind]. split; [reflexivity|].
  split; [rewrite length_map; apply Hx|].
  apply Forall_forall. intros t Ht. apply in_map_iff in Ht as (img & <- & _).
  rewrite <- (conv_out_div _ _ Hp HHi), <- (conv_out_div _ _ Hp HWi).
  rewrite <- (proj1 Hw). apply conv2d_image_rect.
Qed.

(** ** The validity mask is all ones *)

Lemma nearest_idx_lt (inp out i : nat) :
  (0 < inp)%nat -> (nearest_idx inp out i < inp)%nat.
Proof. intros H. unfold nearest_idx. lia. Qed.

Lemma nearest2d_ones (img : T3) (Hi Wi H W : nat) :
  (0 < Hi)%nat -> (0 < Wi)%nat ->
  nearest2d (ones_like (ne0 (channel_sum img Hi Wi))) Hi Wi H W = ones_grid H W.
Proof.
  intros HHi HWi. unfold nearest2d, ones_grid.
  apply tabulate_ext. intros i _. apply tabulate_ext. intros j _.
  unfold ones_like, ne0, channel_sum.
  rewrite !map_tabulate.
  rewrite nth_tabulate by (apply nearest_idx_lt; assumption).
  rewrite !map_tabulate.
  rewrite nth_tabulate by (apply nearest_idx_lt; assumption).
  reflexivity.
Qed.

Lemma valid_mask_ones (x : T4) (B C Hi Wi H W : nat) :
  rect4 B C Hi Wi x -> (0 < B)%nat -> (0 < C)%nat -> (0 < Hi)%nat ->
  (0 < Wi)%nat ->
  valid_mask x H W = map (fun _ => ones_grid H W) x.
Proof.
  intros Hx HB HC HHi HWi. unfold valid_mask.
  rewrite (shape4_rect _ _ _ _ _ Hx) by lia.
  apply map_ext. intros img. apply nearest2d_ones; assumption.
Qed.

Lemma Zsum_const (n : nat) (f : nat -> Z) :
  (forall i, f i = 1%Z) -> Zsum (tabulate n f) = Z.of_nat n.
Proof.
  intros Hf. unfold tabulate. generalize 0%nat.
  induction n as [|n IH]; intros s; [reflexivity|].
  cbn [seq map Zsum fold_right]. fold (Zsum (map f (seq (S s) n))).
  rewrite IH, Hf. lia.
Qed.

Lemma extent_h_ones (x : T4) (H W : nat) :
  (0 < W)%nat ->
  extent_h (map (fun _ => ones_grid H W) x) = map (fun _ => Z.of_nat H) x.
Proof.
  intros HW. unfold extent_h. rewrite map_map. apply map_ext. intros _.
  unfold ones_grid. rewrite map_tabulate. apply Zsum_const.
  intros i. rewrite nth_tabulate by assumption. reflexivity.
Qed.

Lemma extent_w_ones (x : T4) (H W : nat) :
  (0 < H)%nat ->
  extent_w (map (fun _ => ones_grid H W) x) = map (fun _ => Z.of_nat W) x.
Proof.
  intros HH. unfold extent_w. rewrite map_map. apply map_ext. intros _.
  unfold ones_grid. rewrite nth_tabulate by assumption.
  apply Zsum_const. reflexivity.
Qed.


(** ** The position grid and its padding *)

(** [lia] after the tensor type names are unfolded, so that it sees
    equal lengths as equal. *)
Ltac tlia := unfold T4, T3, T2, T1, index in *; lia.

Lemma transpose_rows (D : nat) (rows : T2) :
  transpose D rows = tabulate D (fun c => map (fun row => nth c row 0) rows).
Proof. reflexivity. Qed.

Lemma chunks_grid (pd c : nat) (table : T2) :
  (pd * pd + 1 <= length table)%nat ->
  chunks pd pd (map (fun row => nth c row 0) (tl table))
  = position_grid table pd c.
Proof.
  intros Hlen. unfold position_grid.
  assert (Hl : (pd * pd <= length (map (fun row : T1 => nth c row 0%Q) (tl table)))%nat).
  { rewrite length_map. destruct table; cbn [length tl] in *; tlia. }
  apply (list_ext []).
  - rewrite length_chunks, length_tabulate. reflexivity.
  - intros i Hi. rewrite length_chunks in Hi.
    rewrite nth_chunks, nth_tabulate by assumption.
    assert (Hik : (i * pd + pd <= pd * pd)%nat).
    { assert (HSi : (S i <= pd)%nat) by lia.
      pose proof (Nat.mul_le_mono_r (S i) pd pd HSi) as Hm. simpl in Hm. lia. }
    apply (list_ext 0).
    + rewrite length_firstn, length_skipn, length_tabulate.
      rewrite length_map in *. unfold T2, T1 in *. lia.
    + intros j Hj. rewrite length_firstn, length_skipn in Hj.
      rewrite length_map in Hj, Hl. unfold T2, T1 in *.
      assert (Hj' : (j < pd)%nat) by lia.
      rewrite nth_firstn_skipn, nth_tabulate by assumption.
      rewrite (nth_map_default _ _ _ []) by lia.
      destruct table as [|r0 rows]; [cbn [length] in Hlen; lia|]. reflexivity.
Qed.

Lemma spatial_pos_of_spec (table : T2) (C D pd : nat) :
  rect2 (pd * pd + 1) D table -> C = D ->
  spatial_pos_of [table] C (Z.of_nat pd)
  = Ok (tabulate D (position_grid table pd)).
Proof.
  intros Ht ->. unfold spatial_pos_of. cbn [nth].
  assert (HD : length (hd [] table) = D).
  { rewrite hd_nth. apply (rect2_nth _ _ _ 0 Ht). lia. }
  rewrite HD, Nat2Z.id.
  assert (Hrows : length (tl table) = (pd * pd)%nat).
  { destruct Ht as [Hl _]. destruct table; cbn [length tl] in *; tlia. }
  rewrite Hrows, !Nat.eqb_refl.
  rewrite (proj2 (Z.leb_le 0 (Z.of_nat pd))) by lia.
  cbn [andb guard bind]. apply f_equal.
  rewrite transpose_rows, map_tabulate.
  apply tabulate_ext. intros c _. apply chunks_grid.
  pose proof (proj1 Ht). tlia.
Qed.





(** ** Tokens *)

Lemma nth_concat_grid {A : Type} (d : A) (H W : nat) (g : list (list A))
    (p : nat) :
  rect2 H W g -> (p < H * W)%nat ->
  nth p (concat g) d = nth (p mod W) (nth (p / W) g []) d.
Proof.
  intros [Hl Hall] Hp.
  assert (HW : (0 < W)%nat) by nia.
  rewrite (Nat.div_mod_eq p W) at 1.
  replace (W * (p / W) + p mod W)%nat with (p / W * W + p mod W)%nat by lia.
  apply nth_concat_rect; [assumption|].
  apply Nat.mod_upper_bound. lia.
Qed.



(** ** Gathering and regrouping the selection *)




(** ** The pieces of [embed_frames] on a batch without padding *)



Lemma map_snd_combine_seq {A : Type} (l : list A) (s : nat) :
  map snd (combine (seq s (length l)) l) = l.
Proof.
  revert s; induction l as [|a l IH]; intros s; simpl; [reflexivity|].
  f_equal. apply IH.
Qed.

Lemma imap_const_map {A B : Type} (f : A -> B) (l : list A) :
  imap (fun _ a => f a) l = map f l.
Proof.
  unfold imap. rewrite <- (map_map snd f). rewrite map_snd_combine_seq.
  reflexivity.
Qed.


Lemma tensor_max_const (z : Z) (l : list Z) :
  l <> [] -> Forall (fun v => v = z) l -> tensor_max l = Ok z.
Proof.
  intros Hne Hall. destruct l as [|a l]; [congruence|].
  inversion Hall as [|? ? Ha Hl]; subst. cbn [tensor_max]. f_equal.
  clear Hne Hall. induction Hl as [|b l Hb _ IH]; [reflexivity|].
  subst b. cbn [fold_left]. rewrite Z.max_id. assumption.
Qed.





Lemma mapM_const {A B C : Type} (f : B -> result C) (c : B) (v : C)
    (l : list A) :
  f c = Ok v -> mapM f (map (fun _ => c) l) = Ok (map (fun _ => v) l).
Proof.
  intros Hf. induction l as [|a l IH]; simpl; [reflexivity|].
  rewrite Hf, IH. reflexivity.
Qed.

(** ** Parameters of a constructed model *)

Section Constructed.

Variables (w : initializer) (kw : kwargs) (self : PerceiverVisionTransformer.t).
Variables (D ic img ps depth nh : Z).
Hypothesis Hc : constructed w kw self D ic img ps depth nh.

Lemma getattr_cls_token :
  PerceiverVisionTransformer.getattr self "cls_token"
  = Ok (mk3 (w "cls_token"%string) 1 1 (Z.to_nat D)).
Proof.
  unfold PerceiverVisionTransformer.getattr. rewrite (c_parameters Hc).
  reflexivity.
Qed.

Lemma getattr_pos_embed :
  PerceiverVisionTransformer.getattr self "pos_embed"
  = Ok (mk3 (w "pos_embed"%string) 1
            (Z.to_nat (img / ps * (img / ps) + 1)) (Z.to_nat D)).
Proof.
  unfold PerceiverVisionTransformer.getattr. rewrite (c_parameters Hc).
  reflexivity.
Qed.

Lemma getattr_mask_token :
  PerceiverVisionTransformer.getattr self "mask_token"
  = Err (AttributeError "mask_token").
Proof.
  unfold PerceiverVisionTransformer.getattr. rewrite (c_parameters Hc).
  destruct (truthy _); reflexivity.
Qed.

Lemma getattr_temporal_embed :
  PerceiverVisionTransformer.getattr self "temporal_embed"
  = if PerceiverVisionTransformer.use_video self
    then Ok (mk3 (w "temporal_embed"%string) 1 64 (Z.to_nat D))
    else Err (AttributeError "temporal_embed").
Proof.
  unfold PerceiverVisionTransformer.getattr.
  rewrite (c_parameters Hc), (c_use_video Hc).
  destruct (truthy _); reflexivity.
Qed.

End Constructed.

(** ** [embed_frames] on a batch that fits a constructed model *)

Section EmbedFrames.

Variables (w : initializer) (kw : kwargs) (self : PerceiverVisionTransformer.t).
Variables (D ic img ps depth nh : Z).
Hypothesis Hc : constructed w kw self D ic img ps depth nh.

Variables (x : T4) (B C Hi Wi : nat).
Hypothesis Hfit : fits self x B C Hi Wi.

Let p := Z.to_nat ps.
Let Dn := Z.to_nat D.
Let pd := Z.to_nat (img / ps).
Let H := (Hi / p)%nat.
Let W := (Wi / p)%nat.

Let xc : T4 :=
  map (fun im =>
         conv2d_image im
           (mk4 (w "patch_embed.proj.weight"%string) Dn C p p)
           (Some (mk1 (w "patch_embed.proj.bias"%string) Dn))
           Hi Wi p p p p) x.

Lemma fits_facts :
  (0 < p /\ p <= Hi /\ p <= Wi /\ 0 < Dn /\ 0 < pd /\ 0 < C /\ 0 < B
   /\ 0 < H /\ 0 < W)%nat
  /\ Z.to_nat ic = C
  /\ PerceiverVisionTransformer.patch_dim self = Z.of_nat pd
  /\ Z.to_nat (img / ps * (img / ps) + 1) = (pd * pd + 1)%nat.
Proof.
  destruct Hfit as [Hr HB [HC Hch] (Hp0 & HpH & HpW) Hg He].
  rewrite (c_patch_size_attr Hc) in Hp0, HpH, HpW.
  rewrite (c_patch_dim Hc) in Hg.
  rewrite (c_embed_dim_attr Hc) in He.
  rewrite (c_patch_embed Hc) in Hch. cbn in Hch.
  assert (Hp : (0 < p /\ p <= Hi /\ p <= Wi)%nat) by (unfold p; lia).
  repeat split; try (unfold H, W, p, Dn, pd in *; lia).
  - unfold H. apply Nat.div_str_pos. lia.
  - unfold W. apply Nat.div_str_pos. lia.
  - rewrite (c_patch_dim Hc). unfold pd. lia.
Qed.

Lemma patch_embed_forward_fits :
  PatchEmbed_forward (PerceiverVisionTransformer.patch_embed self) x = Ok xc
  /\ rect4 B Dn H W xc.
Proof.
  destruct fits_facts as ((Hp & HpH & HpW & HD & Hpd & HC & HB & HH & HW)
                          & Hic & _).
  unfold PatchEmbed_forward. rewrite (c_patch_embed Hc).
  cbn [PatchEmbed.proj weight bias stride fst snd].
  fold p. fold Dn. rewrite Hic.
  apply (conv2d_rect x _ _ B C Hi Wi Dn p); try assumption.
  - apply (fits_rect _ _ _ _ _ _ Hfit).
  - apply rect4_mk4.
Qed.

Let cls_param : T3 := mk3 (w "cls_token"%string) 1 1 Dn.
Let pos_param : T3 := mk3 (w "pos_embed"%string) 1 (pd * pd + 1) Dn.
Let table : T2 := hd [] pos_param.

Lemma pos_param_table : pos_param = [table] /\ rect2 (pd * pd + 1) Dn table.
Proof.
  split; [reflexivity|]. unfold table, pos_param, mk3, tabulate.
  cbn [seq map hd]. apply rect2_mk2.
Qed.

(** The positional grid of one example, all of whose patches are
    valid. *)
Let posg : T3 :=
  map (fun g => pad2d (bilinear2d true g pd pd H W) W (W - W) (H - H))
      (tabulate Dn (position_grid table pd)).

Lemma pos_embed_of_fits :
  pos_embed_of (tabulate Dn (position_grid table pd)) pd H W
               (Z.of_nat H) (Z.of_nat W)
  = Ok posg.
Proof.
  destruct fits_facts as ((Hp & HpH & HpW & HD & Hpd & HC & HB & HH & HW) & _).
  unfold pos_embed_of. rewrite !Nat2Z.id. unfold interpolate_size_check.
  rewrite (proj2 (Nat.ltb_lt 0 pd) Hpd), (proj2 (Nat.ltb_lt 0 H) HH),
          (proj2 (Nat.ltb_lt 0 W) HW).
  reflexivity.
Qed.


Section Gathered.

Variable chs : list (list nat).
Hypothesis Hlen : length chs = length x.
Hypothesis Hin : Forall (Forall (fun q => (q < H * W)%nat)) chs.




End Gathered.



Lemma embed_frames_budget_error (rnd : randomness) (mv : pyval) (e : error) :
  effective_len (map (fun _ => Z.of_nat H) x) (map (fun _ => Z.of_nat W) x) mv
  = Err e ->
  embed_frames self rnd x mv false = Err e.
Proof.
  intros Heff.
  destruct fits_facts as ((Hp & HpH & HpW & HD & Hpd & HC & HB & HH & HW)
                          & Hic & Hpdim & HN).
  destruct patch_embed_forward_fits as [Hfw Hxc].
  pose proof (fits_rect _ _ _ _ _ _ Hfit) as Hx.
  unfold embed_frames. rewrite Hfw. cbn [bind].
  rewrite (shape4_rect _ _ _ _ _ Hx) by lia.
  rewrite (shape4_rect _ _ _ _ _ Hxc) by lia.
  unfold interpolate_size_check.
  rewrite (proj2 (Nat.ltb_lt 0 Hi)), (proj2 (Nat.ltb_lt 0 Wi)),
          (proj2 (Nat.ltb_lt 0 H) HH), (proj2 (Nat.ltb_lt 0 W) HW) by lia.
  cbn [andb guard bind].
  rewrite (valid_mask_ones x B C Hi Wi H W) by (assumption || lia).
  rewrite extent_h_ones, extent_w_ones by assumption.
  rewrite (getattr_pos_embed _ _ _ _ _ _ _ _ _ Hc), HN. cbn [bind].
  fold Dn. fold pos_param. rewrite (proj1 pos_param_table).
  rewrite Hpdim, Nat2Z.id.
  rewrite (spatial_pos_of_spec table Dn Dn pd (proj2 pos_param_table) eq_refl).
  cbn [bind].
  rewrite combine_map_same.
  rewrite (mapM_const _ _ posg) by (cbn [fst snd]; apply pos_embed_of_fits).
  cbn [bind]. rewrite !map_map.
  rewrite Heff. reflexivity.
Qed.

End EmbedFrames.

(** ** [visual_embed] on images *)

Lemma imap_map {A B C : Type} (f : nat -> B -> C) (g : A -> B) (l : list A) :
  imap f (map g l) = imap (fun i a => f i (g a)) l.
Proof.
  unfold imap. rewrite length_map. generalize 0%nat.
  induction l as [|a l IH]; intros s; simpl; [reflexivity|].
  f_equal. apply IH.
Qed.










(** ** The small model *)

Lemma tiny_fits (m : PerceiverVisionTransformer.t) :
  PerceiverVisionTransformer.init tiny_init tiny_kwargs = Ok m ->
  fits m tiny_image 2 3 4 4.
Proof.
  intros E. vm_compute in E. inversion E; subst m; clear E.
  constructor.
  - apply rect4_mk4.
  - lia.
  - split; [lia | reflexivity].
  - cbn. lia.
  - cbn. lia.
  - cbn. lia.
Qed.



(** ** Masked patches *)

Lemma bind_not_ok {A B : Type} (r : result A) (f : A -> result B) :
  (forall a, is_ok (f a) = false) -> is_ok (bind r f) = false.
Proof. intros H. destruct r; simpl; auto. Qed.

Lemma mask_tokens_raises (w : initializer) (kw : kwargs)
    (self : PerceiverVisionTransformer.t) (rnd : randomness) (pos : nat)
    (orig_image : T4) (feats : T3) :
  PerceiverVisionTransformer.init w kw = Ok self ->
  is_ok (mask_tokens self rnd pos orig_image feats) = false.
Proof.
  intros Hinit.
  destruct (init_inv _ _ _ Hinit) as (D & ic & img & ps & depth & nh & Hc).
  unfold mask_tokens.
  repeat match goal with
         | |- context [shape4 ?t] => destruct (shape4 t) as [[[? ?] ?] ?]
         end.
  apply bind_not_ok. intros _.
  rewrite (getattr_mask_token _ _ _ _ _ _ _ _ _ Hc). reflexivity.
Qed.

Lemma bind_err_l {A B : Type} (r : result A) (f : A -> result B) :
  is_ok r = false -> is_ok (bind r f) = false.
Proof. destruct r; simpl; [discriminate | reflexivity]. Qed.

(** C2 at its failing inputs. Whatever the model arguments and the input,
    a call of [visual_embed] with [mask_it=True] never returns: when the
    computation reaches [mask_tokens], the attribute [mask_token] it reads
    was never set by the constructor. *)
Theorem C2_mask_it_never_returns :
  forall (layer_norm : T1 -> T1) (w : initializer) (kw : kwargs)
         (training : bool) (rnd : randomness) (_x : input)
         (max_image_len : pyval),
    is_ok (self <- PerceiverVisionTransformer.init w kw ;;
           visual_embed layer_norm self training rnd _x max_image_len true)
    = false.
Proof.
  intros layer_norm w kw training rnd _x mil.
  destruct (PerceiverVisionTransformer.init w kw) as [self|e] eqn:Hinit;
    [|reflexivity].
  cbn [bind]. unfold visual_embed. apply bind_err_l.
  unfold embed_frames.
  apply bind_not_ok. intros xcv.
  repeat match goal with
         | |- context [shape4 ?t] => destruct (shape4 t) as [[[? ?] ?] ?]
         end.
  apply bind_not_ok. intros _.
  apply bind_not_ok. intros pos_param.
  apply bind_not_ok. intros spatial.
  apply bind_not_ok. intros pos_embed.
  apply bind_err_l. apply bind_err_l.
  apply (mask_tokens_raises w kw). exact Hinit.
Qed.

Example C2_failing_input :
  (self <- PerceiverVisionTransformer.init tiny_init tiny_kwargs ;;
   visual_embed (fun t => t) self false tiny_rnd (Image tiny_image)
                (VInt 3) true)
  = Err (AttributeError "mask_token").
Proof. vm_compute. reflexivity. Qed.





(** ** The temporal embedding of a clip *)


Lemma Forall_firstn_skipn {A : Type} (P : A -> Prop) (l : list A) (a k : nat) :
  Forall P l -> Forall P (firstn k (skipn a l)).
Proof.
  intros H.
  assert (Hs : Forall P (skipn a l)).
  { clear k. revert a. induction H as [|y l Hy Hl IH]; intros [|a]; simpl;
      [constructor | constructor | constructor; assumption | apply IH]. }
  revert Hs. generalize (skipn a l). intros m Hm. revert k.
  induction Hm as [|y m Hy _ IH]; intros [|k]; simpl; constructor; auto.
Qed.










(** ** The patch embedding *)










(** ** The attention weights of masked keys *)

Lemma softmax_row_length (row : list fval) :
  length (softmax_row row) = length row.
Proof.
  unfold softmax_row. destruct (_ || _); apply length_map.
Qed.

Lemma softmax_row_masked (row : list fval) (j : nat) :
  existsb is_nan row = false ->
  forallb is_neginf row = false ->
  nth j row NaN = NegInf ->
  nth j (softmax_row row) NaN = Fin 0.
Proof.
  intros Hnan Hall Hj.
  assert (Hlt : (j < length row)%nat).
  { destruct (Nat.lt_ge_cases j (length row)) as [H|H]; [exact H|].
    rewrite nth_overflow in Hj by exact H. discriminate Hj. }
  unfold softmax_row. rewrite Hnan, Hall. cbn [orb].
  rewrite (nth_map_default _ row j NaN NaN) by exact Hlt.
  rewrite Hj. cbn [fexp]. f_equal. unfold Rdiv. apply Rmult_0_l.
Qed.

Lemma softmax_row_all_masked (row : list fval) (j : nat) :
  forallb is_neginf row = true ->
  nth j (softmax_row row) NaN = NaN.
Proof.
  intros Hall. unfold softmax_row. rewrite Hall, orb_true_r.
  destruct (Nat.lt_ge_cases j (length row)) as [H|H].
  - rewrite (nth_map_default _ row j NaN NaN) by exact H. reflexivity.
  - apply nth_overflow. rewrite length_map. exact H.
Qed.

Section MaskedRow.

Variables (m : list (list Z)) (b : nat) (logit : nat -> list R -> R).
Variable k : list (list R).

Let row : list fval :=
  imap (fun j kj => mask_fill (Some m) b j (Fin (logit j kj))) k.





End MaskedRow.



(** Without any unmasked key the softmax has no finite entry and the
    weights are not numbers: the precondition of C5 cannot be dropped. *)
Lemma attention_all_masked :
  exists a,
    Attention_forward tiny_attention tiny_qkv false tiny_rnd 0 tiny_tokens
                      (Some [[0; 0]%Z]) = Ok a
    /\ nth 0 (nth 0 (nth 0 (nth 0 a []) []) []) (Fin 0) = NaN.
Proof.
  eexists. split; [reflexivity|].
  cbn. reflexivity.
Qed.

(** ** Resizing the position table *)

Ltac untype := unfold T4, T3, T2, T1 in *.

Lemma map_chunks {A B : Type} (f : A -> B) (size count : nat) (l : list A) :
  map (map f) (chunks size count l) = chunks size count (map f l).
Proof.
  revert l. induction count as [|c IH]; intros l; simpl; [reflexivity|].
  rewrite IH, firstn_map, skipn_map. reflexivity.
Qed.

Lemma hd_chunks {A : Type} (size count : nat) (l : list A) :
  (0 < count)%nat -> hd [] (chunks size count l) = firstn size l.
Proof. destruct count; [lia | reflexivity]. Qed.

Lemma resized_table_shape (table : T2) (D g gs_new : nat) :
  rect2 (g * g + 1) D table ->
  length (resized_table table D g gs_new) = (gs_new * gs_new + 1)%nat
  /\ hd [] (resized_table table D g gs_new) = hd [] table
  /\ length (hd [] (resized_table table D g gs_new)) = D.
Proof.
  intros [Hl Hall]. unfold resized_table.
  destruct table as [|row0 rest]; [simpl in Hl; lia|].
  cbn [firstn app hd length]. rewrite length_tabulate.
  split; [lia|]. split; [reflexivity|].
  inversion Hall; assumption.
Qed.

Lemma resize_pos_embed_spec (table : T2) (posemb_new : T3) (D g : nat) :
  rect2 (g * g + 1) D table -> (0 < g)%nat -> (0 < D)%nat ->
  (0 < isqrt (length (hd [] posemb_new) - 1))%nat ->
  isqrt (length table - 1) = g
  /\ resize_pos_embed [table] posemb_new
     = Ok [resized_table table D g
             (isqrt (length (hd [] posemb_new) - 1))].
Proof.
  intros Ht Hg HD Hnew. unfold T3, T2, T1 in *.
  set (gs := isqrt (length (hd [] posemb_new) - 1)) in *.
  destruct Ht as [Hl Hall].
  assert (Hgg : isqrt (g * g) = g) by apply Nat.sqrt_square.
  split; [rewrite Hl, Nat.add_sub; exact Hgg|].
  assert (Hntok : (0 < length (hd [] posemb_new))%nat).
  { destruct (length (hd [] posemb_new)) eqn:E; [|lia].
    unfold gs in Hnew. change (isqrt (0 - 1)) with 0%nat in Hnew. lia. }
  assert (Htl : length (tl table) = (g * g)%nat)
    by (destruct table; cbn [length tl] in *; lia).
  assert (Htlall : Forall (fun r => length r = D) (tl table))
    by (destruct table; [constructor | inversion Hall; assumption]).
  assert (Hgpos : (0 < g * g)%nat) by nia.
  unfold resize_pos_embed. unfold T3, T2, T1 in *.
  change (0 <? length [table])%nat with true. cbn [guard bind nth].
  rewrite (proj2 (Nat.ltb_lt _ _) Hntok). cbn [guard bind].
  rewrite Htl, Hgg. fold gs.
  unfold reshape_infer_last.
  destruct (Nat.eqb_spec (g * g) 0) as [E|_]; [lia|].
  rewrite (length_concat_rect D) by exact Htlall.
  rewrite Htl, (Nat.mul_comm (g * g) D).
  rewrite Nat.Div0.mod_mul, Nat.eqb_refl, Nat.div_mul by lia.
  cbn [bind].
  replace (chunks D (g * g) (concat (tl table))) with (tl table)
    by (rewrite <- Htl; symmetry; apply chunks_concat; exact Htlall).
  unfold interpolate_size_check.
  rewrite (proj2 (Nat.ltb_lt 0 g) Hg), (proj2 (Nat.ltb_lt 0 gs) Hnew).
  cbn [andb guard bind].
  assert (Hcf : channels_first (chunks g g (tl table))
                = tabulate D (position_grid table g)).
  { unfold channels_first.
    rewrite hd_chunks by exact Hg.
    assert (HD' : length (hd [] (firstn g (tl table))) = D).
    { destruct (tl table) as [|r rs] eqn:Etl; [simpl in Htl; lia|].
      destruct g; [lia|]. cbn [firstn hd].
      inversion Htlall; assumption. }
    untype. rewrite HD'. apply tabulate_ext. intros c Hc.
    rewrite map_chunks. apply chunks_grid. untype. lia. }
  rewrite Hcf, length_tabulate, (proj2 (Nat.ltb_lt 0 D) HD).
  cbn [guard bind]. rewrite map_tabulate. cbv beta. untype.
  set (bil := fun c => bilinear2d false (position_grid table g c) g g gs gs).
  assert (Hgrid : concat (channels_last gs gs (tabulate D bil))
                  = tabulate (gs * gs) (fun q =>
                      tabulate D (fun c => at2 (bil c) (q / gs) (q mod gs)))).
  { unfold channels_last.
    apply (list_ext []).
    - rewrite (length_concat_rect gs) by apply rect2_tabulate.
      rewrite !length_tabulate. reflexivity.
    - intros q Hq.
      rewrite (length_concat_rect gs) in Hq by apply rect2_tabulate.
      rewrite length_tabulate in Hq. untype.
      rewrite (nth_concat_grid [] gs gs) by (apply rect2_tabulate || exact Hq).
      assert (Hq1 : (q / gs < gs)%nat)
        by (apply Nat.Div0.div_lt_upper_bound; exact Hq).
      assert (Hq2 : (q mod gs < gs)%nat) by (apply Nat.mod_upper_bound; lia).
      rewrite !nth_tabulate by assumption.
      apply map_tabulate. }
  untype. rewrite Hgrid.
  assert (Hhd : length (hd [] (tabulate (gs * gs) (fun q =>
                  tabulate D (fun c => at2 (bil c) (q / gs) (q mod gs))))) = D).
  { rewrite hd_nth, nth_tabulate by nia. apply length_tabulate. }
  rewrite Hhd.
  assert (Hrow0 : length (hd [] table) = D).
  { destruct table; [simpl in Hl; lia | inversion Hall; assumption]. }
  cbn [hd length Nat.eqb andb map]. rewrite Hrow0, Nat.eqb_refl.
  reflexivity.
Qed.

(** ** The checkpoint filter *)

Lemma Forall_chunks_elems {A : Type} (P : A -> Prop) (size count : nat)
    (l : list A) :
  Forall P l -> Forall (Forall P) (chunks size count l).
Proof.
  intros H. apply Forall_forall. intros c Hc.
  apply (In_nth _ _ []) in Hc as (i & Hi & <-).
  rewrite length_chunks in Hi. rewrite nth_chunks by exact Hi.
  apply Forall_firstn_skipn. exact H.
Qed.

Lemma reshape_conv_spec (Oc X H W : nat) (data : list Q) :
  (0 < Oc)%nat -> (0 < X)%nat -> (0 < H)%nat -> (0 < W)%nat ->
  length data = (Oc * X * H * W)%nat ->
  exists v',
    reshape_conv Oc H W data = Ok v'
    /\ rect4 Oc X H W v'
    /\ concat (concat (concat v')) = data.
Proof.
  intros HO HX HH HW Hlen. unfold reshape_conv.
  assert (Hk : (0 < Oc * H * W)%nat) by nia.
  destruct (Nat.eqb_spec (Oc * H * W) 0) as [E|_]; [lia|].
  assert (Hlen' : length data = (X * (Oc * H * W))%nat) by (rewrite Hlen; ring).
  rewrite Hlen', Nat.Div0.mod_mul, Nat.eqb_refl, Nat.div_mul by lia.
  set (L1 := chunks W (Oc * X * H) data).
  set (L2 := chunks H (Oc * X) L1).
  assert (HL1 : length L1 = (Oc * X * H)%nat) by apply length_chunks.
  assert (HL2 : length L2 = (Oc * X)%nat) by apply length_chunks.
  assert (H1 : Forall (fun r => length r = W) L1)
    by (apply Forall_chunks_length; lia).
  assert (H2 : Forall (fun r => length r = H) L2).
  { apply Forall_chunks_length. lia. }
  assert (H2' : Forall (rect2 H W) L2).
  { pose proof (Forall_chunks_elems _ H (Oc * X) L1 H1) as Hel.
    fold L2 in Hel. rewrite Forall_forall in *.
    intros g Hg. split; [apply H2, Hg | apply Hel, Hg]. }
  eexists. split; [reflexivity|]. split.
  - split; [apply length_chunks|].
    pose proof (Forall_chunks_elems _ X Oc L2 H2') as Hel.
    assert (H3 : Forall (fun r => length r = X) (chunks X Oc L2)).
    { apply Forall_chunks_length. lia. }
    rewrite Forall_forall in *.
    intros t Ht. split; [apply H3, Ht | apply Hel, Ht].
  - rewrite concat_chunks by exact HL2.
    unfold L2. rewrite concat_chunks by exact HL1.
    unfold L1. apply concat_chunks. lia.
Qed.

Lemma patch_weight_not_pos_embed (k : string) (v : tensor) (pe : T3) :
  is_patch_weight k v = true -> is_resized pe k v = false.
Proof.
  unfold is_patch_weight, is_resized. intros H.
  apply andb_prop in H as [Hc _].
  destruct (String.eqb_spec k "pos_embed") as [->|_]; [|reflexivity].
  vm_compute in Hc. discriminate Hc.
Qed.

Lemma filter_entry_spec (model : PerceiverVisionTransformer.t) (pe : T3)
    (Oc I H W : nat) (k : string) (v : tensor) :
  PerceiverVisionTransformer.getattr model "pos_embed" = Ok pe ->
  shape4 (weight (PatchEmbed.proj
                    (PerceiverVisionTransformer.patch_embed model)))
  = (Oc, I, H, W) ->
  entry_ready pe Oc H W k v ->
  exists v', filter_entry model k v = Ok v' /\ entry_spec pe Oc H W k v v'.
Proof.
  intros Hpe Hw [Hr1 Hr2]. unfold filter_entry, entry_spec.
  pose proof (patch_weight_not_pos_embed k v pe) as Hexcl.
  destruct (is_patch_weight k v) eqn:Ep.
  - unfold is_patch_weight in Ep. rewrite Ep, Hw.
    destruct (Hr1 eq_refl) as (X & (HO & HX & HH & HW) & Hlen).
    destruct (reshape_conv_spec Oc X H W (flat v) HO HX HH HW Hlen)
      as (v' & Hv' & Hrect & Hflat).
    rewrite Hv'. cbn [bind]. eexists. split; [reflexivity|].
    split; [|split].
    + intros _. split; [exact Hflat|]. exists X. cbn [shape_of].
      rewrite (shape4_rect _ _ _ _ _ Hrect) by assumption.
      split; [reflexivity | exact Hlen].
    + intros Hres. rewrite (Hexcl eq_refl) in Hres. discriminate Hres.
    + intros Hf. discriminate Hf.
  - unfold is_patch_weight in Ep. rewrite Ep.
    destruct (is_resized pe k v) eqn:Er.
    + unfold is_resized in Er. apply andb_prop in Er as [Ek Es].
      rewrite Ek, Hpe. cbn [bind]. rewrite Es.
      destruct (Hr2 eq_refl) as (table & g & D & -> & Ht & [Hg HD] & Hnew).
      destruct (resize_pos_embed_spec table pe D g Ht Hg HD Hnew)
        as [Hgs Hres].
      rewrite Hres. cbn [bind]. eexists. split; [reflexivity|].
      destruct (resized_table_shape table D g
                  (isqrt (length (hd [] pe) - 1)) Ht) as (Hl & Hhd & HlD).
      split; [intros Hf; discriminate Hf|]. split.
      * intros _. exists table, D. cbv zeta. rewrite Hgs.
        split; [reflexivity|]. split; [reflexivity|]. split; [|exact Hhd].
        cbn [shape_of shape3 length hd]. unfold T3, T2, T1 in *.
        rewrite Hl, HlD. reflexivity.
      * intros _ Hf. discriminate Hf.
    + assert (Hv : (if String.eqb k "pos_embed"
                    then pos_embed <- PerceiverVisionTransformer.getattr
                                        model "pos_embed" ;;
                         if negb (shape_eqb (shape_of v)
                                            (shape_of (Tn3 pos_embed)))
                         then match v with
                              | Tn3 posemb =>
                                  v' <- resize_pos_embed posemb pos_embed ;;
                                  Ok (Tn3 v')
                              | Tn1 _ =>
                                  Err (IndexError "too many indices for tensor of dimension 1")
                              | Tn2 t =>
                                  v' <- resize_other_rank (length t) pos_embed ;;
                                  Ok (Tn3 v')
                              | Tn4 t =>
                                  v' <- resize_other_rank (length t) pos_embed ;;
                                  Ok (Tn3 v')
                              end
                         else Ok v
                    else Ok v) = Ok v).
      { unfold is_resized in Er.
        destruct (String.eqb k "pos_embed"); [|reflexivity].
        rewrite Hpe. cbn [bind]. cbn [andb] in Er. rewrite Er. reflexivity. }
      rewrite Hv. exists v. split; [reflexivity|].
      split; [intros Hf; discriminate Hf|].
      split; [intros Hf; discriminate Hf | reflexivity].
Qed.

Lemma mapM_Forall2_ok {A B : Type} (f : A -> result B) (P : A -> Prop)
    (R : A -> B -> Prop) (l : list A) :
  (forall a, P a -> exists b, f a = Ok b /\ R a b) ->
  Forall P l ->
  exists bs, mapM f l = Ok bs /\ Forall2 R l bs.
Proof.
  intros Hf. induction 1 as [|a l Ha _ (bs & Hbs & HR)].
  - exists []. split; [reflexivity | constructor].
  - destruct (Hf a Ha) as (b & Hb & Hab).
    exists (b :: bs). cbn [mapM]. rewrite Hb. cbn [bind]. rewrite Hbs.
    split; [reflexivity | constructor; assumption].
Qed.



(** ** The constructor: keywords it rejects and keywords it ignores *)

Lemma find_app_some {A : Type} (f : A -> bool) (l l' : list A) (a : A) :
  find f l = Some a -> find f (l ++ l') = Some a.
Proof.
  induction l as [|b l IH]; simpl; [discriminate|].
  destruct (f b); auto.
Qed.

Lemma find_exists {A : Type} (f : A -> bool) (l : list A) (a : A) :
  In a l -> f a = true -> exists b, find f l = Some b /\ f b = true.
Proof.
  intros Hin Hf. destruct (find f l) as [b|] eqn:E.
  - exists b. split; [reflexivity|]. apply (find_some _ _ E).
  - rewrite (find_none _ _ E a Hin) in Hf. discriminate Hf.
Qed.

(** The constructor has no catch-all keyword parameter: a call with any
    keyword that is not one of its twenty parameters, such as the
    documented [hybrid_backbone], raises [TypeError] naming an offending
    keyword, before anything is built. *)
Theorem init_rejects_unknown_keyword :
  forall (w : initializer) (kw : kwargs) (k : string) (v : pyval),
    In (k, v) kw ->
    has_key k PerceiverVisionTransformer.signature = false ->
    exists k',
      has_key k' PerceiverVisionTransformer.signature = false
      /\ has_key k' kw = true
      /\ PerceiverVisionTransformer.init w kw
         = Err (TypeError ("got an unexpected keyword argument " ++ k')).
Proof.
  intros w kw k v Hin Hk.
  destruct (find_exists
              (fun kv => negb (has_key (fst kv)
                                 PerceiverVisionTransformer.signature))
              kw (k, v) Hin) as ([k' v'] & Hf & Hk').
  { cbn [fst]. rewrite Hk. reflexivity. }
  exists k'. cbn [fst] in Hk'. apply negb_true_iff in Hk'.
  split; [exact Hk'|]. split.
  - apply find_some in Hf as [Hin' _]. unfold has_key.
    clear - Hin'. induction kw as [|[k1 v1] l IH]; [contradiction|].
    simpl. destruct (String.eqb k' k1) eqn:E; [reflexivity|].
    destruct Hin' as [Heq|Hin']; [|auto].
    inversion Heq; subst. rewrite String.eqb_refl in E. discriminate E.
  - unfold PerceiverVisionTransformer.init, bind_signature. rewrite Hf.
    reflexivity.
Qed.

Lemma init_rejects_unknown_keyword_witness :
  exists k',
    PerceiverVisionTransformer.init tiny_init
      (tiny_kwargs ++ [("hybrid_backbone"%string, VObj "resnet26d")])
    = Err (TypeError ("got an unexpected keyword argument " ++ k')).
Proof.
  destruct (init_rejects_unknown_keyword tiny_init
              (tiny_kwargs ++ [("hybrid_backbone"%string, VObj "resnet26d")])
              "hybrid_backbone" (VObj "resnet26d")
              ltac:(simpl; auto 10) ltac:(reflexivity))
    as (k' & _ & _ & H).
  exists k'. exact H.
Defined.

(** The constructor never reads its parameters [no_patch_embed_bias] and
    [representation_size]: passing either, with any value, builds exactly
    the model built without it. In particular the patch projection keeps
    its bias under [no_patch_embed_bias=True]. *)
Theorem init_ignores_bias_and_representation :
  forall (w : initializer) (kw : kwargs) (k : string) (v : pyval),
    k = "no_patch_embed_bias"%string \/ k = "representation_size"%string ->
    has_key k kw = false ->
    PerceiverVisionTransformer.init w (kw ++ [(k, v)])
    = PerceiverVisionTransformer.init w kw
    /\ forall m, PerceiverVisionTransformer.init w (kw ++ [(k, v)]) = Ok m ->
         bias (PatchEmbed.proj (PerceiverVisionTransformer.patch_embed m))
         <> None.
Proof.
  intros w kw k v Hk Hno.
  assert (Heq : PerceiverVisionTransformer.init w (kw ++ [(k, v)])
                = PerceiverVisionTransformer.init w kw).
  { unfold PerceiverVisionTransformer.init, bind_signature.
    destruct (find _ kw) as [[k0 v0]|] eqn:Hf.
    - rewrite (find_app_some _ _ _ _ Hf). reflexivity.
    - rewrite (find_app_none _ _ _ Hf)
        by (destruct Hk as [-> | ->]; reflexivity).
      cbn [bind]. unfold PerceiverVisionTransformer.init_body.
      cbn [map PerceiverVisionTransformer.signature fst snd].
      cbn [get lookup String.eqb Ascii.eqb Bool.eqb].
      destruct Hk as [-> | ->];
        repeat rewrite get_app_other by reflexivity; reflexivity. }
  split; [exact Heq|].
  intros m Hm. rewrite Heq in Hm.
  destruct (init_inv _ _ _ Hm) as (D & ic & img & ps & depth & nh & Hc).
  rewrite (c_patch_embed Hc). cbn. discriminate.
Qed.

Lemma init_ignores_bias_and_representation_witness :
  PerceiverVisionTransformer.init tiny_init
    (tiny_kwargs ++ [("no_patch_embed_bias"%string, VBool true)])
  = PerceiverVisionTransformer.init tiny_init tiny_kwargs.
Proof.
  exact (proj1 (init_ignores_bias_and_representation tiny_init tiny_kwargs
                  "no_patch_embed_bias" (VBool true)
                  (or_introl eq_refl) eq_refl)).
Defined.

(** [img_size] and [patch_size] are documented as [int] or [tuple], and
    [PatchEmbed] takes both; the constructor computes
    [img_size // patch_size] on them, so a call that gives either one as
    a tuple never returns a model. *)
Theorem init_rejects_tuple_sizes :
  forall (w : initializer) (kw : kwargs) (k : string) (a b : Z),
    k = "img_size"%string \/ k = "patch_size"%string ->
    lookup k kw = Some (VPair a b) ->
    is_ok (PerceiverVisionTransformer.init w kw) = false.
Proof.
  intros w kw k a b Hk Hl.
  unfold PerceiverVisionTransformer.init, bind_signature.
  destruct (find _ kw) as [[k0 v0]|] eqn:Hf; [reflexivity|].
  cbn [bind]. unfold PerceiverVisionTransformer.init_body.
  cbn [map PerceiverVisionTransformer.signature fst snd].
  cbn [get lookup String.eqb Ascii.eqb Bool.eqb].
  assert (Hb : forall (A B : Type) (r : result A) (f : A -> result B),
             (forall x, is_ok (f x) = false) -> is_ok (bind r f) = false).
  { intros A B r f H. destruct r; simpl; auto. }
  apply Hb; intros D. apply Hb; intros ic. apply Hb; intros pe.
  destruct Hk as [-> | ->].
  - unfold get at 1. rewrite Hl. reflexivity.
  - apply Hb; intros img. unfold get at 1. rewrite Hl. reflexivity.
Qed.

Lemma init_rejects_tuple_sizes_witness :
  is_ok (PerceiverVisionTransformer.init tiny_init
           [("img_size"%string, VPair 4 4); ("patch_size"%string, VInt 2)])
  = false.
Proof.
  exact (init_rejects_tuple_sizes tiny_init
           [("img_size"%string, VPair 4 4); ("patch_size"%string, VInt 2)]
           "img_size" 4 4 (or_introl eq_refl) eq_refl).
Defined.

(** ** What a constructed model keeps *)

Lemma Block_init_inv dim nh mr qb qs d ad dp nl b :
  Block.init dim nh mr qb qs d ad dp nl = Ok b ->
  Block.drop_path b = dp
  /\ Attention.num_heads (Block.attn b) = nh
  /\ Attention.attn_drop (Block.attn b) = ad
  /\ Attention.proj_drop (Block.attn b) = d
  /\ out_features (Attention.qkv (Block.attn b)) = (dim * 3)%Z
  /\ in_features (Mlp.fc1 (Block.mlp b)) = dim
  /\ out_features (Mlp.fc2 (Block.mlp b)) = dim
  /\ out_features (Mlp.fc1 (Block.mlp b))
     = (if (int_of_Q (inject_Z dim * mr) =? 0)%Z then dim
        else int_of_Q (inject_Z dim * mr))
  /\ nh <> 0%Z.
Proof.
  unfold Block.init. intros H.
  apply bind_ok in H as (n1 & Hn1 & H).
  apply bind_ok in H as (at' & Hat & H).
  apply bind_ok in H as (n2 & Hn2 & H).
  apply bind_ok in H as (ml & Hml & H).
  inversion H; subst b; clear H. cbn.
  unfold Attention.init in Hat.
  apply bind_ok in Hat as (hd & Hhd & Hat).
  apply floordiv_ok in Hhd as [Hnh _].
  apply bind_ok in Hat as (sc & Hsc & Hat).
  apply bind_ok in Hat as (qkv & Hqkv & Hat).
  apply bind_ok in Hat as (adp & Hadp & Hat).
  apply bind_ok in Hat as (pr & Hpr & Hat).
  apply bind_ok in Hat as (pdp & Hpdp & Hat).
  inversion Hat; subst at'; clear Hat. cbn.
  unfold Dropout_init in Hadp, Hpdp.
  apply bind_ok in Hadp as (u1 & _ & Hadp). inversion Hadp; subst adp.
  apply bind_ok in Hpdp as (u2 & _ & Hpdp). inversion Hpdp; subst pdp.
  unfold Linear_init in Hqkv.
  apply bind_ok in Hqkv as (u3 & _ & Hqkv). inversion Hqkv; subst qkv.
  unfold Mlp.init in Hml.
  apply bind_ok in Hml as (f1 & Hf1 & Hml).
  apply bind_ok in Hml as (f2 & Hf2 & Hml).
  apply bind_ok in Hml as (dd & Hdd & Hml).
  inversion Hml; subst ml; clear Hml. cbn.
  unfold Linear_init in Hf1, Hf2.
  apply bind_ok in Hf1 as (u4 & _ & Hf1). inversion Hf1; subst f1.
  apply bind_ok in Hf2 as (u5 & _ & Hf2). inversion Hf2; subst f2.
  cbn. repeat split; try reflexivity. exact Hnh.
Qed.

Lemma init_inv_full (w : initializer) (kw : kwargs)
    (m : PerceiverVisionTransformer.t) :
  PerceiverVisionTransformer.init w kw = Ok m ->
  exists D ic img ps depth nh dr dprate mr adr qs,
    constructed w kw m D ic img ps depth nh
    /\ kw_num "drop_rate" (VFloat 0) kw = Ok dr
    /\ kw_num "drop_path_rate" (VFloat 0) kw = Ok dprate
    /\ kw_num "mlp_ratio" (VFloat 4) kw = Ok mr
    /\ kw_num "attn_drop_rate" (VFloat 0) kw = Ok adr
    /\ PerceiverVisionTransformer.num_features m = D
    /\ PerceiverVisionTransformer.total_output_patch m
       = (img / ps * (img / ps) + 1)%Z
    /\ PerceiverVisionTransformer.num_classes m
       = get "num_classes" (VInt 1000) kw
    /\ PerceiverVisionTransformer.pos_drop m = dr
    /\ Qle_bool 0 dr && Qle_bool dr 1 = true
    /\ PerceiverVisionTransformer.default_cfg m = None
    /\ Forall2 (fun dp b =>
                  Block.init D nh mr (truthy (get "qkv_bias" (VBool true) kw))
                             qs dr adr dp
                             (if truthy (get "norm_layer" VNone kw)
                              then get "norm_layer" VNone kw
                              else VObj "partial(nn.LayerNorm, eps=1e-6)")
                  = Ok b)
               (tabulate (Z.to_nat depth) (dpr_rule dprate depth))
               (PerceiverVisionTransformer.blocks m).
Proof.
  intros H. pose proof (init_inv _ _ _ H) as (D & ic & img & ps & depth & nh & Hc).
  unfold PerceiverVisionTransformer.init, bind_signature in H.
  destruct (find _ kw) as [[k0 v0]|] eqn:Hf; [discriminate|].
  cbn [bind] in H.
  unfold PerceiverVisionTransformer.init_body in H.
  cbn [map PerceiverVisionTransformer.signature fst snd] in H.
  cbn [get lookup String.eqb Ascii.eqb Bool.eqb] in H.
  fold (get "pretrained"%string (VBool false) kw) in H.
  fold (get "embed_dim"%string (VInt 768) kw) in H.
  fold (get "in_chans"%string (VInt 3) kw) in H.
  fold (get "img_size"%string (VInt 224) kw) in H.
  fold (get "patch_size"%string (VInt 16) kw) in H.
  fold (get "depth"%string (VInt 12) kw) in H.
  fold (get "num_heads"%string (VInt 12) kw) in H.
  pose proof (c_embed_dim _ _ _ _ _ _ _ _ _ Hc) as HD.
  pose proof (c_in_chans _ _ _ _ _ _ _ _ _ Hc) as Hic.
  pose proof (c_img_size _ _ _ _ _ _ _ _ _ Hc) as Himg.
  pose proof (c_patch_size _ _ _ _ _ _ _ _ _ Hc) as Hps.
  pose proof (c_depth _ _ _ _ _ _ _ _ _ Hc) as Hdepth.
  pose proof (c_num_heads _ _ _ _ _ _ _ _ _ Hc) as Hnh.
  unfold kw_int in HD, Hic, Himg, Hps, Hdepth, Hnh.
  rewrite HD, Hic in H. cbn [bind] in H.
  apply bind_ok in H as (pe & Hpe & H).
  rewrite Himg, Hps in H. cbn [bind] in H.
  apply bind_ok in H as (pd & Hpd & H).
  apply bind_ok in H as (u1 & Hu1 & H).
  apply bind_ok in H as (u2 & Hu2 & H).
  apply bind_ok in H as (dr & Hdr & H).
  apply bind_ok in H as (pdr & Hpdr & H).
  apply bind_ok in H as (u3 & Hu3 & H).
  apply bind_ok in H as (pn & Hpn & H).
  rewrite Hdepth in H. cbn [bind] in H.
  apply bind_ok in H as (dprate & Hdprate & H).
  apply bind_ok in H as (dpr & Hdpr & H).
  rewrite Hnh in H. cbn [bind] in H.
  apply bind_ok in H as (mr & Hmr & H).
  apply bind_ok in H as (qs & Hqs & H).
  apply bind_ok in H as (adr & Hadr & H).
  apply bind_ok in H as (blocks & Hblocks & H).
  apply bind_ok in H as (nrm & Hnrm & H).
  apply bind_ok in H as (u4 & Hu4 & H).
  exists D, ic, img, ps, depth, nh, dr, dprate, mr, adr, qs.
  split; [exact Hc|].
  unfold Dropout_init in Hpdr.
  apply bind_ok in Hpdr as (u5 & Hu5 & Hpdr). apply guard_ok in Hu5.
  inversion Hpdr; subst pdr; clear Hpdr.
  unfold linspace0 in Hdpr.
  apply bind_ok in Hdpr as (u6 & Hu6 & Hdpr).
  inversion Hdpr; subst dpr; clear Hdpr.
  pose proof (mapM_Forall2 _ _ _ Hblocks) as Hall.
  unfold PatchEmbed.init in Hpe.
  rewrite (to_2tuple_as_int _ _ _ Himg), (to_2tuple_as_int _ _ _ Hps) in Hpe.
  cbn [bind fst snd] in Hpe.
  apply bind_ok in Hpe as (n1 & Hn1 & Hpe).
  apply bind_ok in Hpe as (n2 & Hn2 & Hpe).
  apply floordiv_ok in Hn1 as [_ ->]. apply floordiv_ok in Hn2 as [_ ->].
  apply bind_ok in Hpe as (cv & Hcv & Hpe).
  inversion Hpe; subst pe; clear Hpe. cbn [PatchEmbed.num_patches] in H.
  inversion H; subst m; clear H. cbn.
  unfold kw_num. repeat split; try assumption; try reflexivity.
Qed.

(** A model the constructor returns has a class token of shape
    [[1, 1, embed_dim]], a position table of shape
    [[1, patch_dim * patch_dim + 1, embed_dim]], where
    [patch_dim = img_size // patch_size] and
    [num_patches = patch_dim * patch_dim], a temporal table of shape
    [[1, 64, embed_dim]] exactly when it was built with [use_video],
    [total_output_patch = num_patches + 1], [num_features = embed_dim],
    as many blocks as [depth], each with [num_heads] heads, and a patch
    projection with bias whose kernel and stride are the patch size. *)
Theorem init_model_invariants :
  forall (w : initializer) (kw : kwargs) (m : PerceiverVisionTransformer.t),
    PerceiverVisionTransformer.init w kw = Ok m ->
    let D := Z.to_nat (PerceiverVisionTransformer.embed_dim m) in
    let pd := PerceiverVisionTransformer.patch_dim m in
    let ps := PerceiverVisionTransformer.patch_size m in
    let pe := PerceiverVisionTransformer.patch_embed m in
    (0 <= PerceiverVisionTransformer.embed_dim m /\ 0 < ps)%Z
    /\ PerceiverVisionTransformer.num_features m
       = PerceiverVisionTransformer.embed_dim m
    /\ PatchEmbed.num_patches pe = (pd * pd)%Z
    /\ PerceiverVisionTransformer.total_output_patch m = (pd * pd + 1)%Z
    /\ (exists cls, PerceiverVisionTransformer.getattr m "cls_token" = Ok cls
                    /\ rect3 1 1 D cls)
    /\ (exists pos, PerceiverVisionTransformer.getattr m "pos_embed" = Ok pos
                    /\ rect3 1 (Z.to_nat (pd * pd + 1)) D pos)
    /\ (if PerceiverVisionTransformer.use_video m
        then exists te,
               PerceiverVisionTransformer.getattr m "temporal_embed" = Ok te
               /\ rect3 1 64 D te
               /\ PerceiverVisionTransformer.max_frames m <> None
        else PerceiverVisionTransformer.getattr m "temporal_embed"
             = Err (AttributeError "temporal_embed")
             /\ PerceiverVisionTransformer.max_frames m = None)
    /\ kw_int "depth" 12 kw
       = Ok (Z.of_nat (length (PerceiverVisionTransformer.blocks m)))
    /\ (exists nh,
          kw_int "num_heads" 12 kw = Ok nh
          /\ Forall (fun b => Attention.num_heads (Block.attn b) = nh
                              /\ nh <> 0%Z)
                    (PerceiverVisionTransformer.blocks m))
    /\ kernel_size (PatchEmbed.proj pe) = (ps, ps)
    /\ stride (PatchEmbed.proj pe) = (ps, ps)
    /\ padding (PatchEmbed.proj pe) = (0, 0)%Z
    /\ bias (PatchEmbed.proj pe) <> None
    /\ rect4 D (Z.to_nat (in_channels (PatchEmbed.proj pe)))
             (Z.to_nat ps) (Z.to_nat ps) (weight (PatchEmbed.proj pe)).
Proof.
  intros w kw m Hinit. cbv zeta.
  destruct (init_inv_full _ _ _ Hinit)
    as (D & ic & img & ps & depth & nh & dr & dprate & mr & adr & qs & Hc
        & _ & _ & _ & _ & Hnf & Htot & _ & _ & _ & _ & Hblocks).
  destruct (c_nonneg Hc) as (HD & Hic & Hps & Hdepth).
  pose proof (c_ps_nonzero Hc) as Hps0.
  rewrite (c_embed_dim_attr Hc), (c_patch_size_attr Hc), (c_patch_dim Hc),
          (c_patch_embed Hc), Hnf, Htot.
  cbn [PatchEmbed.num_patches PatchEmbed.proj kernel_size stride padding bias
       weight in_channels].
  split; [lia|]. split; [reflexivity|]. split; [reflexivity|].
  split; [reflexivity|].
  split; [eexists; split; [apply (getattr_cls_token _ _ _ _ _ _ _ _ _ Hc)
                          | apply rect3_mk3]|].
  split; [eexists; split; [apply (getattr_pos_embed _ _ _ _ _ _ _ _ _ Hc)
                          | apply rect3_mk3]|].
  split.
  { rewrite (getattr_temporal_embed _ _ _ _ _ _ _ _ _ Hc), (c_max_frames Hc),
            (c_use_video Hc).
    destruct (truthy (get "use_video" (VBool false) kw)).
    - eexists. split; [reflexivity|]. split; [apply rect3_mk3 | discriminate].
    - split; reflexivity. }
  split.
  { rewrite (c_blocks Hc), Z2Nat.id by exact Hdepth.
    exact (c_depth _ _ _ _ _ _ _ _ _ Hc). }
  split.
  { exists nh. split; [exact (c_num_heads _ _ _ _ _ _ _ _ _ Hc)|].
    clear - Hblocks. induction Hblocks as [|dp b l l' Hb _ IH]; constructor; auto.
    apply Block_init_inv in Hb as (_ & H1 & _ & _ & _ & _ & _ & _ & H2). auto. }
  split; [reflexivity|]. split; [reflexivity|]. split; [reflexivity|].
  split; [discriminate | apply rect4_mk4].
Qed.

Lemma init_model_invariants_witness :
  match PerceiverVisionTransformer.init tiny_init tiny_kwargs with
  | Ok m =>
      PatchEmbed.num_patches (PerceiverVisionTransformer.patch_embed m)
      = (PerceiverVisionTransformer.patch_dim m
         * PerceiverVisionTransformer.patch_dim m)%Z
      /\ kw_int "depth" 12 tiny_kwargs
         = Ok (Z.of_nat (length (PerceiverVisionTransformer.blocks m)))
  | Err _ => False
  end.
Proof.
  destruct (PerceiverVisionTransformer.init tiny_init tiny_kwargs)
    as [m|e] eqn:E.
  - destruct (init_model_invariants tiny_init tiny_kwargs m E)
      as (_ & _ & H1 & _ & _ & _ & _ & H2 & _).
    split; [exact H1 | exact H2].
  - vm_compute in E. discriminate E.
Defined.

(** ** The stochastic depth decay rule *)

Lemma dpr_rule_first (r : Q) (depth : Z) : dpr_rule r depth 0 == 0.
Proof.
  unfold dpr_rule. destruct (depth =? 1)%Z; [reflexivity|].
  change (inject_Z (Z.of_nat 0)) with 0. unfold Qdiv. ring.
Qed.

Lemma dpr_rule_last (r : Q) (depth : Z) :
  (2 <= depth)%Z -> dpr_rule r depth (Z.to_nat (depth - 1)) == r.
Proof.
  intros Hd. unfold dpr_rule.
  destruct (Z.eqb_spec depth 1) as [E|_]; [lia|].
  rewrite Z2Nat.id by lia. field.
  intros H. unfold Qeq in H. simpl in H. lia.
Qed.

Lemma dpr_rule_mono (r : Q) (depth : Z) (i j : nat) :
  0 <= r -> (i <= j)%nat -> (Z.of_nat j < depth)%Z ->
  dpr_rule r depth i <= dpr_rule r depth j.
Proof.
  intros Hr Hij Hj. unfold dpr_rule.
  destruct (depth =? 1)%Z; [apply Qle_refl|].
  assert (Hpos : (0 <= depth - 1)%Z) by lia.
  - unfold Qdiv. apply Qmult_le_compat_r.
    + rewrite (Qmult_comm r (inject_Z (Z.of_nat i))),
              (Qmult_comm r (inject_Z (Z.of_nat j))).
      apply Qmult_le_compat_r; [|exact Hr].
      rewrite <- Zle_Qle. lia.
    + apply Qinv_le_0_compat. change 0 with (inject_Z 0).
      rewrite <- Zle_Qle. exact Hpos.
Qed.

(** The blocks of a constructed model carry the drop-path rates of
    [torch.linspace(0, drop_path_rate, depth)]: block [i] has rate
    [drop_path_rate * i / (depth - 1)] (0 for a single block), so the
    first block has rate 0, the last of two or more has
    [drop_path_rate], and for a non-negative [drop_path_rate] the rates
    never decrease with the depth of the block. *)
Theorem init_stochastic_depth_rule :
  forall (w : initializer) (kw : kwargs) (m : PerceiverVisionTransformer.t),
    PerceiverVisionTransformer.init w kw = Ok m ->
    exists (r : Q) (depth : Z),
      kw_num "drop_path_rate" (VFloat 0) kw = Ok r
      /\ kw_int "depth" 12 kw = Ok depth
      /\ map Block.drop_path (PerceiverVisionTransformer.blocks m)
         = tabulate (Z.to_nat depth) (dpr_rule r depth)
      /\ dpr_rule r depth 0 == 0
      /\ ((2 <= depth)%Z -> dpr_rule r depth (Z.to_nat (depth - 1)) == r)
      /\ (0 <= r -> forall i j, (i <= j)%nat -> (Z.of_nat j < depth)%Z ->
            dpr_rule r depth i <= dpr_rule r depth j).
Proof.
  intros w kw m Hinit.
  destruct (init_inv_full _ _ _ Hinit)
    as (D & ic & img & ps & depth & nh & dr & dprate & mr & adr & qs & Hc
        & _ & Hr & _ & _ & _ & _ & _ & _ & _ & _ & Hblocks).
  exists dprate, depth. split; [exact Hr|].
  split; [exact (c_depth _ _ _ _ _ _ _ _ _ Hc)|]. split.
  - clear - Hblocks.
    induction Hblocks as [|dp b l l' Hb _ IH]; [reflexivity|].
    cbn [map]. rewrite IH. f_equal.
    apply Block_init_inv in Hb. apply Hb.
  - split; [apply dpr_rule_first|].
    split; [apply dpr_rule_last|]. intros Hr0 i j. apply dpr_rule_mono. exact Hr0.
Qed.

Lemma init_stochastic_depth_rule_witness :
  match PerceiverVisionTransformer.init tiny_init
          (tiny_kwargs ++ [("drop_path_rate"%string, VFloat (1 # 10))]) with
  | Ok m => exists r, map Block.drop_path (PerceiverVisionTransformer.blocks m)
                      = tabulate 1 (dpr_rule r 1)
  | Err _ => False
  end.
Proof.
  destruct (PerceiverVisionTransformer.init tiny_init
              (tiny_kwargs ++ [("drop_path_rate"%string, VFloat (1 # 10))]))
    as [m|e] eqn:E.
  - destruct (init_stochastic_depth_rule _ _ m E)
      as (r & depth & _ & Hd & Hmap & _).
    vm_compute in Hd. inversion Hd; subst depth.
    exists r. exact Hmap.
  - vm_compute in E. discriminate E.
Defined.

(** ** When the constructor succeeds *)

Lemma alloc_nonneg (dims : list Z) :
  Forall (fun d => (0 <= d)%Z) dims -> alloc dims = Ok tt.
Proof.
  intros H. unfold alloc.
  replace (forallb (fun d => (0 <=? d)%Z) dims) with true; [reflexivity|].
  symmetry. apply forallb_forall. rewrite Forall_forall in H.
  intros d Hd. apply Z.leb_le. auto.
Qed.

Lemma Dropout_init_ok (p : Q) :
  Qle_bool 0 p && Qle_bool p 1 = true -> Dropout_init p = Ok p.
Proof. intros H. unfold Dropout_init. rewrite H. reflexivity. Qed.

Lemma Block_init_ok dim nh mr qb qs d ad dp nl :
  (0 <= dim)%Z -> nh <> 0%Z ->
  ((dim / nh)%Z <> 0%Z \/ exists q, qs = Some q /\ Qeq_bool q 0 = false) ->
  Qle_bool 0 d && Qle_bool d 1 = true ->
  Qle_bool 0 ad && Qle_bool ad 1 = true ->
  (0 <= int_of_Q (inject_Z dim * mr))%Z ->
  exists b, Block.init dim nh mr qb qs d ad dp nl = Ok b.
Proof.
  intros Hdim Hnh Hsc Hd Had Hh.
  unfold Block.init, norm_layer_init.
  rewrite (alloc_nonneg [dim]) by (repeat constructor; lia). cbn [bind].
  unfold Attention.init, floordiv.
  rewrite (proj2 (Z.eqb_neq nh 0) Hnh). cbn [bind].
  assert (Hscale : exists sc,
            match qs with
            | Some q => if Qeq_bool q 0 then inv_sqrt (dim / nh)
                        else Ok (ScaleGiven q)
            | None => inv_sqrt (dim / nh)
            end = Ok sc).
  { unfold inv_sqrt. destruct Hsc as [Hsc | (q & -> & Hq)].
    - rewrite (proj2 (Z.eqb_neq _ 0) Hsc).
      destruct qs as [q|]; [destruct (Qeq_bool q 0)|]; eauto.
    - rewrite Hq. eauto. }
  destruct Hscale as (sc & ->). cbn [bind].
  unfold Linear_init.
  rewrite (alloc_nonneg [(dim * 3)%Z; dim]) by (repeat constructor; lia).
  cbn [bind]. rewrite (Dropout_init_ok ad Had). cbn [bind].
  rewrite (alloc_nonneg [dim; dim]) by (repeat constructor; lia).
  cbn [bind]. rewrite (Dropout_init_ok d Hd). cbn [bind].
  unfold Mlp.init, Linear_init.
  set (hid := if (int_of_Q (inject_Z dim * mr) =? 0)%Z then dim
              else int_of_Q (inject_Z dim * mr)).
  assert (Hhid : (0 <= hid)%Z) by (unfold hid; destruct (_ =? 0)%Z; lia).
  rewrite (alloc_nonneg [hid; dim]) by (repeat constructor; lia).
  cbn [bind].
  rewrite (alloc_nonneg [dim; hid]) by (repeat constructor; lia).
  cbn [bind]. rewrite (Dropout_init_ok d Hd). cbn [bind].
  eexists. reflexivity.
Qed.

Lemma mapM_exists {A B : Type} (f : A -> result B) (l : list A) :
  (forall a, In a l -> exists b, f a = Ok b) -> exists bs, mapM f l = Ok bs.
Proof.
  induction l as [|a l IH]; intros H; [exists []; reflexivity|].
  destruct (H a (or_introl eq_refl)) as (b & Hb).
  destruct IH as (bs & Hbs); [intros; apply H; right; assumption|].
  exists (b :: bs). cbn [mapM]. rewrite Hb. cbn [bind]. rewrite Hbs. reflexivity.
Qed.

Lemma init_returns :
  forall (w : initializer) (kw : kwargs) (D ic img ps depth nh : Z)
         (dr dprate mr adr : Q) (qs : option Q),
    Forall (fun kv => has_key (fst kv) PerceiverVisionTransformer.signature
                      = true) kw ->
    kw_int "embed_dim" 768 kw = Ok D ->
    kw_int "in_chans" 3 kw = Ok ic ->
    kw_int "img_size" 224 kw = Ok img ->
    kw_int "patch_size" 16 kw = Ok ps ->
    kw_int "depth" 12 kw = Ok depth ->
    kw_int "num_heads" 12 kw = Ok nh ->
    kw_num "drop_rate" (VFloat 0) kw = Ok dr ->
    kw_num "drop_path_rate" (VFloat 0) kw = Ok dprate ->
    kw_num "mlp_ratio" (VFloat 4) kw = Ok mr ->
    kw_num "attn_drop_rate" (VFloat 0) kw = Ok adr ->
    as_opt_num "qk_scale" (get "qk_scale" VNone kw) = Ok qs ->
    truthy (get "pretrained" (VBool false) kw) = false ->
    (truthy (get "norm_layer" VNone kw) = true ->
     exists cls, get "norm_layer" VNone kw = VObj cls) ->
    (0 < D /\ 0 < ic /\ 0 < ps /\ 0 <= depth)%Z ->
    Qle_bool 0 dr && Qle_bool dr 1 = true ->
    ((0 < depth)%Z ->
     nh <> 0%Z
     /\ ((D / nh)%Z <> 0%Z \/ exists q, qs = Some q /\ Qeq_bool q 0 = false)
     /\ Qle_bool 0 adr && Qle_bool adr 1 = true
     /\ (0 <= int_of_Q (inject_Z D * mr))%Z) ->
    exists m, PerceiverVisionTransformer.init w kw = Ok m.
Proof.
  intros w kw D ic img ps depth nh dr dprate mr adr qs
         Hkeys HD Hic Himg Hps Hdepth Hnh Hdr Hdprate Hmr Hadr Hqs Hpre Hnl
         (HD0 & Hic0 & Hps0 & Hdepth0) Hdr01 Hblk.
  unfold kw_int, kw_num in *.
  unfold PerceiverVisionTransformer.init, bind_signature.
  assert (Hf : find (fun kv => negb (has_key (fst kv)
                                       PerceiverVisionTransformer.signature))
                    kw = None).
  { destruct (find _ kw) as [[k v]|] eqn:Hf; [|reflexivity].
    apply find_some in Hf as [Hin Hk]. rewrite Forall_forall in Hkeys.
    rewrite (Hkeys _ Hin) in Hk. discriminate Hk. }
  rewrite Hf. cbn [bind].
  unfold PerceiverVisionTransformer.init_body.
  cbn [map PerceiverVisionTransformer.signature fst snd].
  cbn [get lookup String.eqb Ascii.eqb Bool.eqb].
  fold (get "pretrained"%string (VBool false) kw).
  fold (get "embed_dim"%string (VInt 768) kw).
  fold (get "in_chans"%string (VInt 3) kw).
  fold (get "img_size"%string (VInt 224) kw).
  fold (get "patch_size"%string (VInt 16) kw).
  fold (get "depth"%string (VInt 12) kw).
  fold (get "num_heads"%string (VInt 12) kw).
  fold (get "drop_rate"%string (VFloat 0) kw).
  fold (get "drop_path_rate"%string (VFloat 0) kw).
  fold (get "mlp_ratio"%string (VFloat 4) kw).
  fold (get "attn_drop_rate"%string (VFloat 0) kw).
  fold (get "qk_scale"%string VNone kw).
  rewrite HD, Hic. cbn [bind].
  unfold PatchEmbed.init.
  rewrite (to_2tuple_as_int _ _ _ Himg), (to_2tuple_as_int _ _ _ Hps).
  cbn [bind fst snd]. unfold floordiv.
  rewrite (proj2 (Z.eqb_neq ps 0)) by lia. cbn [bind].
  unfold Conv2d_init. cbn [fst snd].
  rewrite (alloc_nonneg [D; ic; ps; ps]) by (repeat constructor; lia).
  cbn [bind PatchEmbed.num_patches]. rewrite Himg, Hps. cbn [bind].
  rewrite (proj2 (Z.eqb_neq ps 0)) by lia. cbn [bind].
  rewrite (alloc_nonneg [1; 1; D]%Z) by (repeat constructor; lia).
  cbn [bind].
  rewrite (alloc_nonneg [1; img / ps * (img / ps) + 1; D]%Z)
    by (repeat constructor; nia).
  cbn [bind]. rewrite Hdr. cbn [bind].
  rewrite (Dropout_init_ok dr Hdr01). cbn [bind].
  assert (Hvid : (if truthy (get "use_video" (VBool false) kw)
                  then alloc [1; 64; D]%Z else Ok tt) = Ok tt).
  { destruct (truthy (get "use_video" (VBool false) kw)); [|reflexivity].
    apply alloc_nonneg. repeat constructor; lia. }
  fold (get "use_video"%string (VBool false) kw). rewrite Hvid. cbn [bind].
  unfold norm_layer_init.
  rewrite (alloc_nonneg [D]) by (repeat constructor; lia). cbn [bind].
  assert (Hpn : forall nl,
            exists pn,
              (if truthy (get "add_norm_before_transformer" (VBool false) kw)
               then Ok (Some {| normalized_shape := D; norm_class := nl |})
               else Ok None) = Ok pn).
  { intros nl.
    destruct (truthy (get "add_norm_before_transformer" (VBool false) kw));
      eauto. }
  fold (get "add_norm_before_transformer"%string (VBool false) kw).
  match goal with
  | |- context [if truthy (get "add_norm_before_transformer" _ kw)
                then Ok (Some {| normalized_shape := D; norm_class := ?nl |})
                else Ok None] =>
      destruct (Hpn nl) as (pn & ->)
  end.
  cbn [bind]. rewrite Hdepth, Hdprate. cbn [bind].
  unfold linspace0. rewrite (proj2 (Z.leb_le 0 depth) Hdepth0).
  cbn [guard bind]. rewrite Hnh, Hmr, Hqs, Hadr. cbn [bind].
  match goal with
  | |- context [mapM ?f ?l] =>
      destruct (mapM_exists f l) as (blocks & ->)
  end.
  { intros dp Hin. apply In_tabulate in Hin as (i & Hi & _).
    destruct Hblk as (H1 & H2 & H3 & H4); [lia|].
    apply Block_init_ok; assumption || lia. }
  cbn [bind]. rewrite Hpre. cbn [bind]. eexists. reflexivity.
Qed.



(** ** The registered functions that build a plain model *)

Lemma built_from_keywords (w : initializer) (ckw : kwargs) (c : cfg)
    (m : PerceiverVisionTransformer.t) (ps D depth nh : Z) :
  PerceiverVisionTransformer.init w ckw = Ok m ->
  kw_int "patch_size" 16 ckw = Ok ps ->
  kw_int "embed_dim" 768 ckw = Ok D ->
  kw_int "depth" 12 ckw = Ok depth ->
  kw_int "num_heads" 12 ckw = Ok nh ->
  kw_int "img_size" 224 ckw = Ok (snd (cfg_input_size c)) ->
  get "num_classes" (VInt 1000) ckw = VInt (cfg_num_classes c) ->
  built_as c ps D depth nh (set_default_cfg m c).
Proof.
  intros Hm Hps HD Hdepth Hnh Himg Hnc.
  destruct (init_inv_full _ _ _ Hm)
    as (D' & ic & img & ps' & depth' & nh' & dr & dprate & mr & adr & qs & Hc
        & _ & _ & _ & _ & _ & _ & Hncm & _).
  pose proof (c_embed_dim _ _ _ _ _ _ _ _ _ Hc) as E1.
  pose proof (c_patch_size _ _ _ _ _ _ _ _ _ Hc) as E2.
  pose proof (c_depth _ _ _ _ _ _ _ _ _ Hc) as E3.
  pose proof (c_num_heads _ _ _ _ _ _ _ _ _ Hc) as E4.
  pose proof (c_img_size _ _ _ _ _ _ _ _ _ Hc) as E5.
  rewrite HD in E1. rewrite Hps in E2. rewrite Hdepth in E3.
  rewrite Hnh in E4. rewrite Himg in E5.
  inversion E1; inversion E2; inversion E3; inversion E4; inversion E5.
  subst D' ps' depth' nh' img.
  destruct (c_nonneg Hc) as (_ & _ & _ & Hd0).
  unfold built_as, set_default_cfg. cbn.
  rewrite (c_patch_size_attr Hc), (c_embed_dim_attr Hc), (c_patch_dim Hc),
          (c_blocks Hc), Hncm, Hnc.
  repeat split; try reflexivity; [lia | exact (c_heads Hc)].
Qed.

Ltac plain_factory name :=
  let c := fresh "c" in
  let Hc := fresh "Hc" in
  intros c Hc;
  eexists; split; [reflexivity|];
  cbv [call_registered pop lookup String.eqb Ascii.eqb Bool.eqb remove_key
       filter fst snd negb];
  cbv [name factory];
  cbn [merge_keywords find bind];
  unfold call_create; cbn -[PerceiverVisionTransformer.init];
  unfold _create_vision_transformer;
  rewrite Hc; cbn [bind];
  unfold constructor_keywords;
  cbn -[PerceiverVisionTransformer.init Z.eqb];
  rewrite ?Z.eqb_refl;
  cbn -[PerceiverVisionTransformer.init];
  match goal with
  | |- context [PerceiverVisionTransformer.init ?w ?ckw] =>
      let m := fresh "m" in
      let Hm := fresh "Hm" in
      assert (Hm : exists m, PerceiverVisionTransformer.init w ckw = Ok m);
      [ eapply (init_returns w ckw);
        [ repeat constructor
        | reflexivity | reflexivity | reflexivity | reflexivity
        | reflexivity | reflexivity | reflexivity | reflexivity
        | reflexivity | reflexivity | reflexivity | reflexivity
        | intros Hnl; first [discriminate Hnl | eexists; reflexivity]
        | lia
        | reflexivity
        | intros _; split; [discriminate|];
          split; [left; vm_compute; discriminate|];
          split; [reflexivity | vm_compute; discriminate] ]
      | destruct Hm as (m & Hm); rewrite Hm; cbn [bind];
        eexists; split; [reflexivity|];
        apply (built_from_keywords w ckw c m); try reflexivity; exact Hm ]
  end.

(** Given an entry for its name in the configuration table, every
    registered function that neither passes [hybrid_backbone] nor asks
    for the distilled class returns, when called with [pretrained=False]
    and no other keyword, a model with the patch size, embedding
    dimension, depth and number of heads written in its body, the image
    size and the number of classes of the table entry, and that entry as
    its [default_cfg]. *)
Theorem plain_factories_construct :
  forall (cfgs : string -> option cfg) (Dcls : option model_class)
         (lp : PerceiverVisionTransformer.t -> pyval -> pyval ->
               state_dict_filter -> result PerceiverVisionTransformer.t)
         (w : initializer),
    Forall (fun e =>
              let '(name, (ps, D, depth, nh)) := e in
              forall c, cfgs name = Some c ->
                exists f,
                  registered name (registry cfgs Dcls lp w) = Some f
                  /\ exists m,
                       call_registered f [("pretrained"%string, VBool false)]
                       = Ok m
                       /\ built_as c ps D depth nh m)
           plain_models.
Proof.
  intros cfgs Dcls lp w. unfold plain_models.
  repeat apply Forall_cons; [..|apply Forall_nil].
  - plain_factory vit_small_patch16_224.
  - plain_factory vit_base_patch16_224.
  - plain_factory vit_base_patch32_224.
  - plain_factory vit_base_patch16_384.
  - plain_factory vit_base_patch32_384.
  - plain_factory vit_large_patch16_224.
  - plain_factory vit_large_patch32_224.
  - plain_factory vit_large_patch16_384.
  - plain_factory vit_large_patch32_384.
  - plain_factory vit_base_patch16_224_in21k.
  - plain_factory vit_base_patch32_224_in21k.
  - plain_factory vit_large_patch16_224_in21k.
  - plain_factory vit_large_patch32_224_in21k.
  - plain_factory vit_huge_patch14_224_in21k.
  - plain_factory vit_deit_tiny_patch16_224.
  - plain_factory vit_deit_small_patch16_224.
  - plain_factory vit_deit_base_patch16_224.
  - plain_factory vit_deit_base_patch16_384.
Qed.

Lemma plain_factories_construct_witness :
  exists f m,
    registered "vit_small_patch16_224"
      (registry (fun _ => Some tiny_cfg) None (fun m _ _ _ => Ok m) tiny_init)
    = Some f
    /\ call_registered f [("pretrained"%string, VBool false)] = Ok m
    /\ built_as tiny_cfg 16 768 8 8 m.
Proof.
  destruct (Forall_inv
              (plain_factories_construct (fun _ => Some tiny_cfg) None
                 (fun m _ _ _ => Ok m) tiny_init)
              tiny_cfg eq_refl)
    as (f & Hf & m & Hm & Hb).
  exists f, m. split; [exact Hf|]. split; [exact Hm | exact Hb].
Defined.

(** ** [visual_embed]: the token budget argument *)

Lemma effective_len_const_any (x : T4) (H W : nat) (mv : pyval) :
  x <> [] ->
  effective_len (map (fun _ => Z.of_nat H) x) (map (fun _ => Z.of_nat W) x) mv
  = match mv with
    | VInt z => Ok (if (z <? 0)%Z then Z.of_nat (H * W)
                    else Z.min (Z.of_nat (H * W)) z)
    | VBool b => Ok (Z.min (Z.of_nat (H * W)) (if b then 1 else 0))
    | VFloat _ => Ok (Z.of_nat (H * W))
    | _ => Err (TypeError "'<' not supported between these instances")
    end.
Proof.
  intros Hx. unfold effective_len.
  rewrite combine_map_same, map_map. cbn [fst snd].
  rewrite (tensor_max_const (Z.of_nat (H * W))).
  - destruct mv as [| |z| | | |]; cbn [bind]; try reflexivity.
    destruct (z <? 0)%Z; reflexivity.
  - destruct x; [congruence | discriminate].
  - apply Forall_forall. intros v Hv. apply in_map_iff in Hv as (t & <- & _). lia.
Qed.




(** [max_image_len=None] is not the "no limit" the body provides for: the
    test [max_image_len < 0] comes before [max_image_len is None], so on
    every batch that fits the model the call raises [TypeError]. *)
Theorem visual_embed_none_budget_raises :
  forall (layer_norm : T1 -> T1) (w : initializer) (kw : kwargs)
         (self : PerceiverVisionTransformer.t) (training : bool)
         (rnd : randomness) (x : T4) (B C Hi Wi : nat),
    PerceiverVisionTransformer.init w kw = Ok self ->
    fits self x B C Hi Wi ->
    visual_embed layer_norm self training rnd (Image x) VNone false
    = Err (TypeError "'<' not supported between these instances").
Proof.
  intros layer_norm w kw self training rnd x B C Hi Wi Hinit Hfit.
  destruct (init_inv _ _ _ Hinit) as (D & ic & img & ps & depth & nh & Hc).
  destruct (fits_facts _ _ _ _ _ _ _ _ _ Hc _ _ _ _ _ Hfit)
    as ((_ & _ & _ & _ & _ & _ & HB & HH & HW) & _ & _ & _).
  pose proof (fits_rect _ _ _ _ _ _ Hfit) as Hx.
  assert (Hxne : x <> []).
  { destruct x; [destruct Hx as [Hx _]; simpl in Hx; lia | discriminate]. }
  unfold visual_embed.
  rewrite (embed_frames_budget_error _ _ _ _ _ _ _ _ _ Hc _ _ _ _ _ Hfit rnd
             VNone (TypeError "'<' not supported between these instances")).
  - reflexivity.
  - rewrite effective_len_const_any by exact Hxne. reflexivity.
Qed.

Lemma visual_embed_none_budget_raises_witness :
  match PerceiverVisionTransformer.init tiny_init tiny_kwargs with
  | Ok self =>
      visual_embed (fun t => t) self false tiny_rnd (Image tiny_image)
                   VNone false
      = Err (TypeError "'<' not supported between these instances")
  | Err _ => False
  end.
Proof.
  destruct (PerceiverVisionTransformer.init tiny_init tiny_kwargs)
    as [self|e] eqn:E.
  - exact (visual_embed_none_budget_raises (fun t => t) tiny_init tiny_kwargs
             self false tiny_rnd tiny_image 2 3 4 4 E (tiny_fits self E)).
  - vm_compute in E. discriminate E.
Defined.

(** ** [visual_embed]: inputs the patch projection refuses *)

Lemma shape4_mk4 (f : nat -> Q) (a b c d : nat) :
  shape4 (mk4 f a b c d)
  = match a, b, c with
    | O, _, _ => (0, 0, 0, 0)
    | _, O, _ => (a, 0, 0, 0)
    | _, _, O => (a, b, 0, 0)
    | _, _, _ => (a, b, c, d)
    end%nat.
Proof.
  destruct a as [|a]; [reflexivity|].
  destruct b as [|b]; [unfold shape4, mk4, tabulate; cbn; rewrite length_map,
                         length_seq; reflexivity|].
  destruct c as [|c].
  - unfold shape4, mk4, mk3, tabulate. cbn. rewrite !length_map, !length_seq.
    reflexivity.
  - apply shape4_rect; try lia. apply rect4_mk4.
Qed.

(** A batch of images whose channel count is not [in_chans], or whose
    height or width is smaller than the patch, never gets through the
    patch projection: [visual_embed] raises [RuntimeError], whatever
    [max_image_len] and [mask_it] are. *)
Theorem visual_embed_rejects_small_or_wrong_channels :
  forall (layer_norm : T1 -> T1) (w : initializer) (kw : kwargs)
         (self : PerceiverVisionTransformer.t) (training : bool)
         (rnd : randomness) (x : T4) (B C Hi Wi : nat)
         (max_image_len : pyval) (mask_it : bool),
    PerceiverVisionTransformer.init w kw = Ok self ->
    rect4 B C Hi Wi x ->
    (0 < B /\ 0 < C /\ 0 < Hi)%nat ->
    (Z.of_nat C
     <> in_channels (PatchEmbed.proj
                       (PerceiverVisionTransformer.patch_embed self))
     \/ Z.of_nat Hi < PerceiverVisionTransformer.patch_size self
     \/ Z.of_nat Wi < PerceiverVisionTransformer.patch_size self)%Z ->
    exists msg,
      visual_embed layer_norm self training rnd (Image x) max_image_len mask_it
      = Err (RuntimeError msg).
Proof.
  intros layer_norm w kw self training rnd x B C Hi Wi mv mask_it
         Hinit Hx (HB & HC & HHi) Hbad.
  destruct (init_inv _ _ _ Hinit) as (D & ic & img & ps & depth & nh & Hc).
  destruct (c_nonneg Hc) as (HD0 & Hic0 & Hps0 & _).
  pose proof (c_ps_nonzero Hc) as Hpsnz.
  rewrite (c_patch_size_attr Hc), (c_patch_embed Hc) in Hbad.
  cbn [PatchEmbed.proj in_channels] in Hbad.
  assert (Hfw : exists msg,
            PatchEmbed_forward (PerceiverVisionTransformer.patch_embed self) x
            = Err (RuntimeError msg)).
  { unfold PatchEmbed_forward. rewrite (c_patch_embed Hc).
    cbn [PatchEmbed.proj weight bias stride fst snd].
    unfold conv2d. rewrite (shape4_rect _ _ _ _ _ Hx) by lia.
    rewrite shape4_mk4.
    destruct (Z.to_nat D) as [|Dn] eqn:ED.
    { unfold conv2d_shape_check, guard. cbn [fst snd bind].
      destruct (Nat.eqb_spec C 0) as [E|_]; [lia|]. cbn [bind]. eauto. }
    destruct (Z.to_nat ic) as [|icn] eqn:Eic.
    { unfold conv2d_shape_check, guard. cbn [fst snd bind].
      destruct (Nat.eqb_spec C 0) as [E|_]; [lia|]. cbn [bind]. eauto. }
    destruct (Z.to_nat ps) as [|pn] eqn:Eps; [lia|].
    unfold conv2d_shape_check, guard. cbn [fst snd bind].
    destruct (Nat.eqb_spec C (S icn)) as [EC|_]; cbn [bind]; [|eauto].
    change ((0 <? S pn) && (0 <? S pn))%nat with true. cbn [bind].
    destruct ((S pn <=? Hi) && (S pn <=? Wi))%nat eqn:Ek; cbn [bind]; [|eauto].
    exfalso. apply andb_prop in Ek as [E1 E2].
    apply Nat.leb_le in E1, E2. lia. }
  destruct Hfw as (msg & Hfw). exists msg.
  unfold visual_embed, embed_frames. rewrite Hfw. reflexivity.
Qed.

Lemma visual_embed_rejects_small_or_wrong_channels_witness :
  match PerceiverVisionTransformer.init tiny_init tiny_kwargs with
  | Ok self =>
      exists msg,
        visual_embed (fun t => t) self false tiny_rnd
                     (Image (mk4 (fun _ => 1) 1 3 1 4)) (VInt 3) false
        = Err (RuntimeError msg)
  | Err _ => False
  end.
Proof.
  destruct (PerceiverVisionTransformer.init tiny_init tiny_kwargs)
    as [self|e] eqn:E.
  - apply (visual_embed_rejects_small_or_wrong_channels (fun t => t) tiny_init
             tiny_kwargs self false tiny_rnd (mk4 (fun _ => 1) 1 3 1 4)
             1 3 1 4 (VInt 3) false E (rect4_mk4 _ _ _ _ _)
             ltac:(lia)).
    right. left.
    assert (Hp : PerceiverVisionTransformer.patch_size self = 2%Z).
    { vm_compute in E. inversion E. reflexivity. }
    rewrite Hp. reflexivity.
  - vm_compute in E. discriminate E.
Defined.

(** ** [visual_embed] on clips: the attention mask *)




(** ** The attention weights as a distribution *)

Lemma fexp_nonneg (m : R) (v : fval) : (0 <= fexp m v)%R.
Proof. destruct v; simpl; [left; apply exp_pos | lra | lra]. Qed.

Lemma Rsum_nonneg (l : list R) :
  Forall (fun r => (0 <= r)%R) l -> (0 <= Rsum l)%R.
Proof.
  induction 1 as [|r l Hr _ IH]; simpl; [lra|]. lra.
Qed.

Lemma Rsum_ge_term (l : list R) (r : R) :
  Forall (fun r => (0 <= r)%R) l -> In r l -> (r <= Rsum l)%R.
Proof.
  induction 1 as [|a l Ha Hl IH]; simpl; [contradiction|].
  pose proof (Rsum_nonneg l Hl).
  intros [-> | Hin]; [lra|]. specialize (IH Hin). lra.
Qed.

Lemma Rsum_map_div (l : list R) (s : R) :
  Rsum (map (fun r => (r / s)%R) l) = (Rsum l / s)%R.
Proof.
  induction l as [|a l IH]; simpl; [unfold Rdiv; ring|].
  rewrite IH. unfold Rdiv. ring.
Qed.

Lemma softmax_row_distribution (row : list fval) :
  existsb is_nan row = false ->
  forallb is_neginf row = false ->
  Forall (fun v => exists r, v = Fin r /\ (0 <= r <= 1)%R) (softmax_row row)
  /\ Rsum (map fval_real (softmax_row row)) = 1%R
  /\ forall j r0, nth j row NaN = Fin r0 ->
       exists r, nth j (softmax_row row) NaN = Fin r /\ (0 < r)%R.
Proof.
  intros Hnan Hall. unfold softmax_row. rewrite Hnan, Hall. cbn [orb].
  set (m := fmax row). set (es := map (fexp m) row).
  assert (Hes : Forall (fun r => (0 <= r)%R) es).
  { unfold es. apply Forall_map. apply Forall_forall. intros v _.
    apply fexp_nonneg. }
  assert (Hfin : exists v r, In v row /\ v = Fin r).
  { destruct (forallb is_neginf row) eqn:E; [discriminate|].
    clear - E Hnan. induction row as [|v row IH]; [discriminate|].
    cbn [existsb forallb] in *.
    apply orb_false_iff in Hnan as [Hv Hnan].
    destruct v as [r| |]; try discriminate.
    - exists (Fin r), r. split; [left; reflexivity | reflexivity].
    - cbn [is_neginf andb] in E.
      destruct (IH Hnan E) as (v & r & Hin & Hv').
      exists v, r. split; [right; assumption | assumption]. }
  assert (Hs : (0 < Rsum es)%R).
  { destruct Hfin as (v & r & Hin & ->).
    assert (Hle : (fexp m (Fin r) <= Rsum es)%R).
    { apply Rsum_ge_term; [exact Hes|]. unfold es. apply in_map. exact Hin. }
    pose proof (exp_pos (r - m)). simpl in Hle. lra. }
  split; [|split].
  - apply Forall_map. apply Forall_forall. intros v Hv.
    eexists. split; [reflexivity|].
    assert (Hle : (fexp m v <= Rsum es)%R).
    { apply Rsum_ge_term; [exact Hes|]. unfold es. apply in_map. exact Hv. }
    pose proof (fexp_nonneg m v). split.
    + apply Rmult_le_pos; [assumption|]. left. apply Rinv_0_lt_compat. exact Hs.
    + apply (Rmult_le_reg_r (Rsum es)); [exact Hs|].
      unfold Rdiv. rewrite Rmult_assoc, Rinv_l by lra. lra.
  - rewrite map_map. cbn [fval_real].
    rewrite <- (map_map (fexp m) (fun r => (r / Rsum es)%R)).
    fold es. rewrite Rsum_map_div. unfold Rdiv. apply Rinv_r. lra.
  - intros j r0 Hj.
    assert (Hlt : (j < length row)%nat).
    { destruct (Nat.lt_ge_cases j (length row)) as [H|H]; [exact H|].
      rewrite nth_overflow in Hj by exact H. discriminate Hj. }
    rewrite (nth_map_default _ row j NaN NaN) by exact Hlt.
    rewrite Hj. eexists. split; [reflexivity|]. simpl.
    apply Rmult_lt_0_compat; [apply exp_pos | apply Rinv_0_lt_compat; exact Hs].
Qed.

Section LogitRow.

Variables (mask : option (list (list Z))) (b : nat)
        (logit : nat -> list R -> R).
Variable k : list (list R).

Let row : list fval :=
imap (fun j kj => mask_fill mask b j (Fin (logit j kj))) k.





End LogitRow.






(** [Attention] can be constructed with a dimension that its number of
    heads does not divide ([head_dim] is the floor of the quotient), but
    it cannot be run: on tokens that fit its [qkv] layer the reshape of the
    [3 * dim] outputs of [qkv] into [num_heads] heads of [head_dim]
    entries raises [RuntimeError]. *)
Theorem attention_indivisible_heads_raises :
  forall (dim nh : Z) (qkv_bias : bool) (qk_scale : option Q)
         (attn_drop proj_drop : Q) (self : Attention.t) (qkv_w : LinearW)
         (training : bool) (rnd : randomness) (pos : nat)
         (x : list (list (list R))) (mask : option (list (list Z))),
    Attention.init dim nh qkv_bias qk_scale attn_drop proj_drop = Ok self ->
    (0 < nh)%Z ->
    (dim mod nh <> 0)%Z ->
    qkv_fits self qkv_w x ->
    Attention_forward self qkv_w training rnd pos x mask
    = Err (RuntimeError "reshape: shape is invalid for input size").
Proof.
  intros dim nh qb qs ad pd self qkv_w training rnd pos x mask
         Hinit Hnh Hmod (_ & HC & Hw & _).
  unfold Attention.init in Hinit.
  apply bind_ok in Hinit as (hd0 & Hhd & Hinit).
  apply bind_ok in Hinit as (sc & Hsc & Hinit).
  apply bind_ok in Hinit as (qkv & Hqkv & Hinit).
  apply bind_ok in Hinit as (adp & Hadp & Hinit).
  apply bind_ok in Hinit as (pr & Hpr & Hinit).
  apply bind_ok in Hinit as (pdp & Hpdp & Hinit).
  inversion Hinit; subst self; clear Hinit.
  unfold Linear_init in Hqkv.
  apply bind_ok in Hqkv as (u & _ & Hqkv). inversion Hqkv; subst qkv.
  cbn [Attention.qkv out_features in_features] in Hw, HC.
  unfold Attention_forward. cbn [Attention.num_heads].
  rewrite HC. unfold floordiv.
  rewrite (proj2 (Z.eqb_neq nh 0)) by lia. cbn [bind].
  rewrite (proj2 (Z.leb_le 0 nh)) by lia. cbn [andb].
  destruct (Nat.eqb_spec (length (lw_weight qkv_w))
              (3 * Z.to_nat nh * Z.to_nat (dim / nh))) as [E|_];
    [|reflexivity].
  exfalso.
  assert (Hdim : (0 <= dim)%Z) by lia.
  assert (Hq : (0 <= dim / nh)%Z) by (apply Z.div_pos; lia).
  apply (f_equal Z.of_nat) in E.
  rewrite Hw, !Nat2Z.inj_mul, !Z2Nat.id in E by lia.
  pose proof (Z.div_mod dim nh ltac:(lia)) as Hdm.
  change (Z.of_nat 3) with 3%Z in E. lia.
Qed.

Lemma attention_indivisible_heads_raises_witness :
  exists self,
    Attention.init 3 2 false None 0 0 = Ok self
    /\ Attention_forward self
         {| lw_weight := repeat [1; 1; 1]%R 9; lw_bias := None |}
         false tiny_rnd 0 [ [ [1; 0; 0]%R ] ] None
       = Err (RuntimeError "reshape: shape is invalid for input size").
Proof.
  eexists. split; [vm_compute; reflexivity|].
  eapply (attention_indivisible_heads_raises 3 2 false None 0 0);
    [vm_compute; reflexivity | lia | discriminate
    | unfold qkv_fits; simpl; repeat constructor].
Defined.

(** ** [resize_pos_embed]: the old grid has to be a square *)

Lemma hd_concat_tabulate2 {A : Type} (n m : nat) (f : nat -> nat -> list A) :
  (0 < n)%nat -> (0 < m)%nat ->
  hd [] (concat (tabulate n (fun i => tabulate m (f i)))) = f 0%nat 0%nat.
Proof.
  intros Hn Hm. destruct n as [|n]; [lia|]. destruct m as [|m]; [lia|].
  reflexivity.
Qed.

(** [resize_pos_embed] returns only for an old table whose grid part, the
    rows after the class row, is a perfect square: for any other number
    of rows the inferred channel count of the reshape differs from the
    embedding dimension and the call raises. *)
Theorem resize_pos_embed_needs_square_grid :
  forall (table : T2) (posemb_new : T3) (n D : nat) (r : T3),
    rect2 (n + 1) D table -> (0 < D)%nat ->
    resize_pos_embed [table] posemb_new = Ok r ->
    n = (isqrt n * isqrt n)%nat /\ (0 < n)%nat.
Proof.
  intros table new n D r [Hl Hall] HD Hr. unfold T3, T2, T1 in *.
  assert (Htl : length (tl table) = n)
    by (destruct table; cbn [length tl] in *; lia).
  assert (Htlall : Forall (fun row => length row = D) (tl table))
    by (destruct table; [constructor | inversion Hall; assumption]).
  assert (Hrow0 : length (hd [] table) = D)
    by (destruct table; [simpl in Hl; lia | inversion Hall; assumption]).
  unfold resize_pos_embed in Hr. unfold T3, T2, T1 in *.
  apply bind_ok in Hr as (u1 & _ & Hr).
  apply bind_ok in Hr as (u2 & _ & Hr).
  cbn [nth] in Hr. rewrite Htl in Hr.
  set (g := isqrt n) in *.
  apply bind_ok in Hr as (G & HG & Hr).
  apply bind_ok in Hr as (u3 & Hu3 & Hr).
  apply bind_ok in Hr as (u4 & Hu4 & Hr).
  apply bind_ok in Hr as (u5 & Hu5 & Hr).
  unfold interpolate_size_check in Hu3.
  apply guard_ok in Hu3. apply guard_ok in Hu4. apply guard_ok in Hu5.
  unfold reshape_infer_last in HG.
  destruct (Nat.eqb_spec (g * g) 0) as [E|Hk]; [discriminate|].
  rewrite (length_concat_rect D) in HG by exact Htlall.
  rewrite Htl in HG.
  destruct (Nat.eqb_spec ((n * D) mod (g * g)) 0) as [Hmod|_];
    [|discriminate].
  inversion HG; subst G; clear HG.
  set (X := (n * D / (g * g))%nat) in *.
  assert (Hg : (0 < g)%nat) by (destruct g; [simpl in Hk; lia | lia]).
  assert (HnD : (n * D = X * (g * g))%nat).
  { pose proof (Nat.div_mod_eq (n * D) (g * g)) as E. fold X in E.
    rewrite Hmod in E. lia. }
  assert (Hn : (0 < n)%nat).
  { pose proof (Nat.sqrt_spec n ltac:(lia)) as [Hs _].
    change (Nat.sqrt n) with g in Hs. nia. }
  assert (HX : (0 < X)%nat) by (destruct X; [nia | lia]).
  assert (Hch : length (channels_first
                          (chunks g g (chunks X (g * g) (concat (tl table)))))
                = X).
  { unfold channels_first. rewrite length_tabulate.
    rewrite hd_chunks by exact Hg.
    destruct g as [|g']; [lia|]. cbn [firstn Nat.mul Nat.add].
    cbn [chunks hd firstn]. rewrite length_firstn.
    rewrite (length_concat_rect D) by exact Htlall. rewrite Htl. nia. }
  apply andb_prop in Hu5 as [_ Hu5]. apply Nat.eqb_eq in Hu5.
  cbn [hd] in Hu5. rewrite Hrow0 in Hu5.
  apply andb_prop in Hu3 as [_ Hgs]. apply Nat.ltb_lt in Hgs.
  unfold channels_last in Hu5.
  rewrite hd_concat_tabulate2 in Hu5 by exact Hgs.
  rewrite !length_map in Hu5. unfold T3, T2, T1 in *. rewrite Hch in Hu5.
  split; [|exact Hn]. fold g. nia.
Qed.

Lemma resize_pos_embed_needs_square_grid_witness :
  exists r,
    resize_pos_embed [ [ [1; 2]; [3; 4] ] ] [ [ [0; 0]; [0; 0]; [0; 0];
                                                [0; 0]; [0; 0] ] ] = Ok r
    /\ (1 = isqrt 1 * isqrt 1)%nat.
Proof.
  eexists. split; [vm_compute; reflexivity|].
  refine (proj1 (resize_pos_embed_needs_square_grid
                   [ [1; 2]; [3; 4] ]
                   [ [ [0; 0]; [0; 0]; [0; 0]; [0; 0]; [0; 0] ] ]
                   1 2 _ _ _ _)).
  - repeat constructor.
  - lia.
  - vm_compute. reflexivity.
Defined.

(** ** [checkpoint_filter_fn]: the wrapper key and a second pass *)

Lemma find_existsb {A : Type} (f : A -> bool) (l : list A) (a : A) :
  find f l = Some a -> existsb f l = true.
Proof.
  intros H. apply find_some in H as [Hin Hf].
  apply existsb_exists. eauto.
Qed.

Lemma filter_keys (model : PerceiverVisionTransformer.t)
    (sd out : list (string * sdval)) :
  mapM (fun kv : string * sdval =>
          match snd kv with
          | SDTensor v => v' <- filter_entry model (fst kv) v ;;
                          Ok (fst kv, SDTensor v')
          | SDDict d =>
              if contains "patch_embed.proj.weight" (fst kv)
                 || String.eqb (fst kv) "pos_embed"
              then Err (AttributeError "shape")
              else Ok (fst kv, SDDict d)
          end) sd = Ok out ->
  map fst out = map fst sd.
Proof.
  intros H. apply mapM_Forall2 in H.
  induction H as [|kv kv' l l' Hk _ IH]; [reflexivity|].
  cbn [map]. rewrite IH. f_equal.
  destruct (snd kv) as [v|d].
  - apply bind_ok in Hk as (v' & _ & Hk). inversion Hk. reflexivity.
  - destruct (_ || _); [discriminate|]. inversion Hk. reflexivity.
Qed.

(** A checkpoint that has the key ["model"] is replaced by the dictionary
    stored under it: the result is the one of filtering that dictionary
    alone, with its keys in its order, and every other top-level entry
    of the checkpoint is dropped. When the value under ["model"] is a
    tensor the call raises [AttributeError]. *)
Theorem checkpoint_filter_unwraps_model :
  forall (state_dict : list (string * sdval))
         (model : PerceiverVisionTransformer.t) (k0 : string) (inner : sdval),
    find (fun kv => String.eqb (fst kv) "model") state_dict
    = Some (k0, inner) ->
    match inner with
    | SDDict d =>
        (existsb (fun kv => String.eqb (fst kv) "model") d = false ->
         checkpoint_filter_fn state_dict model
         = checkpoint_filter_fn
             (map (fun kv => (fst kv, SDTensor (snd kv))) d) model)
        /\ forall out, checkpoint_filter_fn state_dict model = Ok out ->
             map fst out = map fst d
    | SDTensor _ =>
        checkpoint_filter_fn state_dict model = Err (AttributeError "items")
    end.
Proof.
  intros sd model k0 inner Hf.
  pose proof (find_existsb _ _ _ Hf) as Hex.
  assert (Hsd : forall d,
            inner = SDDict d ->
            checkpoint_filter_fn sd model
            = mapM (fun kv : string * sdval =>
                      match snd kv with
                      | SDTensor v => v' <- filter_entry model (fst kv) v ;;
                                      Ok (fst kv, SDTensor v')
                      | SDDict d =>
                          if contains "patch_embed.proj.weight" (fst kv)
                             || String.eqb (fst kv) "pos_embed"
                          then Err (AttributeError "shape")
                          else Ok (fst kv, SDDict d)
                      end)
                   (map (fun kv => (fst kv, SDTensor (snd kv))) d)).
  { intros d ->. unfold checkpoint_filter_fn. rewrite Hex, Hf. reflexivity. }
  destruct inner as [t|d].
  - unfold checkpoint_filter_fn. rewrite Hex, Hf. reflexivity.
  - split.
    + intros Hno. rewrite (Hsd d eq_refl). unfold checkpoint_filter_fn.
      assert (Hno' : existsb (fun kv : string * sdval =>
                                String.eqb (fst kv) "model")
                       (map (fun kv : string * tensor =>
                               (fst kv, SDTensor (snd kv))) d) = false).
      { etransitivity; [|exact Hno]. clear.
        induction d as [|kv d IH]; [reflexivity|].
        cbn [map existsb fst]. rewrite IH. reflexivity. }
      rewrite Hno'. reflexivity.
    + intros out Hout. rewrite (Hsd d eq_refl) in Hout.
      apply filter_keys in Hout. rewrite Hout, map_map. reflexivity.
Qed.

Lemma checkpoint_filter_unwraps_model_witness :
  match PerceiverVisionTransformer.init tiny_init tiny_kwargs with
  | Ok model =>
      checkpoint_filter_fn
        [ ("epoch"%string, SDTensor (Tn1 [3]));
          ("model"%string, SDDict [("head.bias"%string, Tn1 [1; 2])]) ] model
      = checkpoint_filter_fn
          [ ("head.bias"%string, SDTensor (Tn1 [1; 2])) ] model
  | Err _ => False
  end.
Proof.
  destruct (PerceiverVisionTransformer.init tiny_init tiny_kwargs)
    as [model|e] eqn:E.
  - exact (proj1 (checkpoint_filter_unwraps_model
                    [ ("epoch"%string, SDTensor (Tn1 [3]));
                      ("model"%string,
                       SDDict [("head.bias"%string, Tn1 [1; 2])]) ]
                    model "model"
                    (SDDict [("head.bias"%string, Tn1 [1; 2])]) eq_refl)
                 eq_refl).
  - vm_compute in E. discriminate E.
Defined.

(** Filtering is idempotent on what the model can load: when the
    model's position table has a square grid and the checkpoint's table
    has the model's embedding dimension, a second pass of
    [checkpoint_filter_fn] over its own result returns that result
    unchanged (the resized table has the model's shape, the reshaped
    projection weights have rank 4). *)
Theorem checkpoint_filter_idempotent :
  forall (model : PerceiverVisionTransformer.t) (pos_embed : T3)
         (g Dm Oc I H W : nat) (state_dict : list (string * sdval)),
    PerceiverVisionTransformer.getattr model "pos_embed" = Ok pos_embed ->
    rect3 1 (g * g + 1) Dm pos_embed ->
    shape4 (weight (PatchEmbed.proj
                      (PerceiverVisionTransformer.patch_embed model)))
    = (Oc, I, H, W) ->
    existsb (fun kv => String.eqb (fst kv) "model") state_dict = false ->
    Forall (fun kv => exists v, snd kv = SDTensor v
                                /\ entry_ready pos_embed Oc H W (fst kv) v
                                /\ (is_resized pos_embed (fst kv) v = true ->
                                    nth 2 (shape_of v) 0%nat = Dm))
           state_dict ->
    exists out,
      checkpoint_filter_fn state_dict model = Ok out
      /\ checkpoint_filter_fn out model = Ok out.
Proof.
  intros model pe g Dm Oc I H W sd Hpe Hrect Hw Hno Hready.
  assert (Hshape : shape_of (Tn3 pe) = [1; g * g + 1; Dm]%nat).
  { cbn [shape_of]. rewrite (shape3_rect _ _ _ _ Hrect) by lia. reflexivity. }
  assert (Hgs : isqrt (length (hd [] pe) - 1) = g).
  { pose proof (rect3_hd _ _ _ _ Hrect ltac:(lia)) as [Hl _].
    unfold T3, T2, T1 in *. rewrite Hl, Nat.add_sub.
    apply Nat.sqrt_square. }
  set (step := fun kv : string * sdval =>
                 match snd kv with
                 | SDTensor v => v' <- filter_entry model (fst kv) v ;;
                                 Ok (fst kv, SDTensor v')
                 | SDDict d =>
                     if contains "patch_embed.proj.weight" (fst kv)
                        || String.eqb (fst kv) "pos_embed"
                     then Err (AttributeError "shape")
                     else Ok (fst kv, SDDict d)
                 end).
  destruct (mapM_Forall2_ok step
              (fun kv => exists v, snd kv = SDTensor v
                                   /\ entry_ready pe Oc H W (fst kv) v
                                   /\ (is_resized pe (fst kv) v = true ->
                                       nth 2 (shape_of v) 0%nat = Dm))
              (fun kv kv' => fst kv' = fst kv /\ step kv' = Ok kv') sd)
    as (out & Hout & HR).
  - intros [k s] (v & Hs & Hr & HD). cbn [fst snd] in *. subst s.
    destruct (filter_entry_spec model pe Oc I H W k v Hpe Hw Hr)
      as (v' & Hv' & Hspec).
    exists (k, SDTensor v'). unfold step. cbn [fst snd]. rewrite Hv'.
    cbn [bind]. split; [reflexivity|]. split; [reflexivity|].
    destruct Hspec as (S1 & S2 & S3).
    assert (Hv2 : filter_entry model k v' = Ok v'); [|rewrite Hv2; reflexivity].
    unfold filter_entry.
    destruct (is_patch_weight k v) eqn:Ep.
    + destruct (S1 eq_refl) as (_ & X & HX & _).
      replace (Nat.ltb (length (shape_of v')) 4) with false
        by (rewrite HX; reflexivity).
      rewrite andb_false_r.
      unfold is_patch_weight in Ep. apply andb_prop in Ep as [Hc _].
      destruct (String.eqb_spec k "pos_embed") as [->|_]; [|reflexivity].
      vm_compute in Hc. discriminate Hc.
    + destruct (is_resized pe k v) eqn:Er.
      * destruct (S2 eq_refl) as (table & D & Hspec2). cbv zeta in Hspec2.
        destruct Hspec2 as (Hv & Hv'eq & Hsh & Hhd). subst v v'.
        rewrite Hgs in Hsh, Hhd.
        specialize (HD eq_refl). cbn [shape_of shape3 nth length hd] in HD.
        assert (HDm : D = Dm).
        { cbn [shape_of shape3 length hd] in Hsh.
          inversion Hsh as [[Hlen HlD]]. rewrite Hhd in HlD.
          unfold T3, T2, T1 in *. congruence. }
        subst D.
        unfold is_resized in Er. apply andb_prop in Er as [Ek _].
        apply String.eqb_eq in Ek. subst k.
        change (contains "patch_embed.proj.weight" "pos_embed") with false.
        cbn [andb String.eqb Ascii.eqb Bool.eqb]. rewrite Hpe. cbn [bind].
        rewrite Hgs, Hsh, Hshape. unfold shape_eqb.
        destruct (list_eq_dec Nat.eq_dec [1; g * g + 1; Dm]%nat
                    [1; g * g + 1; Dm]%nat) as [_|Hne];
          [reflexivity | congruence].
      * rewrite (S3 eq_refl eq_refl).
        unfold is_patch_weight in Ep. rewrite Ep.
        unfold is_resized in Er.
        destruct (String.eqb k "pos_embed"); [|reflexivity].
        rewrite Hpe. cbn [bind]. cbn [andb] in Er. rewrite Er. reflexivity.
  - exact Hready.
  - exists out. split.
    + unfold checkpoint_filter_fn. rewrite Hno. exact Hout.
    + unfold checkpoint_filter_fn.
      assert (Hno' : existsb (fun kv : string * sdval =>
                                String.eqb (fst kv) "model") out = false).
      { etransitivity; [|exact Hno]. clear - HR.
        induction HR as [|kv kv' l l' [Hk _] _ IH]; [reflexivity|].
        cbn [existsb]. rewrite Hk, IH. reflexivity. }
      rewrite Hno'. cbn [bind]. fold step.
      clear - HR. induction HR as [|kv kv' l l' [_ Hk] _ IH]; [reflexivity|].
      cbn [mapM]. rewrite Hk. cbn [bind]. rewrite IH. reflexivity.
Qed.

Lemma checkpoint_filter_idempotent_witness :
  match PerceiverVisionTransformer.init tiny_init tiny_kwargs with
  | Ok model =>
      exists out,
        checkpoint_filter_fn tiny_checkpoint model = Ok out
        /\ checkpoint_filter_fn out model = Ok out
  | Err _ => False
  end.
Proof.
  destruct (PerceiverVisionTransformer.init tiny_init tiny_kwargs)
    as [model|e] eqn:E.
  - assert (Hm : PerceiverVisionTransformer.getattr model "pos_embed"
                 = Ok (mk3 (tiny_init "pos_embed"%string) 1 5 2)
                 /\ shape4 (weight (PatchEmbed.proj
                              (PerceiverVisionTransformer.patch_embed model)))
                    = (2, 3, 2, 2)%nat).
    { vm_compute in E. inversion E. split; reflexivity. }
    destruct Hm as [Hpe Hw].
    apply (checkpoint_filter_idempotent model
             (mk3 (tiny_init "pos_embed"%string) 1 5 2) 2 2 2 3 2 2
             tiny_checkpoint Hpe (rect3_mk3 _ 1 5 2) Hw eq_refl).
    unfold tiny_checkpoint. repeat constructor.
    + eexists. split; [reflexivity|]. split; [split; intros Hc|].
      * vm_compute in Hc. discriminate Hc.
      * exists [ [1; 2]; [3; 4] ], 1%nat, 2%nat.
        split; [reflexivity|]. split; [repeat constructor|].
        split; [lia|]. vm_compute. lia.
      * intros _. reflexivity.
    + eexists. split; [reflexivity|]. split; [split; intros Hc|].
      * exists 3%nat. split; [lia | reflexivity].
      * vm_compute in Hc. discriminate Hc.
      * intros Hc. vm_compute in Hc. discriminate Hc.
    + eexists. split; [reflexivity|]. split; [split; intros Hc|];
        try (vm_compute in Hc; discriminate Hc).
      intros Hc. vm_compute in Hc. discriminate Hc.
  - vm_compute in E. discriminate E.
Defined.

(** ** [UnNormalize] *)

Lemma UnNormalize_zip_length (tensor : T3) (mean std : list Q) :
  length (UnNormalize_zip tensor mean std) = length tensor.
Proof.
  revert mean std. induction tensor as [|t ts IH]; intros [|m ms] [|s ss];
    cbn [UnNormalize_zip length]; try reflexivity.
  rewrite IH. reflexivity.
Qed.

Lemma UnNormalize_zip_nth (tensor : T3) (mean std : list Q) (c : nat) :
  nth c (UnNormalize_zip tensor mean std) []
  = if (c <? Nat.min (length tensor) (Nat.min (length mean) (length std)))%nat
    then map (map (fun v => v * nth c std 0 + nth c mean 0)) (nth c tensor [])
    else nth c tensor [].
Proof.
  revert mean std c.
  induction tensor as [|t ts IH]; intros [|m ms] [|s ss] c;
    cbn [UnNormalize_zip length Nat.min]; try reflexivity;
    try (destruct c; reflexivity).
  destruct c as [|c]; [reflexivity|].
  cbn [nth]. rewrite IH. reflexivity.
Qed.

(** [UnNormalize] keeps the number of sub-tensors and the shape of each;
    it rescales sub-tensor [c] to [x * std[c] + mean[c]] for every [c]
    below the shortest of the tensor, [mean] and [std], and leaves the
    sub-tensors beyond it untouched. [inception_unnormalize] therefore
    changes the first three channels only, and maps their values from
    [[-1, 1]] into [[0, 1]]. *)
Theorem UnNormalize_rescales_leading_channels :
  forall (self : UnNormalize) (tensor : T3),
    let n := Nat.min (length tensor)
                     (Nat.min (length (un_mean self)) (length (un_std self))) in
    length (UnNormalize_call self tensor) = length tensor
    /\ (forall c, (c < n)%nat ->
          nth c (UnNormalize_call self tensor) []
          = map (map (fun v => v * nth c (un_std self) 0
                               + nth c (un_mean self) 0))
                (nth c tensor []))
    /\ (forall c, (n <= c)%nat ->
          nth c (UnNormalize_call self tensor) [] = nth c tensor [])
    /\ length (inception_unnormalize tensor) = length tensor
    /\ (forall c, (3 <= c)%nat ->
          nth c (inception_unnormalize tensor) [] = nth c tensor [])
    /\ (forall c i j,
          (c < 3)%nat -> (c < length tensor)%nat ->
          (i < length (nth c tensor []))%nat ->
          (j < length (nth i (nth c tensor []) []))%nat ->
          at3 (inception_unnormalize tensor) c i j
          = at3 tensor c i j * (1 # 2) + (1 # 2)
          /\ (- (1) <= at3 tensor c i j <= 1 ->
              0 <= at3 (inception_unnormalize tensor) c i j <= 1)).
Proof.
  intros self tensor. cbv zeta. unfold UnNormalize_call.
  split; [apply UnNormalize_zip_length|]. split; [|split; [|split; [|split]]].
  - intros c Hc. rewrite UnNormalize_zip_nth.
    rewrite (proj2 (Nat.ltb_lt _ _) Hc). reflexivity.
  - intros c Hc. rewrite UnNormalize_zip_nth.
    destruct (Nat.ltb_spec c (Nat.min (length tensor)
                (Nat.min (length (un_mean self)) (length (un_std self)))));
      [lia | reflexivity].
  - apply UnNormalize_zip_length.
  - intros c Hc. unfold inception_unnormalize, Compose, UnNormalize_call.
    cbn [fold_left un_mean un_std]. rewrite UnNormalize_zip_nth.
    cbn [length].
    destruct (Nat.ltb_spec c (Nat.min (length tensor) (Nat.min 3 3)));
      [lia | reflexivity].
  - intros c i j Hc Hct Hi Hj.
    assert (Heq : at3 (inception_unnormalize tensor) c i j
                  = at3 tensor c i j * (1 # 2) + (1 # 2)).
    { unfold inception_unnormalize, Compose, UnNormalize_call, at3, at2.
      cbn [fold_left un_mean un_std]. rewrite UnNormalize_zip_nth.
      cbn [length].
      destruct (Nat.ltb_spec c (Nat.min (length tensor) (Nat.min 3 3)));
        [|lia].
      unfold T3, T2, T1 in *.
      rewrite (nth_map_default _ (nth c tensor []) i [] []) by exact Hi.
      rewrite (nth_map_default _ (nth i (nth c tensor []) []) j 0 0)
        by exact Hj.
      destruct c as [|[|[|c]]]; try lia; reflexivity. }
    split; [exact Heq|]. rewrite Heq. intros [Hlo Hhi].
    set (v := at3 tensor c i j) in *. clearbody v.
    split.
    + apply (Qle_trans _ ((- (1)) * (1 # 2) + (1 # 2))); [discriminate|].
      apply Qplus_le_l. apply Qmult_le_compat_r; [exact Hlo | discriminate].
    + apply (Qle_trans _ (1 * (1 # 2) + (1 # 2))); [|discriminate].
      apply Qplus_le_l. apply Qmult_le_compat_r; [exact Hhi | discriminate].
Qed.

(** ** The forward pass: tokens and token-wise layers *)

Lemma Forall_imap {A B : Type} (P : B -> Prop) (Q : A -> Prop)
    (f : nat -> A -> B) (l : list A) :
  (forall i a, Q a -> P (f i a)) -> Forall Q l -> Forall P (imap f l).
Proof.
  intros H Hl. unfold imap. apply Forall_map. apply Forall_forall.
  intros [i a] Hin. apply in_combine_r in Hin. cbn [fst snd].
  apply H. rewrite Forall_forall in Hl. apply Hl. exact Hin.
Qed.

Lemma map_map_tw {A B : Type} (f : A -> B) (x : list (list A)) :
  map (map f) x = tw (fun _ _ => f) x.
Proof.
  unfold tw. rewrite imap_const_map. apply map_ext. intros ex.
  symmetry. apply imap_const_map.
Qed.

Lemma nth_tw {A B : Type} (F : nat -> nat -> A -> B) (x : list (list A))
    (b j : nat) (d : A) (d' : B) :
  (b < length x)%nat -> (j < length (nth b x []))%nat ->
  nth j (nth b (tw F x) []) d' = F b j (nth j (nth b x []) d).
Proof.
  intros Hb Hj. unfold tw.
  rewrite (nth_imap _ x b [] []) by exact Hb.
  apply nth_imap. exact Hj.
Qed.

Lemma not_none_some (v : num) : v <> None -> exists r, v = Some r.
Proof. destruct v as [r|]; [eauto | contradiction]. Qed.

Lemma nsum_some (l : list num) :
  Forall (fun v : num => v <> None) l -> nsum l <> None.
Proof.
  induction 1 as [|v l Hv _ IH]; simpl; [discriminate|].
  destruct v as [r|]; [|contradiction].
  destruct (nsum l); [discriminate | contradiction].
Qed.

Lemma ndot_some (a b : list num) :
  Forall (fun v : num => v <> None) a ->
  Forall (fun v : num => v <> None) b ->
  ndot a b <> None.
Proof.
  intros Ha Hb. unfold ndot. apply nsum_some.
  apply Forall_map. apply Forall_forall. intros [u v] Hin.
  pose proof (in_combine_l _ _ _ _ Hin) as Hu.
  pose proof (in_combine_r _ _ _ _ Hin) as Hv.
  rewrite Forall_forall in Ha, Hb. specialize (Ha _ Hu). specialize (Hb _ Hv).
  cbn [fst snd]. destruct u, v; try contradiction. discriminate.
Qed.

Lemma Forall_map_Some (l : list R) :
  Forall (fun v : num => v <> None) (map Some l).
Proof. apply Forall_map. apply Forall_forall. intros r _. discriminate. Qed.

Lemma nlinear_ok (l : LinearW) (C : nat) (x : list num) :
  tok_ok C x -> tok_ok (length (lw_weight l)) (nlinear l x).
Proof.
  intros [_ Hx]. unfold nlinear. split; [apply length_imap|].
  apply (Forall_imap _ (fun _ => True)); [|apply Forall_forall; auto].
  intros o wrow _.
  pose proof (ndot_some x (map Some wrow) Hx (Forall_map_Some wrow)) as Hd.
  destruct (ndot x (map Some wrow)); [discriminate | contradiction].
Qed.

Lemma reals_some (x : list num) :
  Forall (fun v : num => v <> None) x ->
  exists r, reals x = Some r /\ length r = length x.
Proof.
  induction 1 as [|v x Hv _ (r & Hr & Hl)]; simpl.
  - exists []. auto.
  - destruct v as [a|]; [|contradiction]. rewrite Hr.
    exists (a :: r). simpl. auto.
Qed.

Lemma layer_norm_ok (eps : R) (W : LayerNormW) (C : nat) (x : list num) :
  tok_ok C x -> tok_ok C (layer_norm eps W x).
Proof.
  intros [Hl Hx]. unfold layer_norm.
  destruct (reals_some x Hx) as (r & -> & Hr). split.
  - rewrite length_map. unfold layer_norm_row. rewrite length_imap. lia.
  - apply Forall_map_Some.
Qed.

Lemma gelu_ok (gelu : R -> R) (C : nat) (x : list num) :
  tok_ok C x -> tok_ok C (map (option_map gelu) x).
Proof.
  intros [Hl Hx]. split; [rewrite length_map; exact Hl|].
  apply Forall_map. eapply Forall_impl; [|exact Hx].
  intros [r|] H; [discriminate | contradiction].
Qed.

Lemma ndrop_ok (keep : nat -> bool) (p : R) (C : nat) (x : list num) :
  tok_ok C x -> tok_ok C (imap (fun c v => ndrop (keep c) p v) x).
Proof.
  intros [Hl Hx]. split; [rewrite length_imap; exact Hl|].
  apply (Forall_imap _ (fun v : num => v <> None)); [|exact Hx].
  intros i [r|] H; [discriminate | contradiction].
Qed.

Lemma add_row_ok (C : nat) (a b : list num) :
  tok_ok C a -> tok_ok C b -> tok_ok C (add_row a b).
Proof.
  intros [Hla Ha] [Hlb Hb]. unfold add_row.
  rewrite Hla, Hlb, Nat.eqb_refl. split.
  - rewrite length_map, length_combine. lia.
  - apply Forall_map. apply Forall_forall. intros [u v] Hin.
    pose proof (in_combine_l _ _ _ _ Hin) as Hu.
    pose proof (in_combine_r _ _ _ _ Hin) as Hv.
    rewrite Forall_forall in Ha, Hb. specialize (Ha _ Hu). specialize (Hb _ Hv).
    cbn [fst snd]. destruct u, v; try contradiction. discriminate.
Qed.

(** *** Batches *)

Lemma batch_ok_nth (B N C : nat) (x : tokens) (b : nat) :
  batch_ok B N C x -> (b < B)%nat ->
  length (nth b x []) = N /\ Forall (tok_ok C) (nth b x []).
Proof.
  intros [Hl Hx] Hb. rewrite Forall_forall in Hx.
  apply Hx. apply nth_In. lia.
Qed.

Lemma batch_ok_tok (B N C : nat) (x : tokens) (b j : nat) :
  batch_ok B N C x -> (b < B)%nat -> (j < N)%nat ->
  tok_ok C (nth j (nth b x []) []).
Proof.
  intros Hx Hb Hj. destruct (batch_ok_nth B N C x b Hx Hb) as [Hl Ht].
  rewrite Forall_forall in Ht. apply Ht. apply nth_In. lia.
Qed.

Lemma batch_ok_dims (B N C : nat) (x : tokens) :
  batch_ok B N C x -> (0 < B)%nat -> (0 < N)%nat ->
  length x = B /\ length (hd [] x) = N /\ width x = C.
Proof.
  intros Hx HB HN. split; [apply Hx|].
  pose proof (batch_ok_nth B N C x 0 Hx HB) as [Hl _].
  pose proof (batch_ok_tok B N C x 0 0 Hx HB HN) as [Hc _].
  unfold width. destruct x as [|ex x]; simpl in *; [lia|].
  split; [exact Hl|]. destruct ex as [|tok ex]; simpl in *; [lia | exact Hc].
Qed.

Lemma batch_ok_iff (B N C : nat) (x : tokens) :
  batch_ok B N C x <-> rect3 B N C x /\ finite x.
Proof.
  unfold batch_ok, rect3, rect2, finite, tok_ok. split.
  - intros [Hl Hx]. split; [split; [exact Hl|]|].
    + eapply Forall_impl; [|exact Hx]. intros ex [He Ht]. split; [exact He|].
      eapply Forall_impl; [|exact Ht]. intros t [H _]. exact H.
    + eapply Forall_impl; [|exact Hx]. intros ex [He Ht].
      eapply Forall_impl; [|exact Ht]. intros t [_ H]. exact H.
  - intros [[Hl Hr] Hf]. split; [exact Hl|].
    rewrite Forall_forall in *. intros ex Hex.
    destruct (Hr ex Hex) as [He Ht]. specialize (Hf ex Hex).
    split; [exact He|]. rewrite Forall_forall in *. intros t Hin.
    split; [apply Ht | apply Hf]; exact Hin.
Qed.

Lemma tw_ok (F : nat -> nat -> list num -> list num) (B N C C' : nat)
    (x : tokens) :
  (forall b t tok, tok_ok C tok -> tok_ok C' (F b t tok)) ->
  batch_ok B N C x -> batch_ok B N C' (tw F x).
Proof.
  intros HF [Hl Hx]. unfold tw. split; [rewrite length_imap; exact Hl|].
  apply (Forall_imap _ (fun ex => length ex = N /\ Forall (tok_ok C) ex));
    [|exact Hx].
  intros b ex [He Ht]. split; [rewrite length_imap; exact He|].
  apply (Forall_imap _ (tok_ok C)); [|exact Ht].
  intros t tok Htok. apply HF. exact Htok.
Qed.

Lemma tw_agree (F : nat -> nat -> list num -> list num) (B N C : nat)
    (m : list (list Z)) (x x' : tokens) :
  batch_ok B N C x -> batch_ok B N C x' -> agree B N m x x' ->
  agree B N m (tw F x) (tw F x').
Proof.
  intros Hx Hx' Ha b j Hb Hj Hm.
  destruct (batch_ok_nth B N C x b Hx Hb) as [Hl _].
  destruct (batch_ok_nth B N C x' b Hx' Hb) as [Hl' _].
  rewrite (nth_tw F x b j [] []) by (destruct Hx; lia).
  rewrite (nth_tw F x' b j [] []) by (destruct Hx'; lia).
  rewrite (Ha b j Hb Hj Hm). reflexivity.
Qed.

Lemma paired_tw (F : nat -> nat -> list num -> list num) (B N C C' : nat)
    (m : list (list Z)) (x x' : tokens) :
  (forall b t tok, tok_ok C tok -> tok_ok C' (F b t tok)) ->
  paired B N C m x x' -> paired B N C' m (tw F x) (tw F x').
Proof.
  intros HF (Hx & Hx' & Ha). split; [|split].
  - apply (tw_ok F B N C C'); assumption.
  - apply (tw_ok F B N C C'); assumption.
  - apply (tw_agree F B N C); assumption.
Qed.

Lemma paired_map (f : list num -> list num) (B N C C' : nat)
    (m : list (list Z)) (x x' : tokens) :
  (forall tok, tok_ok C tok -> tok_ok C' (f tok)) ->
  paired B N C m x x' -> paired B N C' m (map (map f) x) (map (map f) x').
Proof.
  intros Hf Hp. rewrite !map_map_tw. apply (paired_tw _ B N C C'); auto.
Qed.

Lemma paired_dims (B N C : nat) (m : list (list Z)) (x x' : tokens) :
  paired B N C m x x' -> (0 < B)%nat -> (0 < N)%nat ->
  (length x = B /\ length (hd [] x) = N /\ width x = C)
  /\ (length x' = B /\ length (hd [] x') = N /\ width x' = C).
Proof.
  intros (Hx & Hx' & _) HB HN.
  split; apply batch_ok_dims; assumption.
Qed.

(** *** Dropout, drop path and the residual sum *)

Lemma paired_ndropout (training : bool) (p : Q) (rnd : randomness)
    (pos B N C : nat) (m : list (list Z)) (x x' : tokens) :
  (0 < B)%nat -> (0 < N)%nat ->
  paired B N C m x x' ->
  paired B N C m (ndropout training p rnd pos x)
                 (ndropout training p rnd pos x').
Proof.
  intros HB HN Hp. unfold ndropout.
  destruct (training && negb (Qeq_bool p 0)); [|exact Hp].
  destruct (paired_dims B N C m x x' Hp HB HN)
    as ((_ & Hn & Hw) & (_ & Hn' & Hw')).
  rewrite Hn, Hw, Hn', Hw'.
  apply (paired_tw
           (fun b t tok =>
              imap (fun c v =>
                      ndrop (coin rnd (pos + (b * N + t) * C + c)) (Q2R p) v)
                   tok) B N C C); [|exact Hp].
  intros b t tok Htok.
  apply (ndrop_ok (fun c => coin rnd (pos + (b * N + t) * C + c))). exact Htok.
Qed.

Lemma paired_drop_path (dp : Q) (training : bool) (u : nat -> Q)
    (pos B N C : nat) (m : list (list Z)) (x x' : tokens) :
  ~ dp == 1 ->
  paired B N C m x x' ->
  paired B N C m (drop_path dp training u pos x)
                 (drop_path dp training u pos x').
Proof.
  intros Hdp Hp. unfold drop_path.
  destruct (Qeq_bool dp 0 || negb training); [exact Hp|].
  assert (Hk : Qeq_bool (1 - dp) 0 = false).
  { destruct (Qeq_bool (1 - dp) 0) eqn:E; [|reflexivity].
    apply Qeq_bool_eq in E. exfalso. apply Hdp.
    setoid_replace dp with (1 - (1 - dp)) by ring. rewrite E. reflexivity. }
  rewrite Hk.
  set (g := fun b : nat =>
              map (fun v : num =>
                     match v with
                     | Some r =>
                         Some (r / Q2R (1 - dp)
                               * IZR (Qfloor (1 - dp + frac (u (pos + b)%nat))))%R
                     | None => None
                     end)).
  assert (E : forall y : tokens,
            imap (fun b ex =>
                    map (map (fun v : num =>
                           match v with
                           | Some r =>
                               Some (r / Q2R (1 - dp)
                                     * IZR (Qfloor (1 - dp
                                                    + frac (u (pos + b)%nat))))%R
                           | None => None
                           end)) ex) y
            = tw (fun b _ => g b) y).
  { intros y. unfold tw. unfold imap at 1 2. apply map_ext.
    intros [b ex]. cbn [fst snd]. rewrite imap_const_map. reflexivity. }
  rewrite !E.
  apply (paired_tw _ B N C C); [|exact Hp].
  intros b t tok [Hl Ht]. unfold g. split; [rewrite length_map; exact Hl|].
  apply Forall_map. eapply Forall_impl; [|exact Ht].
  intros [r|] H; [discriminate | contradiction].
Qed.

Lemma paired_add (B N C : nat) (m : list (list Z)) (x x' y y' : tokens) :
  (0 < B)%nat -> (0 < N)%nat ->
  paired B N C m x x' -> paired B N C m y y' ->
  exists z z',
    add_tokens x y = Ok z /\ add_tokens x' y' = Ok z'
    /\ paired B N C m z z'.
Proof.
  intros HB HN Hx Hy.
  destruct (paired_dims B N C m x x' Hx HB HN)
    as ((_ & _ & Hw) & (_ & _ & Hw')).
  destruct (paired_dims B N C m y y' Hy HB HN)
    as ((_ & _ & Hv) & (_ & _ & Hv')).
  unfold add_tokens. rewrite Hw, Hw', Hv, Hv', Nat.eqb_refl.
  cbn [orb guard bind]. eexists _, _. split; [reflexivity|].
  split; [reflexivity|].
  destruct Hx as (Hx & Hx' & Hax). destruct Hy as (Hy & Hy' & Hay).
  assert (Hok : forall a c : tokens,
            batch_ok B N C a -> batch_ok B N C c ->
            batch_ok B N C
              (map (fun ex => map (fun tk => add_row (fst tk) (snd tk))
                                  (combine (fst ex) (snd ex)))
                   (combine a c))).
  { intros a c [Hla Ha] [Hlc Hc]. split.
    - rewrite length_map, length_combine. lia.
    - apply Forall_map. apply Forall_forall. intros [ea ec] Hin.
      pose proof (in_combine_l _ _ _ _ Hin) as Hea.
      pose proof (in_combine_r _ _ _ _ Hin) as Hec.
      rewrite Forall_forall in Ha, Hc.
      destruct (Ha _ Hea) as [Hna Hta]. destruct (Hc _ Hec) as [Hnc Htc].
      cbn [fst snd]. split.
      + rewrite length_map, length_combine. lia.
      + apply Forall_map. apply Forall_forall. intros [ta tc] Hin'.
        pose proof (in_combine_l _ _ _ _ Hin') as H1.
        pose proof (in_combine_r _ _ _ _ Hin') as H2.
        rewrite Forall_forall in Hta, Htc. cbn [fst snd].
        apply add_row_ok; auto. }
  assert (Hnth : forall (a c : tokens) b j,
            batch_ok B N C a -> batch_ok B N C c ->
            (b < B)%nat -> (j < N)%nat ->
            nth j (nth b (map (fun ex => map (fun tk => add_row (fst tk) (snd tk))
                                             (combine (fst ex) (snd ex)))
                              (combine a c)) []) []
            = add_row (nth j (nth b a []) []) (nth j (nth b c []) [])).
  { intros a c b j Ha Hc Hb Hj.
    destruct (batch_ok_nth B N C a b Ha Hb) as [Hna _].
    destruct (batch_ok_nth B N C c b Hc Hb) as [Hnc _].
    rewrite (nth_map_default _ _ _ ([], []))
      by (rewrite length_combine; destruct Ha, Hc; lia).
    rewrite combine_nth by (destruct Ha, Hc; lia). cbn [fst snd].
    rewrite (nth_map_default _ _ _ ([], []))
      by (rewrite length_combine; lia).
    rewrite combine_nth by lia. reflexivity. }
  split; [apply Hok; assumption|]. split; [apply Hok; assumption|].
  intros b j Hb Hj Hm. rewrite !Hnth by assumption.
  rewrite (Hax b j Hb Hj Hm), (Hay b j Hb Hj Hm). reflexivity.
Qed.

(** ** The forward pass: masked attention *)

Lemma Forall_imap_nth {A B : Type} (P : B -> Prop) (f : nat -> A -> B)
    (l : list A) (d : A) :
  (forall i, (i < length l)%nat -> P (f i (nth i l d))) ->
  Forall P (imap f l).
Proof.
  intros H. apply Forall_forall. intros y Hy.
  destruct l as [|a0 l0] eqn:El; [contradiction|]. rewrite <- El in *.
  apply (In_nth _ _ (f 0%nat a0)) in Hy as (i & Hi & <-).
  rewrite length_imap in Hi.
  rewrite (nth_imap f l i d) by exact Hi. apply H. exact Hi.
Qed.

Lemma tok_ok_nth (C : nat) (t : list num) (d : nat) :
  tok_ok C t -> (d < C)%nat -> nth d t None <> None.
Proof.
  intros [Hl Ht] Hd. rewrite Forall_forall in Ht. apply Ht.
  apply nth_In. lia.
Qed.

Lemma slice_ok (s h heads hd : nat) (row : list num) :
  tok_ok (3 * heads * hd) row -> (s < 3)%nat -> (h < heads)%nat ->
  tok_ok hd (slice_head s h heads hd row).
Proof.
  intros [Hl Ht] Hs Hh. unfold slice_head. split.
  - rewrite length_firstn, length_skipn, Hl.
    assert ((s * heads + h) * hd + hd <= 3 * heads * hd)%nat by nia. lia.
  - apply Forall_firstn_skipn. exact Ht.
Qed.

Lemma nth_slices (s h heads hd : nat) (qb : list (list num)) (j d : nat) :
  (j < length qb)%nat -> (d < hd)%nat ->
  nth d (nth j (map (slice_head s h heads hd) qb) []) None
  = nth ((s * heads + h) * hd + d) (nth j qb []) None.
Proof.
  intros Hj Hd. rewrite (nth_map_default _ qb j [] []) by exact Hj.
  unfold slice_head. apply nth_firstn_skipn. exact Hd.
Qed.

Section Row.

Variables (scale : R) (dropping : bool) (rnd : randomness) (p : Q).
Variables (pos heads hd N : nat) (m : list (list Z)) (b h i : nat).

Let row (qi : list num) (k : list (list num)) : list fval :=
attention_row scale dropping rnd p pos heads N (Some m) b h i qi k.

Let pre (qi : list num) (k : list (list num)) : list fval :=
imap (fun j kj => mask_fill (Some m) b j (logit_of scale (ndot qi kj))) k.

Lemma row_length (qi : list num) (k : list (list num)) :
length (row qi k) = length k.
Proof.
unfold row, attention_row. destruct dropping;
  rewrite ?length_imap, softmax_row_length, length_imap; reflexivity.
Qed.

Lemma pre_no_nan (qi : list num) (k : list (list num)) :
tok_ok hd qi -> Forall (tok_ok hd) k ->
existsb is_nan (pre qi k) = false.
Proof.
intros [_ Hq] Hk.
destruct (existsb is_nan (pre qi k)) eqn:E; [|reflexivity].
apply existsb_exists in E as (v & Hin & Hv).
apply (In_nth _ _ NaN) in Hin as (j & Hj & <-).
unfold pre in Hj, Hv. rewrite length_imap in Hj.
rewrite (nth_imap _ k j [] NaN) in Hv by exact Hj.
assert (Hkj : tok_ok hd (nth j k [])).
{ rewrite Forall_forall in Hk. apply Hk. apply nth_In. exact Hj. }
pose proof (ndot_some qi (nth j k []) Hq (proj2 Hkj)) as Hd.
cbn [mask_fill] in Hv. destruct (_ =? _)%Z; [discriminate Hv|].
destruct (ndot qi (nth j k [])); [discriminate Hv | contradiction].
Qed.

Lemma pre_some_finite (qi : list num) (k : list (list num)) (j0 : nat) :
tok_ok hd qi -> Forall (tok_ok hd) k ->
(j0 < length k)%nat -> unmasked m b j0 ->
forallb is_neginf (pre qi k) = false.
Proof.
intros [_ Hq] Hk Hj0 Hm.
destruct (forallb is_neginf (pre qi k)) eqn:E; [|reflexivity].
rewrite forallb_forall in E.
assert (Hin : In (nth j0 (pre qi k) NaN) (pre qi k))
  by (apply nth_In; unfold pre; rewrite length_imap; exact Hj0).
apply E in Hin. unfold pre in Hin.
rewrite (nth_imap _ k j0 [] NaN) in Hin by exact Hj0.
cbn [mask_fill] in Hin. unfold unmasked in Hm.
destruct (Z.eqb_spec (nth j0 (nth b m []) 0%Z) 0); [contradiction|].
destruct (ndot qi (nth j0 k [])); discriminate Hin.
Qed.

Lemma row_fin (qi : list num) (k : list (list num)) (j0 : nat) :
tok_ok hd qi -> Forall (tok_ok hd) k ->
(j0 < length k)%nat -> unmasked m b j0 ->
Forall (fun v => exists r, v = Fin r) (row qi k).
Proof.
intros Hq Hk Hj0 Hm.
destruct (softmax_row_distribution (pre qi k) (pre_no_nan qi k Hq Hk)
            (pre_some_finite qi k j0 Hq Hk Hj0 Hm)) as (Hall & _ & _).
unfold row, attention_row. fold (pre qi k). destruct dropping.
- apply (Forall_imap _ (fun v => exists r, v = Fin r /\ (0 <= r <= 1)%R));
    [|exact Hall].
  intros j v (r & -> & _). cbn [drop_fval]. eauto.
- eapply Forall_impl; [|exact Hall]. intros v (r & -> & _). eauto.
Qed.

Lemma row_masked (qi : list num) (k : list (list num)) (j j0 : nat) :
tok_ok hd qi -> Forall (tok_ok hd) k ->
(j0 < length k)%nat -> unmasked m b j0 ->
(j < length k)%nat -> ~ unmasked m b j ->
nth j (row qi k) NaN = Fin 0.
Proof.
intros Hq Hk Hj0 Hm Hj Hnm.
assert (Hpre : nth j (pre qi k) NaN = NegInf).
{ unfold pre. rewrite (nth_imap _ k j [] NaN) by exact Hj.
  cbn [mask_fill]. unfold unmasked in Hnm.
  destruct (Z.eqb_spec (nth j (nth b m []) 0%Z) 0);
    [reflexivity | contradiction]. }
pose proof (softmax_row_masked (pre qi k) j (pre_no_nan qi k Hq Hk)
              (pre_some_finite qi k j0 Hq Hk Hj0 Hm) Hpre) as Hs.
unfold row, attention_row. fold (pre qi k). destruct dropping.
- rewrite (nth_imap _ _ j NaN NaN)
    by (rewrite softmax_row_length; unfold pre; rewrite length_imap;
        exact Hj).
  rewrite Hs. cbn [drop_fval]. f_equal.
  destruct (coin rnd _); [unfold Rdiv; ring | reflexivity].
- exact Hs.
Qed.

Lemma row_eq (qi : list num) (k k' : list (list num)) :
length k = length k' ->
(forall j, (j < length k)%nat -> unmasked m b j ->
           nth j k [] = nth j k' []) ->
row qi k = row qi k'.
Proof.
intros Hl Hk.
assert (Hpre : pre qi k = pre qi k').
{ apply (list_ext NaN).
  - unfold pre. rewrite !length_imap. exact Hl.
  - intros j Hj. unfold pre in *. rewrite length_imap in Hj.
    rewrite (nth_imap _ k j [] NaN) by exact Hj.
    rewrite (nth_imap _ k' j [] NaN) by lia.
    cbn [mask_fill].
    destruct (Z.eqb_spec (nth j (nth b m []) 0%Z) 0) as [|Hne];
      [reflexivity|].
    rewrite (Hk j Hj Hne). reflexivity. }
unfold row, attention_row. fold (pre qi k) (pre qi k').
rewrite Hpre. reflexivity.
Qed.

End Row.

Lemma attention_weights_nth (scale : R) (dropping : bool) (rnd : randomness)
    (p : Q) (pos heads hd N : nat) (mask : option (list (list Z)))
    (qkv : tokens) (b h i : nat) :
  (b < length qkv)%nat -> (h < heads)%nat ->
  (i < length (nth b qkv []))%nat ->
  nth i (nth h (nth b (attention_weights scale dropping rnd p pos heads hd N
                                          mask qkv) []) []) []
  = attention_row scale dropping rnd p pos heads N mask b h i
      (slice_head 0 h heads hd (nth i (nth b qkv []) []))
      (map (slice_head 1 h heads hd) (nth b qkv [])).
Proof.
  intros Hb Hh Hi. unfold attention_weights.
  rewrite (nth_imap _ qkv b [] []) by exact Hb.
  rewrite nth_tabulate by exact Hh.
  rewrite (nth_imap _ _ i [] []) by (rewrite length_map; exact Hi).
  rewrite (nth_map_default _ _ i [] []) by exact Hi. reflexivity.
Qed.

Lemma attention_context_nth (heads hd N : nat)
    (attn : list (list (list (list fval)))) (qkv : tokens) (b i : nat) :
  (b < length qkv)%nat -> (i < N)%nat ->
  nth i (nth b (attention_context heads hd N attn qkv) []) []
  = concat (tabulate heads (fun h =>
      tabulate hd (fun d =>
        nsum (imap (fun j a =>
                      nmul (weight_num a)
                           (nth d (nth j (map (slice_head 2 h heads hd)
                                              (nth b qkv [])) []) None))
                   (nth i (nth h (nth b attn []) []) []))))).
Proof.
  intros Hb Hi. unfold attention_context.
  rewrite (nth_imap _ qkv b [] []) by exact Hb.
  rewrite nth_tabulate by exact Hi. reflexivity.
Qed.

Section Context.

Variables (scale : R) (dropping : bool) (rnd : randomness) (p : Q).
Variables (pos heads hd B N : nat) (m : list (list Z)).

Hypothesis some_key :
forall b, (b < B)%nat -> exists j, (j < N)%nat /\ unmasked m b j.

Let weights (qkv : tokens) :=
attention_weights scale dropping rnd p pos heads hd N (Some m) qkv.

Let context (qkv : tokens) : tokens :=
attention_context heads hd N (weights qkv) qkv.

Lemma keys_ok (qkv : tokens) (b h : nat) (s : nat) :
batch_ok B N (3 * heads * hd) qkv -> (b < B)%nat -> (h < heads)%nat ->
(s < 3)%nat ->
length (map (slice_head s h heads hd) (nth b qkv [])) = N
/\ Forall (tok_ok hd) (map (slice_head s h heads hd) (nth b qkv [])).
Proof.
intros Hq Hb Hh Hs.
destruct (batch_ok_nth _ _ _ _ b Hq Hb) as [Hn Ht].
split; [rewrite length_map; exact Hn|].
apply Forall_map. eapply Forall_impl; [|exact Ht].
intros t Htok. apply slice_ok; assumption.
Qed.

Lemma context_entry_ok (qkv : tokens) (b i h d : nat) :
batch_ok B N (3 * heads * hd) qkv ->
(b < B)%nat -> (i < N)%nat -> (h < heads)%nat -> (d < hd)%nat ->
nsum (imap (fun j a =>
              nmul (weight_num a)
                   (nth d (nth j (map (slice_head 2 h heads hd)
                                      (nth b qkv [])) []) None))
           (nth i (nth h (nth b (weights qkv) []) []) []))
<> None.
Proof.
intros Hq Hb Hi Hh Hd.
destruct (batch_ok_nth _ _ _ _ b Hq Hb) as [Hn Ht].
destruct (some_key b Hb) as (j0 & Hj0 & Hm0).
destruct (keys_ok qkv b h 1 Hq Hb Hh ltac:(lia)) as [Hkl Hk].
destruct (keys_ok qkv b h 2 Hq Hb Hh ltac:(lia)) as [Hvl Hv].
pose proof (batch_ok_tok _ _ _ _ b i Hq Hb Hi) as Hti.
pose proof (slice_ok 0 h heads hd _ Hti ltac:(lia) Hh) as Hqi.
unfold weights.
rewrite attention_weights_nth by (destruct Hq; lia).
set (qi := slice_head 0 h heads hd _) in *.
set (k := map (slice_head 1 h heads hd) _) in *.
pose proof (row_fin scale dropping rnd p pos heads hd N m b h i qi k j0
              Hqi Hk ltac:(lia) Hm0) as Hfin.
pose proof (row_length scale dropping rnd p pos heads N m b h i qi k) as Hrl.
apply nsum_some. apply (Forall_imap_nth _ _ _ NaN).
intros j Hj. rewrite Hrl, Hkl in Hj.
rewrite Forall_forall in Hfin.
destruct (Hfin (nth j (attention_row scale dropping rnd p pos heads N
                         (Some m) b h i qi k) NaN))
  as (r & ->); [apply nth_In; lia|].
assert (Hvj : tok_ok hd (nth j (map (slice_head 2 h heads hd)
                                    (nth b qkv [])) [])).
{ rewrite Forall_forall in Hv. apply Hv. apply nth_In. lia. }
pose proof (tok_ok_nth hd _ d Hvj Hd) as Hne.
cbn [weight_num].
destruct (nth d _ None); [discriminate | contradiction].
Qed.

Lemma context_ok (qkv : tokens) :
batch_ok B N (3 * heads * hd) qkv ->
batch_ok B N (heads * hd) (context qkv).
Proof.
intros Hq. pose proof Hq as [Hl _].
unfold context. split.
- unfold attention_context. rewrite length_imap. exact Hl.
- apply Forall_forall. intros ex Hex.
  apply (In_nth _ _ []) in Hex as (b & Hb & <-).
  unfold attention_context in Hb. rewrite length_imap, Hl in Hb.
  assert (Hlen : length (nth b (attention_context heads hd N (weights qkv)
                                  qkv) []) = N).
  { unfold attention_context.
    rewrite (nth_imap _ qkv b [] []) by lia. apply length_tabulate. }
  split; [exact Hlen|].
  apply Forall_forall. intros t Ht.
  apply (In_nth _ _ []) in Ht as (i & Hi & <-). rewrite Hlen in Hi.
  rewrite attention_context_nth by lia. split.
  + rewrite (length_concat_rect hd).
    * rewrite length_tabulate. reflexivity.
    * apply Forall_tabulate. intros h Hh. apply length_tabulate.
  + apply Forall_concat. apply Forall_tabulate. intros h Hh.
    apply Forall_tabulate. intros d Hd.
    apply context_entry_ok; assumption.
Qed.

Lemma context_agree (qkv qkv' : tokens) :
paired B N (3 * heads * hd) m qkv qkv' ->
agree B N m (context qkv) (context qkv').
Proof.
intros (Hq & Hq' & Ha) b i Hb Hi Hm.
pose proof Hq as [Hl _]. pose proof Hq' as [Hl' _].
destruct (batch_ok_nth _ _ _ _ b Hq Hb) as [Hn Ht].
destruct (batch_ok_nth _ _ _ _ b Hq' Hb) as [Hn' Ht'].
destruct (some_key b Hb) as (j0 & Hj0 & Hm0).
unfold context.
rewrite !attention_context_nth by lia.
f_equal. apply tabulate_ext. intros h Hh.
apply tabulate_ext. intros d Hd.
destruct (keys_ok qkv b h 1 Hq Hb Hh ltac:(lia)) as [Hkl Hk].
destruct (keys_ok qkv' b h 1 Hq' Hb Hh ltac:(lia)) as [Hkl' Hk'].
destruct (keys_ok qkv b h 2 Hq Hb Hh ltac:(lia)) as [Hvl Hv].
destruct (keys_ok qkv' b h 2 Hq' Hb Hh ltac:(lia)) as [Hvl' Hv'].
pose proof (batch_ok_tok _ _ _ _ b i Hq Hb Hi) as Hti.
pose proof (slice_ok 0 h heads hd _ Hti ltac:(lia) Hh) as Hqi.
unfold weights.
rewrite !attention_weights_nth by lia.
rewrite <- (Ha b i Hb Hi Hm).
set (qi := slice_head 0 h heads hd _) in *.
set (k := map (slice_head 1 h heads hd) (nth b qkv [])) in *.
set (k' := map (slice_head 1 h heads hd) (nth b qkv' [])) in *.
assert (Hrow : attention_row scale dropping rnd p pos heads N (Some m) b h i
                 qi k
               = attention_row scale dropping rnd p pos heads N (Some m) b h i
                   qi k').
{ apply row_eq; [lia|]. intros j Hj Hmj. unfold k, k'.
  rewrite (nth_map_default _ _ j [] []) by lia.
  rewrite (nth_map_default _ _ j [] []) by lia.
  rewrite (Ha b j Hb ltac:(lia) Hmj). reflexivity. }
rewrite <- Hrow.
pose proof (row_length scale dropping rnd p pos heads N m b h i qi k) as Hrl.
f_equal. apply (list_ext None); [rewrite !length_imap; reflexivity|].
intros j Hj. rewrite length_imap, Hrl, Hkl in Hj.
rewrite !(nth_imap _ _ j NaN None) by lia.
destruct (Z.eq_dec (nth j (nth b m []) 0%Z) 0) as [Hz|Hnz].
- rewrite (row_masked scale dropping rnd p pos heads hd N m b h i qi k j j0)
    by (try assumption; try lia; unfold unmasked; intros Hc; apply Hc;
        exact Hz).
  cbn [weight_num].
  assert (Hvj : tok_ok hd (nth j (map (slice_head 2 h heads hd)
                                      (nth b qkv [])) [])).
  { rewrite Forall_forall in Hv. apply Hv. apply nth_In. lia. }
  assert (Hvj' : tok_ok hd (nth j (map (slice_head 2 h heads hd)
                                       (nth b qkv' [])) [])).
  { rewrite Forall_forall in Hv'. apply Hv'. apply nth_In. lia. }
  pose proof (tok_ok_nth hd _ d Hvj Hd) as Hne.
  pose proof (tok_ok_nth hd _ d Hvj' Hd) as Hne'.
  destruct (nth d (nth j (map (slice_head 2 h heads hd) (nth b qkv [])) [])
              None) as [r|]; [|contradiction].
  destruct (nth d (nth j (map (slice_head 2 h heads hd) (nth b qkv' [])) [])
              None) as [r'|]; [|contradiction].
  cbn [nmul]. f_equal. ring.
- rewrite (nth_map_default _ _ j [] []) by lia.
  rewrite (nth_map_default _ (nth b qkv' []) j [] []) by lia.
  rewrite (Ha b j Hb ltac:(lia) Hnz). reflexivity.
Qed.

Lemma paired_context (qkv qkv' : tokens) :
paired B N (3 * heads * hd) m qkv qkv' ->
paired B N (heads * hd) m (context qkv) (context qkv').
Proof.
intros Hp. pose proof Hp as (Hq & Hq' & _).
split; [apply context_ok; exact Hq|].
split; [apply context_ok; exact Hq'|].
apply context_agree. exact Hp.
Qed.

End Context.

(** ** The forward pass: the layers on two batches *)

Lemma paired_Attention (self : Attention.t) (W : AttentionW) (training : bool)
    (rnd : randomness) (pos B N C : nat) (m : list (list Z)) (x x' : tokens) :
  (0 < B)%nat -> (0 < N)%nat ->
  (forall b, (b < B)%nat -> exists j, (j < N)%nat /\ unmasked m b j) ->
  in_features (Attention.qkv self) = Z.of_nat C ->
  out_features (Attention.qkv self) = (Z.of_nat C * 3)%Z ->
  linear_fits (Attention.qkv self) (w_qkv W) ->
  in_features (Attention.proj self) = Z.of_nat C ->
  out_features (Attention.proj self) = Z.of_nat C ->
  linear_fits (Attention.proj self) (w_proj W) ->
  (0 < Attention.num_heads self)%Z ->
  (Z.of_nat C mod Attention.num_heads self = 0)%Z ->
  paired B N C m x x' ->
  exists y y' a a',
    Attention_forward_full self W training rnd pos x (Some m) = Ok (y, a)
    /\ Attention_forward_full self W training rnd pos x' (Some m) = Ok (y', a')
    /\ paired B N C m y y'.
Proof.
  intros HB HN Hkey Hqi Hqo [Hql _] Hpi Hpo [Hpl _] Hnh Hmod Hp.
  destruct (paired_dims B N C m x x' Hp HB HN)
    as ((Hl & Hn & Hw) & (Hl' & Hn' & Hw')).
  unfold Attention_forward_full.
  rewrite Hl, Hn, Hw, Hl', Hn', Hw'.
  unfold linear_check. rewrite Hqi, Hpi, Z.eqb_refl. cbn [guard bind].
  unfold floordiv. rewrite (proj2 (Z.eqb_neq _ 0)) by lia. cbn [bind].
  set (heads := Z.to_nat (Attention.num_heads self)).
  set (hd := Z.to_nat (Z.of_nat C / Attention.num_heads self)).
  assert (Hhd : (heads * hd)%nat = C).
  { apply Nat2Z.inj. unfold heads, hd.
    assert (0 <= Z.of_nat C / Attention.num_heads self)%Z
      by (apply Z.div_pos; lia).
    rewrite Nat2Z.inj_mul, !Z2Nat.id by lia.
    pose proof (Z.div_mod (Z.of_nat C) (Attention.num_heads self)
                  ltac:(lia)). lia. }
  assert (Hwq : length (lw_weight (w_qkv W)) = (3 * heads * hd)%nat).
  { rewrite <- Nat.mul_assoc, Hhd. lia. }
  assert (Hwp : length (lw_weight (w_proj W)) = C) by lia.
  rewrite (proj2 (Z.leb_le 0 _)) by lia.
  rewrite Hwq, Nat.eqb_refl. cbn [andb guard bind].
  rewrite Hhd, Nat.eqb_refl. cbn [guard bind].
  eexists _, _, _, _. split; [reflexivity|]. split; [reflexivity|].
  pose proof (paired_map (nlinear (w_qkv W)) B N C
                (length (lw_weight (w_qkv W))) m x x'
                (fun tok H => nlinear_ok _ C tok H) Hp) as H1.
  rewrite Hwq in H1.
  pose proof (paired_context
                (scale_value (Attention.scale self))
                (training && negb (Qeq_bool (Attention.attn_drop self) 0))
                rnd (Attention.attn_drop self) pos heads hd B N m Hkey
                _ _ H1) as H2.
  rewrite Hhd in H2.
  pose proof (paired_map (nlinear (w_proj W)) B N C
                (length (lw_weight (w_proj W))) m _ _
                (fun tok H => nlinear_ok _ C tok H) H2) as H3.
  rewrite Hwp in H3.
  apply paired_ndropout; assumption.
Qed.

Section Layers.

Variable gelu : R -> R.
Variable custom_norm :
string -> LayerNorm -> LayerNormW -> tokens -> result tokens.

Lemma paired_LayerNorm (self : LayerNorm) (W : LayerNormW)
  (B N C : nat) (m : list (list Z)) (x x' : tokens) :
(0 < B)%nat -> (0 < N)%nat ->
norm_fits (Z.of_nat C) self W ->
paired B N C m x x' ->
exists y y',
  LayerNorm_forward custom_norm self W x = Ok y
  /\ LayerNorm_forward custom_norm self W x' = Ok y'
  /\ paired B N C m y y'.
Proof.
intros HB HN (Hshape & Hcls & _) Hp.
destruct (paired_dims B N C m x x' Hp HB HN)
  as ((_ & _ & Hw) & (_ & _ & Hw')).
unfold LayerNorm_forward. rewrite Hw, Hw', Hshape, Z.eqb_refl.
destruct Hcls as [-> | ->]; cbn [String.eqb Ascii.eqb Bool.eqb guard bind];
  (eexists _, _; split; [reflexivity|]; split; [reflexivity|];
   apply (paired_map _ B N C C); [|exact Hp];
   intros tok H; apply layer_norm_ok; exact H).
Qed.

Lemma paired_Mlp (self : Mlp.t) (W : MlpW) (training : bool)
  (rnd : randomness) (pos B N C : nat) (m : list (list Z)) (x x' : tokens) :
(0 < B)%nat -> (0 < N)%nat ->
in_features (Mlp.fc1 self) = Z.of_nat C ->
linear_fits (Mlp.fc1 self) (w_fc1 W) ->
in_features (Mlp.fc2 self) = out_features (Mlp.fc1 self) ->
out_features (Mlp.fc2 self) = Z.of_nat C ->
linear_fits (Mlp.fc2 self) (w_fc2 W) ->
paired B N C m x x' ->
exists y y',
  Mlp_forward gelu self W training rnd pos x = Ok y
  /\ Mlp_forward gelu self W training rnd pos x' = Ok y'
  /\ paired B N C m y y'.
Proof.
intros HB HN H1i [H1l _] H2i H2o [H2l _] Hp.
destruct (paired_dims B N C m x x' Hp HB HN)
  as ((Hl & Hn & Hw) & (Hl' & Hn' & Hw')).
set (H := length (lw_weight (w_fc1 W))) in *.
assert (Hw2 : length (lw_weight (w_fc2 W)) = C) by lia.
pose proof (paired_map (nlinear (w_fc1 W)) B N C H m x x'
              (fun tok Ht => nlinear_ok _ C tok Ht) Hp) as P1.
pose proof (paired_map (map (option_map gelu)) B N H H m _ _
              (fun tok Ht => gelu_ok gelu H tok Ht) P1) as P2.
pose proof (paired_ndropout training (Mlp.drop self) rnd pos B N H m _ _
              HB HN P2) as P3.
destruct (paired_dims B N H m _ _ P3 HB HN)
  as ((_ & _ & Hw3) & (_ & _ & Hw3')).
unfold Mlp_forward.
rewrite Hl, Hn, Hw, Hl', Hn', Hw'.
unfold linear_check at 1 3. rewrite H1i, Z.eqb_refl. cbn [guard bind].
rewrite Hw3, Hw3'.
unfold linear_check. rewrite H2i, <- H1l. fold H. rewrite Z.eqb_refl.
cbn [guard bind].
eexists _, _. split; [reflexivity|]. split; [reflexivity|].
apply paired_ndropout; try assumption.
pose proof (paired_map (nlinear (w_fc2 W)) B N H
              (length (lw_weight (w_fc2 W))) m _ _
              (fun tok Ht => nlinear_ok _ H tok Ht) P3) as P4.
rewrite Hw2 in P4. exact P4.
Qed.

Lemma paired_Block_drop_path (self : Block.t) (training : bool)
  (u : nat -> Q) (pos B N C : nat) (m : list (list Z)) (x x' : tokens) :
~ Block.drop_path self == 1 ->
paired B N C m x x' ->
paired B N C m (Block_drop_path self training u pos x)
               (Block_drop_path self training u pos x').
Proof.
intros Hdp Hp. unfold Block_drop_path.
destruct (Qle_bool (Block.drop_path self) 0); [exact Hp|].
apply paired_drop_path; assumption.
Qed.

Lemma paired_Block (self : Block.t) (W : BlockW) (training : bool)
  (rnd : randomness) (u : nat -> Q) (pos B N C : nat) (m : list (list Z))
  (x x' : tokens) :
(0 < B)%nat -> (0 < N)%nat ->
(forall b, (b < B)%nat -> exists j, (j < N)%nat /\ unmasked m b j) ->
block_fits (Z.of_nat C) self W ->
paired B N C m x x' ->
exists y y' a a' pos',
  Block_forward gelu custom_norm self W training rnd u pos x (Some m)
  = Ok (y, a, pos')
  /\ Block_forward gelu custom_norm self W training rnd u pos x' (Some m)
     = Ok (y', a', pos')
  /\ paired B N C m y y'.
Proof.
intros HB HN Hkey Hfit Hp.
destruct Hfit as (Hn1 & Hn2 & Hqi & Hqo & Hqf & Hpi & Hpo & Hpf & Hnh & Hmod
                  & H1i & H1f & H2i & H2o & H2f & Hdp).
destruct (paired_dims B N C m x x' Hp HB HN)
  as ((Hl & Hn & _) & (Hl' & Hn' & _)).
unfold Block_forward. rewrite Hl, Hn, Hl', Hn'.
destruct (paired_LayerNorm _ _ B N C m x x' HB HN Hn1 Hp)
  as (xn & xn' & -> & -> & Pn). cbn [bind].
destruct (paired_Attention (Block.attn self) (w_attn W) training rnd pos
            B N C m xn xn' HB HN Hkey Hqi Hqo Hqf Hpi Hpo Hpf Hnh Hmod Pn)
  as (y1 & y1' & a & a' & -> & -> & P1). cbn [bind].
pose proof (paired_Block_drop_path self training u
              (pos + Attention_draws (Block.attn self) (w_attn W) B N)
              B N C m y1 y1' Hdp P1) as P2.
destruct (paired_add B N C m x x' _ _ HB HN Hp P2)
  as (x2 & x2' & -> & -> & P3). cbn [bind].
destruct (paired_LayerNorm _ _ B N C m x2 x2' HB HN Hn2 P3)
  as (x3 & x3' & -> & -> & P4). cbn [bind].
destruct (paired_Mlp (Block.mlp self) (w_mlp W) training rnd
            (pos + Attention_draws (Block.attn self) (w_attn W) B N + B)
            B N C m x3 x3' HB HN H1i H1f H2i H2o H2f P4)
  as (x4 & x4' & -> & -> & P5). cbn [bind].
pose proof (paired_Block_drop_path self training u
              (pos + Attention_draws (Block.attn self) (w_attn W) B N + B
               + Mlp_draws (w_mlp W) B N)
              B N C m x4 x4' Hdp P5) as P6.
destruct (paired_add B N C m x2 x2' _ _ HB HN P3 P6)
  as (x5 & x5' & -> & -> & P7). cbn [bind].
eexists _, _, _, _, _. split; [reflexivity|]. split; [reflexivity|].
exact P7.
Qed.

Lemma paired_run_blocks (blocks : list Block.t) (Ws : list BlockW)
  (training : bool) (rnd : randomness) (u : nat -> Q)
  (B N C : nat) (m : list (list Z)) :
(0 < B)%nat -> (0 < N)%nat ->
(forall b, (b < B)%nat -> exists j, (j < N)%nat /\ unmasked m b j) ->
Forall2 (block_fits (Z.of_nat C)) blocks Ws ->
forall (pos : nat) (x x' : tokens),
  paired B N C m x x' ->
  exists y y' pos',
    run_blocks gelu custom_norm (combine blocks Ws) training rnd u pos x
               (Some m) = Ok (y, pos')
    /\ run_blocks gelu custom_norm (combine blocks Ws) training rnd u pos x'
                  (Some m) = Ok (y', pos')
    /\ paired B N C m y y'.
Proof.
intros HB HN Hkey Hfit.
induction Hfit as [|blk W blocks Ws Hb _ IH]; intros pos x x' Hp.
- cbn [combine run_blocks]. eexists _, _, _.
  split; [reflexivity|]. split; [reflexivity | exact Hp].
- cbn [combine run_blocks].
  destruct (paired_Block blk W training rnd u pos B N C m x x'
              HB HN Hkey Hb Hp)
    as (y & y' & a & a' & pos1 & -> & -> & P1). cbn [bind].
  apply IH. exact P1.
Qed.

End Layers.

(** ** The forward pass of the model *)

Lemma tiny_model_fits (m : PerceiverVisionTransformer.t) :
  PerceiverVisionTransformer.init tiny_init tiny_kwargs = Ok m ->
  model_fits m tiny_weights
  /\ Z.to_nat (PerceiverVisionTransformer.embed_dim m) = 2%nat.
Proof.
  intros E. vm_compute in E. inversion E; subst m; clear E.
  split; [|reflexivity].
  unfold model_fits, block_fits, norm_fits, linear_fits.
  cbn -[Z.of_nat Qeq]. repeat split; try reflexivity; try lia.
  all: try (left; reflexivity).
  repeat constructor; try (left; reflexivity).
  all: intros H; vm_compute in H; discriminate H.
Qed.

(** On a model whose layers are the ones its constructor builds (with
    [nn.LayerNorm] as the normalisation, heads that divide the embedding
    dimension, drop-path rates other than 1) and whose weights have the
    shapes of those layers, the tokens at masked positions do not
    influence the result at the other positions: for two batches of
    finite tokens [[B][N][embed_dim]] that are equal at every unmasked
    position, with a mask [[B][N]] that leaves at least one key of
    every example unmasked, [forward] returns for both, in training and
    in evaluation mode with the same random draws, finite tensors
    [[B][N][embed_dim]] that are equal at every unmasked position. *)
Theorem forward_ignores_masked_tokens :
  forall (gelu : R -> R)
         (custom_norm : string -> LayerNorm -> LayerNormW -> tokens ->
                        result tokens)
         (self : PerceiverVisionTransformer.t) (W : ModelW) (training : bool)
         (rnd : randomness) (u : nat -> Q) (pos : nat) (x x' : tokens)
         (m : list (list Z)) (B N : nat),
    model_fits self W ->
    let D := Z.to_nat (PerceiverVisionTransformer.embed_dim self) in
    rect3 B N D x -> rect3 B N D x' -> finite x -> finite x' ->
    rect2 B N m ->
    (0 < B)%nat -> (0 < N)%nat ->
    (forall b, (b < B)%nat -> exists j, (j < N)%nat /\ unmasked m b j) ->
    (forall b j, (b < B)%nat -> (j < N)%nat -> unmasked m b j ->
                 nth j (nth b x []) [] = nth j (nth b x' []) []) ->
    exists y y',
      forward gelu custom_norm self W training rnd u pos x (Some m) = Ok y
      /\ forward gelu custom_norm self W training rnd u pos x' (Some m) = Ok y'
      /\ rect3 B N D y /\ rect3 B N D y' /\ finite y /\ finite y'
      /\ forall b j, (b < B)%nat -> (j < N)%nat -> unmasked m b j ->
                     nth j (nth b y []) [] = nth j (nth b y' []) [].
Proof.
  intros gelu custom_norm self W training rnd u pos x x' m B N
         (HD & Hblocks & Hnorm) D Hx Hx' Hf Hf' _ HB HN Hkey Hagree.
  assert (HDz : PerceiverVisionTransformer.embed_dim self = Z.of_nat D)
    by (unfold D; lia).
  rewrite HDz in Hblocks, Hnorm.
  assert (Hp : paired B N D m x x').
  { split; [apply batch_ok_iff; auto|]. split; [apply batch_ok_iff; auto|].
    exact Hagree. }
  unfold forward.
  destruct (paired_run_blocks gelu custom_norm _ _ training rnd u B N D m
              HB HN Hkey Hblocks pos x x' Hp)
    as (y1 & y1' & pos' & -> & -> & P1). cbn [bind].
  destruct (paired_LayerNorm custom_norm _ _ B N D m y1 y1' HB HN Hnorm P1)
    as (y & y' & -> & -> & (Hy & Hy' & Ha)).
  exists y, y'. split; [reflexivity|]. split; [reflexivity|].
  apply batch_ok_iff in Hy as [Hy1 Hy2].
  apply batch_ok_iff in Hy' as [Hy1' Hy2'].
  repeat split; try assumption; try apply Hy1; try apply Hy1'.
Qed.

Lemma forward_ignores_masked_tokens_witness :
  match PerceiverVisionTransformer.init tiny_init tiny_kwargs with
  | Ok model =>
      exists y y',
        forward (fun r => r) (fun _ _ _ _ => Err NotImplementedError)
                model tiny_weights true tiny_rnd (fun _ => 0) 0
                (tiny_batch 0 1) (Some tiny_mask) = Ok y
        /\ forward (fun r => r) (fun _ _ _ _ => Err NotImplementedError)
                   model tiny_weights true tiny_rnd (fun _ => 0) 0
                   (tiny_batch 5 7) (Some tiny_mask) = Ok y'
        /\ nth 0 (nth 0 y []) [] = nth 0 (nth 0 y' []) []
  | Err _ => False
  end.
Proof.
  destruct (PerceiverVisionTransformer.init tiny_init tiny_kwargs)
    as [model|e] eqn:E.
  - destruct (tiny_model_fits model E) as [Hfit HD].
    destruct (forward_ignores_masked_tokens
                (fun r => r) (fun _ _ _ _ => Err NotImplementedError)
                model tiny_weights true tiny_rnd (fun _ => 0) 0
                (tiny_batch 0 1) (tiny_batch 5 7) tiny_mask 1 2 Hfit)
      as (y & y' & Hy & Hy' & _ & _ & _ & _ & Ha).
    + rewrite HD. repeat constructor.
    + rewrite HD. repeat constructor.
    + repeat constructor; discriminate.
    + repeat constructor; discriminate.
    + repeat constructor.
    + lia.
    + lia.
    + intros b Hb. exists 0%nat. split; [lia|].
      destruct b; [|lia]. unfold unmasked. simpl. discriminate.
    + intros b j Hb Hj Hm. destruct b; [|lia].
      destruct j as [|[|j]]; [reflexivity | | lia].
      exfalso. apply Hm. reflexivity.
    + exists y, y'. split; [exact Hy|]. split; [exact Hy'|].
      apply Ha; [lia | lia |]. unfold unmasked. simpl. discriminate.
  - vm_compute in E. discriminate E.
Defined.

(** *** Evaluation mode *)

Section Eval.

Variable gelu : R -> R.
Variable custom_norm :
string -> LayerNorm -> LayerNormW -> tokens -> result tokens.

Lemma Attention_forward_full_eval (self : Attention.t) (W : AttentionW)
  (rnd rnd' : randomness) (pos pos' : nat) (x : tokens)
  (mask : option (list (list Z))) :
Attention_forward_full self W false rnd pos x mask
= Attention_forward_full self W false rnd' pos' x mask.
Proof. reflexivity. Qed.

Lemma Mlp_forward_eval (self : Mlp.t) (W : MlpW)
  (rnd rnd' : randomness) (pos pos' : nat) (x : tokens) :
Mlp_forward gelu self W false rnd pos x
= Mlp_forward gelu self W false rnd' pos' x.
Proof. reflexivity. Qed.

Lemma Block_drop_path_eval (self : Block.t) (u : nat -> Q) (pos : nat)
  (x : tokens) :
Block_drop_path self false u pos x = x.
Proof.
unfold Block_drop_path, drop_path.
destruct (Qle_bool _ _); [reflexivity|].
rewrite orb_true_r. reflexivity.
Qed.

Lemma Block_forward_eval (self : Block.t) (W : BlockW)
  (rnd rnd' : randomness) (u u' : nat -> Q) (pos pos' : nat) (x : tokens)
  (mask : option (list (list Z))) :
match Block_forward gelu custom_norm self W false rnd u pos x mask,
      Block_forward gelu custom_norm self W false rnd' u' pos' x mask with
| Ok (y, a, _), Ok (y', a', _) => y = y' /\ a = a'
| Err e, Err e' => e = e'
| _, _ => False
end.
Proof.
unfold Block_forward.
destruct (LayerNorm_forward custom_norm (Block.norm1 self) (w_norm1 W) x)
  as [xn|e]; cbn [bind]; [|reflexivity].
rewrite (Attention_forward_full_eval _ _ rnd rnd' pos pos').
destruct (Attention_forward_full (Block.attn self) (w_attn W) false rnd' pos'
            xn mask) as [[y1 a]|e]; cbn [bind]; [|reflexivity].
rewrite !Block_drop_path_eval.
destruct (add_tokens x y1) as [x2|e]; cbn [bind]; [|reflexivity].
destruct (LayerNorm_forward custom_norm (Block.norm2 self) (w_norm2 W) x2)
  as [x3|e]; cbn [bind]; [|reflexivity].
match goal with
| |- context [Mlp_forward gelu ?s ?w false rnd ?p x3] =>
    rewrite (Mlp_forward_eval s w rnd rnd' p 0 x3)
end.
match goal with
| |- context [Mlp_forward gelu ?s ?w false rnd' (?a + ?b) x3] =>
    rewrite (Mlp_forward_eval s w rnd' rnd' (a + b) 0 x3)
end.
destruct (Mlp_forward gelu (Block.mlp self) (w_mlp W) false rnd' 0 x3)
  as [x4|e]; cbn [bind]; [|reflexivity].
rewrite !Block_drop_path_eval.
destruct (add_tokens x2 x4) as [x5|e]; cbn [bind]; [|reflexivity].
split; reflexivity.
Qed.

Lemma run_blocks_eval (blocks : list (Block.t * BlockW))
  (rnd rnd' : randomness) (u u' : nat -> Q)
  (mask : option (list (list Z))) :
forall (pos pos' : nat) (x : tokens),
  match run_blocks gelu custom_norm blocks false rnd u pos x mask,
        run_blocks gelu custom_norm blocks false rnd' u' pos' x mask with
  | Ok (y, _), Ok (y', _) => y = y'
  | Err e, Err e' => e = e'
  | _, _ => False
  end.
Proof.
induction blocks as [|[blk W] blocks IH]; intros pos pos' x.
- reflexivity.
- cbn [run_blocks].
  pose proof (Block_forward_eval blk W rnd rnd' u u' pos pos' x mask) as Hb.
  destruct (Block_forward gelu custom_norm blk W false rnd u pos x mask)
    as [[[y a] p1]|e];
    destruct (Block_forward gelu custom_norm blk W false rnd' u' pos' x mask)
      as [[[y' a'] p1']|e']; cbn [bind]; try contradiction.
  + destruct Hb as [-> _]. apply IH.
  + exact Hb.
Qed.

End Eval.

(** In evaluation mode [forward] uses no random draw: dropout and drop
    path are the identity, so the result (a tensor, or the error raised)
    is the same for every state of the random generators. *)
Theorem forward_eval_ignores_randomness :
  forall (gelu : R -> R)
         (custom_norm : string -> LayerNorm -> LayerNormW -> tokens ->
                        result tokens)
         (self : PerceiverVisionTransformer.t) (W : ModelW)
         (rnd rnd' : randomness) (u u' : nat -> Q) (pos pos' : nat)
         (x : tokens) (x_mask : option (list (list Z))),
    forward gelu custom_norm self W false rnd u pos x x_mask
    = forward gelu custom_norm self W false rnd' u' pos' x x_mask.
Proof.
  intros gelu custom_norm self W rnd rnd' u u' pos pos' x x_mask.
  unfold forward.
  pose proof (run_blocks_eval gelu custom_norm
                (combine (PerceiverVisionTransformer.blocks self) (w_blocks W))
                rnd rnd' u u' x_mask pos pos' x) as H.
  destruct (run_blocks gelu custom_norm _ false rnd u pos x x_mask)
    as [[y p]|e];
    destruct (run_blocks gelu custom_norm _ false rnd' u' pos' x x_mask)
      as [[y' p']|e']; cbn [bind]; try contradiction.
  - rewrite H. reflexivity.
  - rewrite H. reflexivity.
Qed.

(** A non-empty batch of tokens [[B][N][C]] whose width [C] is not the
    embedding dimension is refused: the first normalisation layer it
    meets ([norm1] of the first block, or [norm] when there is no block)
    raises [RuntimeError], in both modes and whatever the mask is. *)
Theorem forward_rejects_wrong_width :
  forall (gelu : R -> R)
         (custom_norm : string -> LayerNorm -> LayerNormW -> tokens ->
                        result tokens)
         (self : PerceiverVisionTransformer.t) (W : ModelW) (training : bool)
         (rnd : randomness) (u : nat -> Q) (pos : nat) (x : tokens)
         (x_mask : option (list (list Z))) (B N C : nat),
    model_fits self W ->
    rect3 B N C x -> (0 < B)%nat -> (0 < N)%nat ->
    Z.of_nat C <> PerceiverVisionTransformer.embed_dim self ->
    exists msg,
      forward gelu custom_norm self W training rnd u pos x x_mask
      = Err (RuntimeError msg).
Proof.
  intros gelu custom_norm self W training rnd u pos x x_mask B N C
         (HD & Hblocks & Hnorm) Hx HB HN HC.
  assert (Hw : Z.of_nat (width x)
               <> PerceiverVisionTransformer.embed_dim self).
  { replace (width x) with C; [exact HC|].
    destruct Hx as [Hl Hx]. unfold width.
    destruct x as [|ex x]; [simpl in Hl; lia|].
    apply Forall_inv in Hx. destruct Hx as [Hl' Hx]. cbn [hd].
    destruct ex as [|tok ex]; [simpl in Hl'; lia|].
    apply Forall_inv in Hx. cbn [hd]. symmetry. exact Hx. }
  assert (Hn : forall (n : LayerNorm) (Wn : LayerNormW),
            norm_fits (PerceiverVisionTransformer.embed_dim self) n Wn ->
            exists msg,
              LayerNorm_forward custom_norm n Wn x = Err (RuntimeError msg)).
  { intros n Wn (Hs & Hc & _). unfold LayerNorm_forward. rewrite Hs.
    rewrite (proj2 (Z.eqb_neq _ _) Hw).
    destruct Hc as [-> | ->]; cbn [String.eqb Ascii.eqb Bool.eqb guard bind];
      eexists; reflexivity. }
  unfold forward.
  destruct Hblocks as [|blk Wb blocks Ws Hb _].
  - cbn [combine run_blocks bind]. apply Hn. exact Hnorm.
  - cbn [combine run_blocks]. unfold Block_forward.
    destruct (Hn _ _ (proj1 Hb)) as (msg & ->). cbn [bind].
    exists msg. reflexivity.
Qed.

Lemma forward_rejects_wrong_width_witness :
  match PerceiverVisionTransformer.init tiny_init tiny_kwargs with
  | Ok model =>
      exists msg,
        forward (fun r => r) (fun _ _ _ _ => Err NotImplementedError)
                model tiny_weights false tiny_rnd (fun _ => 0) 0
                [ [ [Some 1; Some 2; Some 3]%R ] ] None
        = Err (RuntimeError msg)
  | Err _ => False
  end.
Proof.
  destruct (PerceiverVisionTransformer.init tiny_init tiny_kwargs)
    as [model|e] eqn:E.
  - destruct (tiny_model_fits model E) as [Hfit HD].
    apply (forward_rejects_wrong_width _ _ model tiny_weights false tiny_rnd
             (fun _ => 0) 0 _ None 1 1 3 Hfit).
    + repeat constructor.
    + lia.
    + lia.
    + lia.
  - vm_compute in E. discriminate E.
Defined.

(** ** The two descriptions of [Attention.forward] agree on the weights *)

Lemma nsum_lift (l : list R) : nsum (map Some l) = Some (Rsum l).
Proof.
  induction l as [|r l IH]; simpl; [reflexivity|]. rewrite IH. reflexivity.
Qed.

Lemma ndot_lift (a b : list R) :
  ndot (map Some a) (map Some b) = Some (dot a b).
Proof.
  unfold ndot, dot. rewrite <- nsum_lift. f_equal.
  revert b. induction a as [|x a IH]; intros [|y b]; simpl;
    try reflexivity.
  f_equal. apply IH.
Qed.

Lemma nlinear_lift (l : LinearW) (x : list R) :
  nlinear l (map Some x) = map Some (linear l x).
Proof.
  unfold nlinear, linear, imap. rewrite map_map. apply map_ext.
  intros [o wrow]. cbn [fst snd]. rewrite ndot_lift. reflexivity.
Qed.

Lemma slice_head_lift (s h heads hd : nat) (row : list R) :
  slice_head s h heads hd (map Some row)
  = map Some (head_slice s h heads hd row).
Proof.
  unfold slice_head, head_slice. rewrite skipn_map, firstn_map. reflexivity.
Qed.

Lemma imap_ext {A B : Type} (f g : nat -> A -> B) (l : list A) :
  (forall i a, f i a = g i a) -> imap f l = imap g l.
Proof.
  intros H. unfold imap. apply map_ext. intros [i a]. apply H.
Qed.

Lemma hd_lift (x : list (list (list R))) :
  length (hd [] (map (map (map Some)) x)) = length (hd [] x)
  /\ width (map (map (map Some)) x) = length (hd [] (hd [] x)).
Proof.
  unfold width. destruct x as [|ex x]; [split; reflexivity|].
  cbn [map hd]. split; [apply length_map|].
  destruct ex as [|t ex]; [reflexivity|]. cbn [map hd]. apply length_map.
Qed.

Lemma attention_models_agree (self : Attention.t) (W : AttentionW)
    (training : bool) (rnd : randomness) (pos : nat)
    (x : list (list (list R))) (mask : option (list (list Z)))
    (y : tokens) (a : list (list (list (list fval)))) :
  Attention_forward_full self W training rnd pos (map (map (map Some)) x) mask
  = Ok (y, a) ->
  Attention_forward self (w_qkv W) training rnd pos x mask = Ok a.
Proof.
  unfold Attention_forward_full, Attention_forward.
  destruct (hd_lift x) as [-> ->].
  intros H.
  apply bind_ok in H as (u1 & _ & H).
  destruct (floordiv _ _) as [hd0|e]; [|discriminate H]. cbn [bind] in *.
  destruct (guard _ _) as [u2|e]; [|discriminate H]. cbn [bind] in *.
  apply bind_ok in H as (u3 & _ & H).
  apply bind_ok in H as (u4 & _ & H).
  inversion H; subst y a; clear H. f_equal.
  unfold attention_weights.
  rewrite !map_map, imap_map. apply imap_ext. intros b xb.
  apply tabulate_ext. intros h Hh.
  rewrite !map_map, !imap_map. apply imap_ext. intros i tok.
  unfold attention_row.
  rewrite nlinear_lift, slice_head_lift.
  assert (E : imap (fun j kj =>
                      mask_fill mask b j
                        (logit_of (scale_value (Attention.scale self))
                           (ndot (map Some (head_slice 0 h
                                    (Z.to_nat (Attention.num_heads self))
                                    (Z.to_nat hd0) (linear (w_qkv W) tok)))
                                 kj)))
                   (map (fun t => slice_head 1 h
                                    (Z.to_nat (Attention.num_heads self))
                                    (Z.to_nat hd0) (nlinear (w_qkv W)
                                                      (map Some t))) xb)
              = imap (fun j kj =>
                        mask_fill mask b j
                          (Fin (dot (head_slice 0 h
                                       (Z.to_nat (Attention.num_heads self))
                                       (Z.to_nat hd0) (linear (w_qkv W) tok))
                                    kj
                                * scale_value (Attention.scale self))))
                     (map (fun t => head_slice 1 h
                                      (Z.to_nat (Attention.num_heads self))
                                      (Z.to_nat hd0) (linear (w_qkv W) t)) xb)).
  { rewrite !imap_map. apply imap_ext. intros j t.
    rewrite nlinear_lift, slice_head_lift, ndot_lift. reflexivity. }
  rewrite E. reflexivity.
Qed.
